(** * health_monitor.py: the serial-line health-telemetry bridge

    A shallow embedding of [HealthMonitor] (src/health_monitor.py) and the
    properties of its record assembler, device locator and connection
    manager.

    Conventions of the embedding.
    - A Python [str] is a [string]; a character stands for the code point of
      the same number (code points below 256).
    - A Python [int] is a [Z] (Python integers do not wrap).
    - The monitor object and the one file it owns are a record [world]; every
      method is a computation in a state-and-exception monad over it.
    - Everything the program asks of its surroundings (the clock, the serial
      ports, the file system, the HTTP endpoint) is answered by an [env] of
      oracles indexed by the number of questions asked so far, so nothing is
      assumed about the answers.
    - Every [print], [time.sleep] and outside call is appended to a trace of
      events, in program order. *)

From Stdlib Require Import String Ascii List ZArith Bool Lia PeanoNat.
From Stdlib Require Import Decimal DecimalString DecimalZ.
Import ListNotations.
Open Scope string_scope.
Open Scope Z_scope.
Open Scope list_scope.

(** ** Python string operations *)

Module PyStr.

(** [sub in s] *)
Fixpoint contains (sub s : string) : bool :=
  if String.prefix sub s then true
  else match s with
       | EmptyString => false
       | String _ s' => contains sub s'
       end.

Fixpoint drop (n : nat) (s : string) : string :=
  match n, s with
  | O, _ => s
  | S _, EmptyString => EmptyString
  | S k, String _ s' => drop k s'
  end.

(** [s.partition(sep)] for a non-empty [sep]: the text before and after the
    leftmost occurrence, [None] when there is none. *)
Fixpoint partition (sep s : string) : option (string * string) :=
  if String.prefix sep s then Some (EmptyString, drop (String.length sep) s)
  else match s with
       | EmptyString => None
       | String c s' =>
           match partition sep s' with
           | Some (a, b) => Some (String c a, b)
           | None => None
           end
       end.

(** [s.split(sep)] for a non-empty [sep]. Each cut removes at least one
    character, so [length s] rounds are enough. *)
Fixpoint split_fuel (fuel : nat) (sep s : string) : list string :=
  match partition sep s with
  | None => [s]
  | Some (a, b) =>
      match fuel with
      | O => [s]
      | S f => a :: split_fuel f sep b
      end
  end.

Definition split (sep s : string) : list string :=
  split_fuel (String.length s) sep s.

(** [s.split(sep, 1)] *)
Definition split1 (sep s : string) : list string :=
  match partition sep s with
  | None => [s]
  | Some (a, b) => [a; b]
  end.

(** [s.replace(old, new)] for a non-empty [old]. *)
Fixpoint replace_fuel (fuel : nat) (old new s : string) : string :=
  match partition old s with
  | None => s
  | Some (a, b) =>
      match fuel with
      | O => s
      | S f => (a ++ new ++ replace_fuel f old new b)%string
      end
  end.

Definition replace (old new s : string) : string :=
  replace_fuel (String.length s) old new s.

(** [str.isspace] on one character. *)
Definition is_space (c : ascii) : bool :=
  let n := nat_of_ascii c in
  ((9 <=? n) && (n <=? 13) || (28 <=? n) && (n <=? 32)
   || (n =? 133) || (n =? 160))%nat.

Fixpoint lstrip (s : string) : string :=
  match s with
  | EmptyString => EmptyString
  | String c s' => if is_space c then lstrip s' else s
  end.

Fixpoint rstrip (s : string) : string :=
  match s with
  | EmptyString => EmptyString
  | String c s' =>
      match rstrip s' with
      | EmptyString => if is_space c then EmptyString else String c EmptyString
      | r => String c r
      end
  end.

(** [s.strip()] *)
Definition strip (s : string) : string := rstrip (lstrip s).

(** [s.lower()] *)
Definition lower_char (c : ascii) : ascii :=
  let n := nat_of_ascii c in
  if ((65 <=? n) && (n <=? 90)
      || (192 <=? n) && (n <=? 222) && negb (n =? 215))%nat
  then ascii_of_nat (n + 32) else c.

Fixpoint lower (s : string) : string :=
  match s with
  | EmptyString => EmptyString
  | String c s' => String (lower_char c) (lower s')
  end.

Definition digit_of (c : ascii) : option Z :=
  let n := nat_of_ascii c in
  if ((48 <=? n) && (n <=? 57))%nat then Some (Z.of_nat (n - 48)) else None.

(** The digits of an integer literal: decimal digits, with single
    underscores allowed between two digits. *)
Fixpoint int_digits (acc : Z) (after_digit : bool) (s : string) : option Z :=
  match s with
  | EmptyString => if after_digit then Some acc else None
  | String c s' =>
      match digit_of c with
      | Some d => int_digits (10 * acc + d) true s'
      | None =>
          if Ascii.eqb c "_"%char && after_digit
          then int_digits acc false s' else None
      end
  end.

(** The blanks [int] skips around a literal: it maps the code points that
    are spaces beyond ASCII to a blank and then skips the blanks of C's
    [isspace]. The separators 28 to 31, which [str.strip] removes, are not
    among them. *)
Definition is_int_space (c : ascii) : bool :=
  let n := nat_of_ascii c in
  ((9 <=? n) && (n <=? 13) || (n =? 32) || (n =? 133) || (n =? 160))%nat.

Fixpoint int_lstrip (s : string) : string :=
  match s with
  | EmptyString => EmptyString
  | String c s' => if is_int_space c then int_lstrip s' else s
  end.

Fixpoint int_rstrip (s : string) : string :=
  match s with
  | EmptyString => EmptyString
  | String c s' =>
      match int_rstrip s' with
      | EmptyString =>
          if is_int_space c then EmptyString else String c EmptyString
      | r => String c r
      end
  end.

(** The number of digits of a literal; underscores do not count. *)
Fixpoint digits (s : string) : nat :=
  match s with
  | EmptyString => O
  | String c s' =>
      match digit_of c with
      | Some _ => S (digits s')
      | None => digits s'
      end
  end.

(** [sys.get_int_max_str_digits()], as CPython starts with. *)
Definition int_max_str_digits : Z := 4300.

(** The literal after its sign: refused with more digits than the limit. *)
Definition int_literal (r : string) : option Z :=
  if Z.of_nat (digits r) <=? int_max_str_digits
  then int_digits 0 false r else None.

(** [int(s)]: [None] stands for [ValueError]. *)
Definition int (s : string) : option Z :=
  match int_rstrip (int_lstrip s) with
  | String "+"%char r => int_literal r
  | String "-"%char r => option_map Z.opp (int_literal r)
  | t => int_literal t
  end.

(** [str(n)] for an integer. CPython refuses the conversion for an integer
    of more than [int_max_str_digits] digits; that refusal is not modelled.
    Of the integers the program holds, only the counter can grow that long,
    by counting on from a detected number of 4300 nines. *)
Definition str (n : Z) : string := NilZero.string_of_int (Z.to_int n).

(** The integers [int] reads back from their [str]. *)
Definition fits (n : Z) : Prop :=
  Z.of_nat (digits (str n)) <= int_max_str_digits.

End PyStr.

(** ** The monitor object and its surroundings *)

(** The exception classes the program distinguishes, and the text of
    [str(e)], which two handlers inspect. *)
Inductive exn_class :=
| ValueError | IndexError | UnicodeDecodeError
| OSError | SerialException | RequestException
| OtherException.

Record exn := Exn { exn_cls : exn_class; exn_text : string }.

(** [serial.Serial]: the object [self.ser] holds. *)
Record serial := Serial { ser_port : option string; is_open : bool }.

(** What [requests.get] does. *)
Inductive http_outcome :=
| HttpResponse (status_code : Z) (text : string)
| HttpRaises (e : exn).

(** What [self.ser.readline().decode('utf-8')] does. *)
Inductive read_outcome :=
| ReadText (s : string)
| ReadRaises (e : exn).

(** Every [print] of the methods modelled here, by its content. *)
Inductive msg :=
| MsgThingSpeakDisabled
| MsgSending (patient bpm reading : Z)
| MsgSent (entry_id : string)
| MsgViewAt
| MsgUpdateFailed
| MsgHttpError (status : Z)
| MsgThingSpeakConnectionError (e : exn)
| MsgThingSpeakError (e : exn)
| MsgScanning
| MsgFound (device description : string)
| MsgTesting (p : string)
| MsgPortBusy (p : string)
| MsgPortFailed (p : string) (e : exn)
| MsgPortError (p : string) (e : exn)
| MsgNoPortsFound
| MsgAttempt (k max : Z)
| MsgNoWorkingPorts
| MsgRetrying (secs : Z)
| MsgSelected (p : string)
| MsgConnecting (p : option string)
| MsgConnected (p : option string)
| MsgBusyAttempt (p : option string) (k max : Z)
| MsgTip
| MsgConnectionFailed (e : exn)
| MsgUnexpected (e : exn)
| MsgConnectionLostReconnecting
| MsgResuming (patient : Z)
| MsgUsingExisting
| MsgNewFile
| MsgRecording
| MsgThingSpeakEnabled
| MsgChannel
| MsgThingSpeakOff
| MsgCsvInitError (e : exn)
| MsgCsvCritical (e : exn)
| MsgSaved (patient bpm reading : Z)
| MsgUploadFailedSavedLocally
| MsgSaveError (e : exn)
| MsgPatientDetected (patient : Z)
| MsgHeartbeat (reading : Z)
| MsgBpm (bpm : Z)
| MsgCouldNotParse (line : string)
| MsgParseError (e : exn)
| MsgDisconnected
| MsgLost
| MsgReconnectAttempt (k max : Z)
| MsgReconnected
| MsgMaxReconnect
| MsgLine (line : string)
| MsgCouldNotDecode
| MsgArduinoDisconnected
| MsgSerialReadError (e : exn).

(** What the program does to its surroundings, in program order.
    [Sleep] counts tenths of a second. *)
Inductive event :=
| Print (m : msg)
| Sleep (tenths : Z)
| Comports
| SerialOpen (p : option string) (failure : option exn)
| SerialClose (failure : option exn)
| ResetInputBuffer
| CsvRead
| CsvCreate (header : list string)
| CsvAppend (row : list string)
| HttpGet (field1 field2 field3 : Z) (field4 : string).

Definition seconds (n : Z) : Z := 10 * n.

(** The answers of the surroundings. The index is the number of questions
    the program has asked before this one. [csv_write] answers for a whole
    [with open(...) as f: writer.writerow(...)] statement, [None] when it
    completes; when it raises, [csv_opened] says whether the file had been
    opened by then, so that mode ['w'] had emptied it, or mode ['a'] created
    it, before the failure. *)
Record env := Env {
  now : nat -> string;
  comports : nat -> list (string * string);
  serial_open : nat -> option string -> option exn;
  serial_close : nat -> option exn;
  in_waiting : nat -> exn + Z;
  reset_input_buffer : nat -> option exn;
  readline_decode : nat -> read_outcome;
  csv_read : nat -> option exn;
  csv_write : nat -> option exn;
  csv_opened : nat -> bool;
  requests_get : nat -> Z -> Z -> Z -> string -> http_outcome
}.

(** The fields of [HealthMonitor] that the modelled methods use, the rows of
    the file [csv_filename] as [csv.reader] yields them ([None]: no such
    file), [serial_worker]'s local [reconnect_attempts], and the two
    bookkeeping fields [trace] and [tick]. The file is one of complete
    lines, each ended by its line terminator, as [csv.writer] leaves it: a
    row appended to it is then a row of its own. A file whose last line was
    cut short has no place in this model. *)
Record world := World {
  port : option string;
  ser : option serial;
  running : bool;
  current_patient_number : Z;
  last_bpm : option Z;
  last_heartbeat : option Z;
  connection_lost : bool;
  thingspeak_enabled : bool;
  csv_file : option (list (list string));
  reconnect_attempts : Z;
  trace : list event;
  tick : nat
}.

Definition with_port (p : option string) (w : world) : world :=
  World p (ser w) (running w) (current_patient_number w) (last_bpm w)
    (last_heartbeat w) (connection_lost w) (thingspeak_enabled w)
    (csv_file w) (reconnect_attempts w) (trace w) (tick w).
Definition with_ser (s : option serial) (w : world) : world :=
  World (port w) s (running w) (current_patient_number w) (last_bpm w)
    (last_heartbeat w) (connection_lost w) (thingspeak_enabled w)
    (csv_file w) (reconnect_attempts w) (trace w) (tick w).
Definition with_running (b : bool) (w : world) : world :=
  World (port w) (ser w) b (current_patient_number w) (last_bpm w)
    (last_heartbeat w) (connection_lost w) (thingspeak_enabled w)
    (csv_file w) (reconnect_attempts w) (trace w) (tick w).
Definition with_current_patient_number (n : Z) (w : world) : world :=
  World (port w) (ser w) (running w) n (last_bpm w)
    (last_heartbeat w) (connection_lost w) (thingspeak_enabled w)
    (csv_file w) (reconnect_attempts w) (trace w) (tick w).
Definition with_last_bpm (b : option Z) (w : world) : world :=
  World (port w) (ser w) (running w) (current_patient_number w) b
    (last_heartbeat w) (connection_lost w) (thingspeak_enabled w)
    (csv_file w) (reconnect_attempts w) (trace w) (tick w).
Definition with_last_heartbeat (h : option Z) (w : world) : world :=
  World (port w) (ser w) (running w) (current_patient_number w) (last_bpm w)
    h (connection_lost w) (thingspeak_enabled w)
    (csv_file w) (reconnect_attempts w) (trace w) (tick w).
Definition with_connection_lost (b : bool) (w : world) : world :=
  World (port w) (ser w) (running w) (current_patient_number w) (last_bpm w)
    (last_heartbeat w) b (thingspeak_enabled w)
    (csv_file w) (reconnect_attempts w) (trace w) (tick w).
Definition with_csv_file (f : option (list (list string))) (w : world)
  : world :=
  World (port w) (ser w) (running w) (current_patient_number w) (last_bpm w)
    (last_heartbeat w) (connection_lost w) (thingspeak_enabled w)
    f (reconnect_attempts w) (trace w) (tick w).
Definition with_reconnect_attempts (n : Z) (w : world) : world :=
  World (port w) (ser w) (running w) (current_patient_number w) (last_bpm w)
    (last_heartbeat w) (connection_lost w) (thingspeak_enabled w)
    (csv_file w) n (trace w) (tick w).
Definition with_trace (t : list event) (w : world) : world :=
  World (port w) (ser w) (running w) (current_patient_number w) (last_bpm w)
    (last_heartbeat w) (connection_lost w) (thingspeak_enabled w)
    (csv_file w) (reconnect_attempts w) t (tick w).
Definition with_tick (n : nat) (w : world) : world :=
  World (port w) (ser w) (running w) (current_patient_number w) (last_bpm w)
    (last_heartbeat w) (connection_lost w) (thingspeak_enabled w)
    (csv_file w) (reconnect_attempts w) (trace w) n.

(** ** Computations: state, exceptions, and the oracles *)

Inductive result (A : Type) :=
| Val (a : A)
| Raise (e : exn).
Arguments Val {A} a.
Arguments Raise {A} e.

Definition M (A : Type) : Type := env -> world -> result A * world.

Definition ret {A} (a : A) : M A := fun _ w => (Val a, w).

Definition bind {A B} (m : M A) (k : A -> M B) : M B :=
  fun e w =>
    match m e w with
    | (Val a, w') => k a e w'
    | (Raise x, w') => (Raise x, w')
    end.

Declare Scope monad_scope.
Delimit Scope monad_scope with monad.
Notation "x <- m ;; k" := (bind m (fun x => k))
  (at level 61, m at next level, right associativity) : monad_scope.
Notation "m ;; k" := (bind m (fun _ => k))
  (at level 61, right associativity) : monad_scope.
Open Scope monad_scope.

Definition raise {A} (x : exn) : M A := fun _ w => (Raise x, w).

(** [try: m  except Exception as x: h x]. What [m] did to the world before
    it raised stays done. *)
Definition try_except {A} (m : M A) (h : exn -> M A) : M A :=
  fun e w =>
    match m e w with
    | (Val a, w') => (Val a, w')
    | (Raise x, w') => h x e w'
    end.

Definition get : M world := fun _ w => (Val w, w).
Definition modify (f : world -> world) : M unit := fun _ w => (Val tt, f w).

Definition emit (ev : event) : M unit :=
  modify (fun w => with_trace (trace w ++ [ev]) w).
Definition print (m : msg) : M unit := emit (Print m).
Definition sleep (tenths : Z) : M unit := emit (Sleep tenths).

(** One question to the surroundings. *)
Definition ask {A} (q : env -> nat -> A) : M A :=
  fun e w => (Val (q e (tick w)), with_tick (S (tick w)) w).

Definition when (b : bool) (m : M unit) : M unit := if b then m else ret tt.

(** The world a computation leaves, and what it returns. *)
Definition exec {A} (m : M A) (e : env) (w : world) : world := snd (m e w).
Definition outcome {A} (m : M A) (e : env) (w : world) : result A :=
  fst (m e w).

(** ** Small Python idioms *)

(** [int(s)], raising [ValueError] *)
Definition int_of (s : string) : M Z :=
  match PyStr.int s with
  | Some n => ret n
  | None => raise (Exn ValueError "invalid literal for int() with base 10")
  end.

(** [l[i]], raising [IndexError] *)
Definition item {A} (l : list A) (i : nat) : M A :=
  match nth_error l i with
  | Some a => ret a
  | None => raise (Exn IndexError "list index out of range")
  end.

(** [l[-1]] *)
Definition last_item {A} (l : list A) : M A :=
  item l (List.length l - 1).

(** [range(n)] *)
Definition range (n : Z) : list Z := map Z.of_nat (seq 0 (Z.to_nat n)).

(** The subclass relation, as far as the handlers need it:
    [UnicodeDecodeError] is a [ValueError]; [SerialException] and
    [RequestException] are [OSError]s. *)
Definition is_value_error (c : exn_class) : bool :=
  match c with
  | ValueError | UnicodeDecodeError => true
  | _ => false
  end.

Definition is_os_error (c : exn_class) : bool :=
  match c with
  | OSError | SerialException | RequestException => true
  | _ => false
  end.

Definition is_some {A} (o : option A) : bool :=
  match o with Some _ => true | None => false end.

(** Truth value of [self.port]: [None] and [''] are false. *)
Definition truthy (p : option string) : bool :=
  match p with
  | None => false
  | Some EmptyString => false
  | Some _ => true
  end.

(** [[x for x in l if f(x)]] with an effectful [f] *)
Fixpoint filter_m {A} (f : A -> M bool) (l : list A) : M (list A) :=
  match l with
  | [] => ret []
  | x :: r =>
      b <- f x ;;
      r' <- filter_m f r ;;
      ret (if b then x :: r' else r')
  end.

(** ** Telemetry sink: [send_to_thingspeak] *)

Definition send_to_thingspeak (patient_number bpm heartbeat_reading : Z)
  : M bool :=
  w <- get ;;
  if negb (thingspeak_enabled w) then
    print MsgThingSpeakDisabled ;; ret false
  else
    try_except
      (timestamp <- ask now ;;
       print (MsgSending patient_number bpm heartbeat_reading) ;;
       emit (HttpGet patient_number bpm heartbeat_reading timestamp) ;;
       response <- ask (fun e n =>
         requests_get e n patient_number bpm heartbeat_reading timestamp) ;;
       match response with
       | HttpRaises x => raise x
       | HttpResponse status_code entry_id =>
           if status_code =? 200 then
             if negb (String.eqb entry_id "0") then
               print (MsgSent entry_id) ;; print MsgViewAt ;; ret true
             else
               print MsgUpdateFailed ;; ret false
           else
             print (MsgHttpError status_code) ;; ret false
       end)
      (fun x =>
         match exn_cls x with
         | RequestException => print (MsgThingSpeakConnectionError x)
         | _ => print (MsgThingSpeakError x)
         end ;;
         ret false).

(** ** The store: the CSV file *)

Definition csv_header : list string :=
  ["Patient_Number"; "Timestamp"; "BPM"; "Heartbeat_Reading"].

(** [open(csv_filename, 'r')] and [list(csv.reader(csvfile))]. *)
Definition csv_read_rows : M (list (list string)) :=
  r <- ask csv_read ;;
  w <- get ;;
  match r, csv_file w with
  | Some x, _ => raise x
  | None, None => raise (Exn OSError "No such file or directory")
  | None, Some rows => emit CsvRead ;; ret rows
  end.

(** [open(csv_filename, 'w')] and [writerow] of the header. Opening in mode
    ['w'] empties the file, so a statement that raises after it opened the
    file leaves the log empty; when opening itself raises, the log is as it
    was. *)
Definition csv_create : M unit :=
  r <- ask (fun e n => (csv_write e n, csv_opened e n)) ;;
  match r with
  | (Some x, opened) =>
      when opened (modify (with_csv_file (Some []))) ;;
      raise x
  | (None, _) =>
      modify (with_csv_file (Some [csv_header])) ;;
      emit (CsvCreate csv_header)
  end.

(** [open(csv_filename, 'a')] and [writerow(row)]. Mode ['a'] creates a
    missing file, also when the statement raises after opening it; the rows
    of an existing file stay. *)
Definition csv_append (row : list string) : M unit :=
  r <- ask (fun e n => (csv_write e n, csv_opened e n)) ;;
  match r with
  | (Some x, opened) =>
      when opened
        (modify (fun w =>
           with_csv_file
             (Some (match csv_file w with
                    | Some rows => rows
                    | None => []
                    end)) w)) ;;
      raise x
  | (None, _) =>
      modify (fun w =>
        with_csv_file
          (Some (match csv_file w with
                 | Some rows => (rows ++ [row])%list
                 | None => [row]
                 end)) w) ;;
      emit (CsvAppend row)
  end.

Definition initialize_csv : M unit :=
  w <- get ;;
  let file_exists := is_some (csv_file w) in
  try_except
    ((if file_exists then
        rows <- csv_read_rows ;;
        (if (1 <? List.length rows)%nat then
           last_row <- last_item rows ;;
           field <- item last_row 0 ;;
           n <- int_of field ;;
           modify (with_current_patient_number n) ;;
           print (MsgResuming n)
         else
           modify (with_current_patient_number 0)) ;;
        print MsgUsingExisting
      else
        csv_create ;;
        modify (with_current_patient_number 0) ;;
        print MsgNewFile) ;;
     print MsgRecording ;;
     w' <- get ;;
     if thingspeak_enabled w' then
       print MsgThingSpeakEnabled ;; print MsgChannel
     else
       print MsgThingSpeakOff)
    (fun x =>
       print (MsgCsvInitError x) ;;
       try_except
         (csv_create ;;
          modify (with_current_patient_number 0) ;;
          print MsgNewFile)
         (fun x2 => print (MsgCsvCritical x2))).

(** ** Record assembler: [save_patient_data] and [parse_data] *)

(** The row [writerow] is given; [csv.writer] writes [str(v)] of each. *)
Definition csv_row (patient : Z) (timestamp : string) (bpm reading : Z)
  : list string :=
  [PyStr.str patient; timestamp; PyStr.str bpm; PyStr.str reading].

Definition save_patient_data : M unit :=
  w <- get ;;
  match last_bpm w, last_heartbeat w with
  | Some bpm, Some heartbeat =>
      try_except
        (timestamp <- ask now ;;
         csv_append
           (csv_row (current_patient_number w) timestamp bpm heartbeat) ;;
         print (MsgSaved (current_patient_number w) bpm heartbeat) ;;
         (if thingspeak_enabled w then
            thingspeak_success <-
              send_to_thingspeak (current_patient_number w) bpm heartbeat ;;
            when (negb thingspeak_success) (print MsgUploadFailedSavedLocally)
          else ret tt) ;;
         modify (with_last_bpm None) ;;
         modify (with_last_heartbeat None))
        (fun x => print (MsgSaveError x))
  | _, _ => ret tt
  end.

Definition parse_data (line : string) : M unit :=
  if negb (PyStr.contains ":" line) then ret tt
  else
    match PyStr.split1 ":" line with
    | [data_type; data_value] =>
        try_except
          (if String.eqb data_type "DETECT" then
             if PyStr.contains "Queue=" data_value then
               after <- item (PyStr.split "Queue=" data_value) 1 ;;
               queue_part <- item (PyStr.split "," after) 0 ;;
               detected_patient <- int_of (PyStr.strip queue_part) ;;
               w <- get ;;
               (if detected_patient <=? current_patient_number w then
                  modify (with_current_patient_number
                            (current_patient_number w + 1))
                else
                  modify (with_current_patient_number detected_patient)) ;;
               w' <- get ;;
               print (MsgPatientDetected (current_patient_number w'))
             else ret tt
           else if String.eqb data_type "HEARTBEAT" then
             if PyStr.contains "Reading=" data_value then
               let heartbeat :=
                 PyStr.strip (PyStr.replace "Reading=" "" data_value) in
               n <- int_of heartbeat ;;
               modify (with_last_heartbeat (Some n)) ;;
               print (MsgHeartbeat n)
             else
               let heartbeat := PyStr.strip data_value in
               n <- int_of heartbeat ;;
               modify (with_last_heartbeat (Some n)) ;;
               print (MsgHeartbeat n)
           else if String.eqb data_type "BPM" then
             if PyStr.contains "Value=" data_value then
               let bpm :=
                 PyStr.strip (PyStr.replace "Value=" "" data_value) in
               n <- int_of bpm ;;
               modify (with_last_bpm (Some n)) ;;
               print (MsgBpm n) ;;
               w <- get ;;
               when (is_some (last_heartbeat w)) save_patient_data
             else
               let bpm := PyStr.strip data_value in
               n <- int_of bpm ;;
               modify (with_last_bpm (Some n)) ;;
               print (MsgBpm n) ;;
               w <- get ;;
               when (is_some (last_heartbeat w)) save_patient_data
           else ret tt)
          (fun x =>
             if is_value_error (exn_cls x)
             then print (MsgCouldNotParse line)
             else print (MsgParseError x))
    | _ => raise (Exn ValueError "not enough values to unpack")
    end.

(** ** Device locator: [find_available_arduino_port] and [test_port] *)

(** [any(keyword in device.lower() for keyword in ['usbmodem', 'usbserial'])] *)
Definition is_arduino (device : string) : bool :=
  existsb (fun keyword => PyStr.contains keyword (PyStr.lower device))
    ["usbmodem"; "usbserial"].

(** The first loop: the matching devices, each reported as it is found. *)
Fixpoint collect_arduino_ports (ports : list (string * string))
    (arduino_ports : list string) : M (list string) :=
  match ports with
  | [] => ret arduino_ports
  | (device, description) :: rest =>
      if is_arduino device then
        print (MsgFound device description) ;;
        collect_arduino_ports rest (arduino_ports ++ [device])%list
      else collect_arduino_ports rest arduino_ports
  end.

(** The second loop: every port with its cu/tty sibling. *)
Definition extend_ports (all_ports_to_try : list string) (port : string)
  : list string :=
  if PyStr.contains "cu." port then
    let tty_port := PyStr.replace "cu." "tty." port in
    (all_ports_to_try ++ [port; tty_port])%list
  else if PyStr.contains "tty." port then
    let cu_port := PyStr.replace "tty." "cu." port in
    (all_ports_to_try ++ [port; cu_port])%list
  else (all_ports_to_try ++ [port])%list.

(** [list(dict.fromkeys(l))]: a dict keeps its keys in insertion order and
    setting a key it has leaves the key where it is. *)
Definition dict_set_key (keys : list string) (k : string) : list string :=
  if existsb (String.eqb k) keys then keys else (keys ++ [k])%list.

Definition dict_fromkeys (l : list string) : list string :=
  fold_left dict_set_key l [].

Definition find_available_arduino_port : M (list string) :=
  print MsgScanning ;;
  emit Comports ;;
  ports <- ask comports ;;
  arduino_ports <- collect_arduino_ports ports [] ;;
  let all_ports_to_try := fold_left extend_ports arduino_ports [] in
  ret (dict_fromkeys all_ports_to_try).

Definition resource_busy (x : exn) : bool :=
  PyStr.contains "Resource busy" (exn_text x).

(** [serial.Serial(p, self.baudrate, timeout=1)] *)
Definition open_serial (p : option string) : M serial :=
  r <- ask (fun e n => serial_open e n p) ;;
  emit (SerialOpen p r) ;;
  match r with
  | Some x => raise x
  | None => ret (Serial p true)
  end.

(** [ser.close()] on an object that is not [self.ser] *)
Definition close_serial : M unit :=
  r <- ask serial_close ;;
  emit (SerialClose r) ;;
  match r with
  | Some x => raise x
  | None => ret tt
  end.

Definition test_port (p : string) : M bool :=
  try_except
    (print (MsgTesting p) ;;
     _ <- open_serial (Some p) ;;
     close_serial ;;
     ret true)
    (fun x =>
       match exn_cls x with
       | SerialException =>
           (if resource_busy x then print (MsgPortBusy p)
            else print (MsgPortFailed p x)) ;;
           ret false
       | _ => print (MsgPortError p x) ;; ret false
       end).

(** ** Connection manager *)

Definition max_retries : Z := 3.
Definition retry_delay : Z := 2.

(** How one round of a loop body ends. *)
Inductive loop_ctl :=
| Continue
| Return (b : bool).

(** [self.ser.in_waiting] *)
Definition ser_in_waiting : M Z :=
  r <- ask in_waiting ;;
  match r with
  | inl x => raise x
  | inr n => ret n
  end.

(** [self.ser.reset_input_buffer()] *)
Definition ser_reset_input_buffer : M unit :=
  r <- ask reset_input_buffer ;;
  match r with
  | Some x => raise x
  | None => emit ResetInputBuffer
  end.

(** The body of [connect]'s [for attempt in range(max_retries)]. *)
Definition connect_attempt (attempt : Z) : M loop_ctl :=
  try_except
    (w <- get ;;
     early <-
       (if negb (truthy (port w)) then
          available_ports <- find_available_arduino_port ;;
          match available_ports with
          | [] => print MsgNoPortsFound ;; ret (Some (Return false))
          | _ =>
              print (MsgAttempt (attempt + 1) max_retries) ;;
              working_ports <- filter_m test_port available_ports ;;
              match working_ports with
              | [] =>
                  print MsgNoWorkingPorts ;;
                  when (attempt <? max_retries - 1)
                    (print (MsgRetrying retry_delay) ;;
                     sleep (seconds retry_delay)) ;;
                  ret (Some Continue)
              | first :: _ =>
                  modify (with_port (Some first)) ;;
                  print (MsgSelected first) ;;
                  ret None
              end
          end
        else ret None) ;;
     match early with
     | Some ctl => ret ctl
     | None =>
         w1 <- get ;;
         print (MsgConnecting (port w1)) ;;
         s <- open_serial (port w1) ;;
         modify (with_ser (Some s)) ;;
         print (MsgConnected (port w1)) ;;
         sleep (seconds 2) ;;
         n <- ser_in_waiting ;;
         when (negb (n =? 0)) ser_reset_input_buffer ;;
         initialize_csv ;;
         modify (with_connection_lost false) ;;
         ret (Return true)
     end)
    (fun x =>
       match exn_cls x with
       | SerialException =>
           if resource_busy x then
             w <- get ;;
             print (MsgBusyAttempt (port w) (attempt + 1) max_retries) ;;
             when (attempt <? max_retries - 1)
               (print MsgTip ;;
                print (MsgRetrying retry_delay) ;;
                sleep (seconds retry_delay)) ;;
             modify (with_port None) ;;
             ret Continue
           else
             print (MsgConnectionFailed x) ;; ret (Return false)
       | _ => print (MsgUnexpected x) ;; ret (Return false)
       end).

Fixpoint connect_loop (attempts : list Z) : M bool :=
  match attempts with
  | [] => ret false
  | attempt :: rest =>
      ctl <- connect_attempt attempt ;;
      match ctl with
      | Return b => ret b
      | Continue => connect_loop rest
      end
  end.

Definition connect : M bool := connect_loop (range max_retries).

Definition check_connection : M bool :=
  w <- get ;;
  match ser w with
  | Some s =>
      if is_open s then
        try_except
          (_ <- ser_in_waiting ;; ret true)
          (fun x =>
             if is_os_error (exn_cls x) then
               modify (with_connection_lost true) ;; ret false
             else raise x)
      else ret false
  | None => ret false
  end.

Definition disconnect : M unit :=
  modify (with_running false) ;;
  w <- get ;;
  match ser w with
  | Some s =>
      if is_open s then
        try_except
          (r <- ask serial_close ;;
           emit (SerialClose r) ;;
           match r with
           | Some x => raise x
           | None =>
               modify (with_ser (Some (Serial (ser_port s) false))) ;;
               print MsgDisconnected
           end)
          (fun _ => ret tt)
      else ret tt
  | None => ret tt
  end.

Definition reconnect : M bool :=
  print MsgConnectionLostReconnecting ;;
  disconnect ;;
  sleep (seconds 2) ;;
  connect.

(** ** The supervised read loop: [serial_worker] in [monitor_serial] *)

Definition max_reconnect_attempts : Z := 5.

Definition mentions_disconnect (x : exn) : bool :=
  PyStr.contains "Device not configured" (exn_text x)
  || PyStr.contains "disconnected" (PyStr.lower (exn_text x)).

(** [self.ser.readline().decode('utf-8')] *)
Definition ser_readline_decode : M string :=
  r <- ask readline_decode ;;
  match r with
  | ReadRaises x => raise x
  | ReadText s => ret s
  end.

(** One round of [while self.running]. The [try] block answers whether it
    left through [continue], which skips the closing [time.sleep(0.1)]. *)
Definition worker_iteration : M unit :=
  continued <-
    try_except
      (ok <- check_connection ;;
       if negb ok then
         w <- get ;;
         when (negb (connection_lost w))
           (print MsgLost ;; modify (with_connection_lost true)) ;;
         w1 <- get ;;
         (if reconnect_attempts w1 <? max_reconnect_attempts then
            print (MsgReconnectAttempt (reconnect_attempts w1 + 1)
                     max_reconnect_attempts) ;;
            reconnected <- reconnect ;;
            if reconnected then
              print MsgReconnected ;;
              modify (with_reconnect_attempts 0) ;;
              modify (with_connection_lost false) ;;
              ret true
            else
              modify (fun w2 =>
                with_reconnect_attempts (reconnect_attempts w2 + 1) w2) ;;
              sleep (seconds 2) ;;
              ret true
          else
            print MsgMaxReconnect ;;
            sleep (seconds 5) ;;
            ret true)
       else
         modify (with_reconnect_attempts 0) ;;
         n <- ser_in_waiting ;;
         (if negb (n =? 0) then
            raw <- ser_readline_decode ;;
            let line := PyStr.strip raw in
            match line with
            | EmptyString => ret tt
            | _ => print (MsgLine line) ;; parse_data line
            end
          else ret tt) ;;
         ret false)
      (fun x =>
         match exn_cls x with
         | UnicodeDecodeError => print MsgCouldNotDecode
         | _ =>
             if mentions_disconnect x then
               modify (with_connection_lost true) ;;
               print MsgArduinoDisconnected
             else print (MsgSerialReadError x)
         end ;;
         ret false) ;;
  when (negb continued) (sleep 1).

(** How a run of the loop ends within a given number of rounds. *)
Inductive loop_end :=
| Exited        (* [self.running] was found false: the thread is over *)
| StillRunning. (* the rounds are used up and the loop goes on *)

Fixpoint worker_loop (rounds : nat) : M loop_end :=
  match rounds with
  | O => ret StillRunning
  | S k =>
      w <- get ;;
      if running w then worker_iteration ;; worker_loop k
      else ret Exited
  end.

(** [serial_worker] as [monitor_serial] starts it: [self.running = True],
    then the thread's [reconnect_attempts = 0] and its loop. *)
Definition serial_worker (rounds : nat) : M loop_end :=
  modify (with_running true) ;;
  modify (with_reconnect_attempts 0) ;;
  worker_loop rounds.

(** ** Running the assembler over a stream of lines *)

Fixpoint handle_lines (lines : list string) : M unit :=
  match lines with
  | [] => ret tt
  | line :: rest => parse_data line ;; handle_lines rest
  end.

(** [HealthMonitor.__init__], with nothing in the trace yet. *)
Definition init_world (p : option string) (file : option (list (list string)))
  : world :=
  World p None false 0 None None false true file 0 [] 0.

(** ** What a line says, as [parse_data] reads it

    The three readings below are the tests and extractions of [parse_data],
    collected so that statements can name them. *)

(** The patient number of a [DETECT] line with a well-formed [Queue=]
    sub-field. *)
Definition detected_patient (line : string) : option Z :=
  if negb (PyStr.contains ":" line) then None
  else
    match PyStr.split1 ":" line with
    | [data_type; data_value] =>
        if String.eqb data_type "DETECT"
           && PyStr.contains "Queue=" data_value
        then
          match nth_error (PyStr.split "Queue=" data_value) 1 with
          | Some after =>
              match nth_error (PyStr.split "," after) 0 with
              | Some queue_part => PyStr.int (PyStr.strip queue_part)
              | None => None
              end
          | None => None
          end
        else None
    | _ => None
    end.

(** The text [s] holds no character [q]. *)
Definition lacks (q : ascii) (s : string) : bool :=
  forallb (fun c => negb (Ascii.eqb c q)) (list_ascii_of_string s).


(** The text [int] is applied to on a [HEARTBEAT] or [BPM] line: the value
    with every [marker] removed when it has one, stripped. *)
Definition extracted (marker data_value : string) : string :=
  if PyStr.contains marker data_value
  then PyStr.strip (PyStr.replace marker "" data_value)
  else PyStr.strip data_value.

(** The key and the extracted text of a line with key [HEARTBEAT] or [BPM]. *)
Definition reading_line (key marker line : string) : option string :=
  if negb (PyStr.contains ":" line) then None
  else
    match PyStr.split1 ":" line with
    | [data_type; data_value] =>
        if String.eqb data_type key
        then Some (extracted marker data_value) else None
    | _ => None
    end.

Definition heartbeat_text : string -> option string :=
  reading_line "HEARTBEAT" "Reading=".
Definition bpm_text : string -> option string :=
  reading_line "BPM" "Value=".

(** The integer a [BPM] line carries, when it carries one. *)
Definition bpm_value (line : string) : option Z :=
  match bpm_text line with
  | Some t => PyStr.int t
  | None => None
  end.

(** The number of rows the program has appended to the store so far. *)
Fixpoint flushes (t : list event) : nat :=
  match t with
  | [] => O
  | CsvAppend _ :: r => S (flushes r)
  | _ :: r => flushes r
  end.

(** A record was flushed between two traces. *)
Definition flushed (before after : list event) : Prop :=
  flushes after = S (flushes before).

(** No character of the string is white space. *)
Fixpoint no_space (s : string) : bool :=
  match s with
  | EmptyString => true
  | String c s' => negb (PyStr.is_space c) && no_space s'
  end.

(** The characters [str(n)] is made of: digits and the sign. *)
Definition plain_char (c : ascii) : bool :=
  match PyStr.digit_of c with
  | Some _ => true
  | None => Ascii.eqb c "-"
  end.

(** The number of events of a trace that satisfy [p]. *)
Fixpoint count_events (p : event -> bool) (t : list event) : nat :=
  match t with
  | [] => O
  | ev :: r => if p ev then S (count_events p r) else count_events p r
  end.

Definition is_scan (ev : event) : bool :=
  match ev with Comports => true | _ => false end.

Definition is_connecting (ev : event) : bool :=
  match ev with Print (MsgConnecting _) => true | _ => false end.

(** The scans of the serial ports, and the attempts to open the connection,
    that a trace records. *)
Definition scans (t : list event) : nat := count_events is_scan t.
Definition connection_attempts (t : list event) : nat :=
  count_events is_connecting t.

(** The pauses a trace records, in order, in tenths of a second. *)
Fixpoint sleeps (t : list event) : list Z :=
  match t with
  | [] => []
  | Sleep d :: r => d :: sleeps r
  | _ :: r => sleeps r
  end.

(** The counter after a detection of patient [n]. *)
Definition next_patient (counter n : Z) : Z :=
  if n <=? counter then counter + 1 else n.

(** A computation preserves an observation [f] of the world when running it
    never changes [f]. *)
Definition preserves {X A} (f : world -> X) (m : M A) : Prop :=
  forall e w, f (exec m e w) = f w.

(** A computation returns when no exception leaves it, whatever the
    surroundings answer. *)
Definition returns {A} (m : M A) : Prop :=
  forall e w, exists a, outcome m e w = Val a.

(** What [send_to_thingspeak] answers and prints after a reply of the sink. *)
Definition sink_reply (r : http_outcome) : bool * list event :=
  match r with
  | HttpRaises x =>
      (false,
       [Print (match exn_cls x with
               | RequestException => MsgThingSpeakConnectionError x
               | _ => MsgThingSpeakError x
               end)])
  | HttpResponse status_code entry_id =>
      if status_code =? 200 then
        if negb (String.eqb entry_id "0")
        then (true, [Print (MsgSent entry_id); Print MsgViewAt])
        else (false, [Print MsgUpdateFailed])
      else (false, [Print (MsgHttpError status_code)])
  end.

(** The rows of the store file, none when there is no file. *)
Definition file_rows (w : world) : list (list string) :=
  match csv_file w with
  | Some rows => rows
  | None => []
  end.

(** The world after a write in mode ['a'] that raised: the mode has created
    a missing file when the failure came after the opening. *)
Definition after_failed_append (opened : bool) (w : world) : world :=
  if opened then with_csv_file (Some (file_rows w)) w else w.




(** ** The device locator, in the words of its contract *)

(** The device names of a scan that match the USB-serial patterns. *)
Definition matching (ports : list (string * string)) : list string :=
  map fst (filter (fun p => is_arduino (fst p)) ports).

(** The sibling of a name under the other naming convention, for a name
    that carries a marker. *)
Definition sibling (port : string) : option string :=
  if PyStr.contains "cu." port then Some (PyStr.replace "cu." "tty." port)
  else if PyStr.contains "tty." port
       then Some (PyStr.replace "tty." "cu." port)
       else None.

(** A name, followed by its sibling when it has one. *)
Definition with_sibling (port : string) : list string :=
  match sibling port with
  | Some other => [port; other]
  | None => [port]
  end.

(** Removing duplicates in order: every name is kept where it occurs
    first. *)
Fixpoint keep_first (seen l : list string) : list string :=
  match l with
  | [] => []
  | x :: r =>
      if existsb (String.eqb x) seen then keep_first seen r
      else x :: keep_first (x :: seen) r
  end.

(** What [find_available_arduino_port] answers for the matching names. *)
Definition candidates (names : list string) : list string :=
  dict_fromkeys (fold_left extend_ports names []).

(** A computation adds at most [k] to a count [f] of the world, and never
    lowers it. *)
Definition adds_at_most {A} (f : world -> nat) (k : nat) (m : M A) : Prop :=
  forall e w, (f w <= f (exec m e w) <= f w + k)%nat.

(** The last event of a trace is the pause between two attempts. *)
Definition ends_with_retry_delay (t : list event) : Prop :=
  exists before, t = before ++ [Sleep (seconds retry_delay)].

(** ** The parts of [connect_attempt], named

    The discovery under [if not self.port], the statements from
    [serial.Serial(self.port, ...)] to [return True], and the two [except]
    clauses, each as it stands in [connect_attempt]. *)

Definition discover_phase (attempt : Z) : M (option loop_ctl) :=
  available_ports <- find_available_arduino_port ;;
  match available_ports with
  | [] => print MsgNoPortsFound ;; ret (Some (Return false))
  | _ =>
      print (MsgAttempt (attempt + 1) max_retries) ;;
      working_ports <- filter_m test_port available_ports ;;
      match working_ports with
      | [] =>
          print MsgNoWorkingPorts ;;
          when (attempt <? max_retries - 1)
            (print (MsgRetrying retry_delay) ;;
             sleep (seconds retry_delay)) ;;
          ret (Some Continue)
      | first :: _ =>
          modify (with_port (Some first)) ;;
          print (MsgSelected first) ;;
          ret None
      end
  end.

Definition open_phase : M loop_ctl :=
  w1 <- get ;;
  print (MsgConnecting (port w1)) ;;
  s <- open_serial (port w1) ;;
  modify (with_ser (Some s)) ;;
  print (MsgConnected (port w1)) ;;
  sleep (seconds 2) ;;
  n <- ser_in_waiting ;;
  when (negb (n =? 0)) ser_reset_input_buffer ;;
  initialize_csv ;;
  modify (with_connection_lost false) ;;
  ret (Return true).

Definition connect_handler (attempt : Z) (x : exn) : M loop_ctl :=
  match exn_cls x with
  | SerialException =>
      if resource_busy x then
        w <- get ;;
        print (MsgBusyAttempt (port w) (attempt + 1) max_retries) ;;
        when (attempt <? max_retries - 1)
          (print MsgTip ;;
           print (MsgRetrying retry_delay) ;;
           sleep (seconds retry_delay)) ;;
        modify (with_port None) ;;
        ret Continue
      else
        print (MsgConnectionFailed x) ;; ret (Return false)
  | _ => print (MsgUnexpected x) ;; ret (Return false)
  end.

(** Every value a computation returns satisfies [P]. *)
Definition answers {A} (P : A -> Prop) (m : M A) : Prop :=
  forall e w a, outcome m e w = Val a -> P a.

(** Surroundings in which every port of the machine is held by another
    program: every attempt to open one raises "Resource busy". *)
Definition all_busy (e : env) : Prop :=
  forall n p,
    exists x,
      serial_open e n p = Some x /\
      exn_cls x = SerialException /\ resource_busy x = true.

(** ** Surroundings and worlds for the examples *)

Definition busy_error : exn :=
  Exn SerialException "[Errno 16] could not open port: Resource busy".

Definition disk_full : exn := Exn OSError "[Errno 28] No space left on device".

(** Surroundings in which every call succeeds, no device is plugged in and
    the sink accepts every upload. *)
Definition quiet_env : env :=
  Env (fun _ => "2025-01-01 12:00:00") (fun _ => []) (fun _ _ => None)
    (fun _ => None) (fun _ => inr 0) (fun _ => None) (fun _ => ReadText "")
    (fun _ => None) (fun _ => None) (fun _ => false)
    (fun _ _ _ _ _ => HttpResponse 200 "1").

(** A monitor just started on an existing, header-only log, with the patient
    counter at [n]. *)
Definition world_at (n : Z) : world :=
  with_current_patient_number n (init_world None (Some [csv_header])).

Definition disk_full_env : env :=
  Env (now quiet_env) (comports quiet_env) (serial_open quiet_env)
    (serial_close quiet_env) (in_waiting quiet_env)
    (reset_input_buffer quiet_env) (readline_decode quiet_env)
    (csv_read quiet_env) (fun _ => Some disk_full) (fun _ => true)
    (requests_get quiet_env).

(** The sink answers every request with status 200 and body ["0"]. *)
Definition sink_rejects_env : env :=
  Env (now quiet_env) (comports quiet_env) (serial_open quiet_env)
    (serial_close quiet_env) (in_waiting quiet_env)
    (reset_input_buffer quiet_env) (readline_decode quiet_env)
    (csv_read quiet_env) (csv_write quiet_env)
    (csv_opened quiet_env)
    (fun _ _ _ _ _ => HttpResponse 200 "0").

(** The device is unplugged when the loop first checks the connection and
    is back, and free, when the monitor reconnects. *)
Definition unplugged_once_env : env :=
  Env (now quiet_env) (comports quiet_env) (serial_open quiet_env)
    (serial_close quiet_env)
    (fun n => match n with
              | O => inl (Exn OSError "[Errno 6] Device not configured")
              | S _ => inr 0
              end)
    (reset_input_buffer quiet_env) (readline_decode quiet_env)
    (csv_read quiet_env) (csv_write quiet_env) (csv_opened quiet_env)
    (requests_get quiet_env).

(** A monitor connected on a pinned port, as [monitor_serial] finds it. *)
Definition connected_world : world :=
  with_ser (Some (Serial (Some "/dev/cu.usbmodem1") true))
    (init_world (Some "/dev/cu.usbmodem1") (Some [csv_header])).

(** One Arduino is plugged in, and its port is busy. *)
Definition busy_env : env :=
  Env (now quiet_env) (fun _ => [("/dev/ttyUSBmodem0", "Arduino Uno")])
    (fun _ _ => Some busy_error) (serial_close quiet_env)
    (in_waiting quiet_env) (reset_input_buffer quiet_env)
    (readline_decode quiet_env) (csv_read quiet_env) (csv_write quiet_env)
    (csv_opened quiet_env)
    (requests_get quiet_env).

(** ** Words for the further properties *)

(** The sink took the upload: status 200 and a body other than ["0"]. *)
Definition accepted (r : http_outcome) : bool :=
  match r with
  | HttpResponse status_code entry_id =>
      (status_code =? 200) && negb (String.eqb entry_id "0")
  | HttpRaises _ => false
  end.

(** Everything of the monitor and its file, the two bookkeeping fields
    apart. *)
Definition monitor_state (w : world) :=
  (port w, ser w, running w, current_patient_number w, last_bpm w,
   last_heartbeat w, connection_lost w, thingspeak_enabled w, csv_file w,
   reconnect_attempts w).

(** The keys [parse_data] knows. *)
Definition known_key (data_type : string) : bool :=
  String.eqb data_type "DETECT" || String.eqb data_type "HEARTBEAT"
  || String.eqb data_type "BPM".

(** The input buffer was discarded. *)
Definition is_reset (ev : event) : bool :=
  match ev with ResetInputBuffer => true | _ => false end.

Definition buffer_resets (t : list event) : nat := count_events is_reset t.

(** A serial port was closed, or the attempt to close it failed. *)
Definition is_close (ev : event) : bool :=
  match ev with SerialClose _ => true | _ => false end.

Definition closes (t : list event) : nat := count_events is_close t.

(** The world of [connect] once the pinned port is open and the waiting
    bytes, [k] of them, are dealt with. *)
Definition opened (k : Z) (w : world) : world :=
  let t := trace w ++ [Print (MsgConnecting (port w)); SerialOpen (port w) None;
                       Print (MsgConnected (port w)); Sleep (seconds 2)] in
  with_ser (Some (Serial (port w) true))
    (if k =? 0 then with_trace t (with_tick (S (S (tick w))) w)
     else with_trace (t ++ [ResetInputBuffer])
            (with_tick (S (S (S (tick w)))) w)).

(** The worker announced the longer back-off, or a reconnect. *)
Definition is_backoff (ev : event) : bool :=
  match ev with Print MsgMaxReconnect => true | _ => false end.

Definition is_reconnect (ev : event) : bool :=
  match ev with Print MsgConnectionLostReconnecting => true | _ => false end.

Definition backoffs (t : list event) : nat := count_events is_backoff t.
Definition reconnects (t : list event) : nat := count_events is_reconnect t.

(** ** The operator's console: [send_command], [monitor_serial] and
    [start_interactive]

    The main thread talks to the operator. Its computations run over the
    monitor and a console: what the keyboard and the serial writes answer
    comes from an [operator], indexed by the number of questions asked of
    it; everything the main thread prints, writes and reads, and every
    event of the monitor's methods it calls, is appended to the console in
    program order. The rounds of the worker thread are [serial_worker];
    they are not interleaved with the main thread here, whose start of the
    thread is the event [ThreadStart]. [KeyboardInterrupt] is taken where
    [input()] waits. *)

Inductive said :=
| SaidSent (command : string)
| SaidSendFailed (x : exn)
| SaidStarted
| SaidRecording
| SaidCsvFile
| SaidThingSpeakOn
| SaidViewLive
| SaidAutoReconnect
| SaidTroubleshooting
| SaidCheckUsb
| SaidCloseSerialMonitor
| SaidCloseTerminals
| SaidReplug
| SaidInteractive
| SaidHelpReset
| SaidHelpQuit
| SaidHelpReconnect
| SaidHelpStatus
| SaidHelpThingSpeak
| SaidHelpNote
| SaidExiting
| SaidCounterReset
| SaidManualOk
| SaidManualFailed
| SaidConnected
| SaidDisconnected
| SaidThingSpeak (enabled : bool)
| SaidUpload (enabled : bool)
| SaidCommands
| SaidUnknown
| SaidStopped.

(** What [input()] does: a line, [EOFError] or [KeyboardInterrupt]. *)
Inductive input_outcome :=
| InputLine (line : string)
| InputEOF
| InputInterrupt.

Inductive console_event :=
| Monitor (ev : event)
| Say (m : said)
| SerialWrite (data : string) (r : option exn)
| Input (r : input_outcome)
| ThreadStart.

Record operator := Operator {
  keyboard : nat -> input_outcome;
  serial_write : nat -> string -> option exn
}.

Record session := Session {
  monitor : world;
  console : list console_event;
  asked : nat
}.

Definition C (A : Type) : Type :=
  env -> operator -> session -> result A * session.

Definition cret {A} (a : A) : C A := fun _ _ s => (Val a, s).

Definition cbind {A B} (m : C A) (k : A -> C B) : C B :=
  fun e o s =>
    match m e o s with
    | (Val a, s') => k a e o s'
    | (Raise x, s') => (Raise x, s')
    end.

Declare Scope console_scope.
Delimit Scope console_scope with console.
Notation "x <- m ;; k" := (cbind m (fun x => k))
  (at level 61, m at next level, right associativity) : console_scope.
Notation "m ;; k" := (cbind m (fun _ => k))
  (at level 61, right associativity) : console_scope.
Open Scope console_scope.

Definition craise {A} (x : exn) : C A := fun _ _ s => (Raise x, s).

Definition ctry_except {A} (m : C A) (h : exn -> C A) : C A :=
  fun e o s =>
    match m e o s with
    | (Val a, s') => (Val a, s')
    | (Raise x, s') => h x e o s'
    end.

Definition cget : C session := fun _ _ s => (Val s, s).

Definition note (ev : console_event) : C unit :=
  fun _ _ s => (Val tt, Session (monitor s) (console s ++ [ev]) (asked s)).

Definition say (m : said) : C unit := note (Say m).

(** One question to the operator's side. *)
Definition cask {A} (q : operator -> nat -> A) : C A :=
  fun _ o s =>
    (Val (q o (asked s)), Session (monitor s) (console s) (S (asked s))).

(** A method of the monitor, called from the main thread: the events it
    adds to the monitor's trace appear on the console. *)
Definition lift {A} (m : M A) : C A :=
  fun e _ s =>
    match m e (monitor s) with
    | (r, w') =>
        (r,
         Session w'
           (console s ++
            map Monitor (skipn (List.length (trace (monitor s))) (trace w')))
           (asked s))
    end.

(** [self.thingspeak_enabled = b] *)
Definition with_thingspeak_enabled (b : bool) (w : world) : world :=
  World (port w) (ser w) (running w) (current_patient_number w) (last_bpm w)
    (last_heartbeat w) (connection_lost w) b (csv_file w)
    (reconnect_attempts w) (trace w) (tick w).

Definition send_command (command : string) : C unit :=
  s <- cget ;;
  match ser (monitor s) with
  | Some p =>
      if is_open p then
        ctry_except
          (r <- cask (fun o n => serial_write o n command) ;;
           note (SerialWrite command r) ;;
           match r with
           | Some x => craise x
           | None => say (SaidSent command)
           end)
          (fun x =>
             say (SaidSendFailed x) ;;
             lift (modify (with_connection_lost true)))
      else cret tt
  | None => cret tt
  end.

(** The main thread's part of [monitor_serial]. *)
Definition monitor_serial : C unit :=
  lift (modify (with_running true)) ;;
  note ThreadStart ;;
  say SaidStarted ;;
  say SaidRecording ;;
  say SaidCsvFile ;;
  s <- cget ;;
  (if thingspeak_enabled (monitor s)
   then say SaidThingSpeakOn ;; say SaidViewLive
   else cret tt) ;;
  say SaidAutoReconnect.

(** [s.upper()]. The capitals of [µ] and [ÿ] lie beyond code point 255:
    for a string that holds one of them the answer is [None], a string that
    equals no string of the model. *)
Definition upper_char (c : ascii) : option string :=
  let n := nat_of_ascii c in
  if ((97 <=? n) && (n <=? 122)
      || (224 <=? n) && (n <=? 254) && negb (n =? 247))%nat
  then Some (String (ascii_of_nat (n - 32)) EmptyString)
  else if (n =? 223)%nat then Some "SS"
  else if ((n =? 181) || (n =? 255))%nat then None
  else Some (String c EmptyString).

Fixpoint upper (s : string) : option string :=
  match s with
  | EmptyString => Some EmptyString
  | String c s' =>
      match upper_char c, upper s' with
      | Some a, Some b => Some (a ++ b)%string
      | _, _ => None
      end
  end.

(** [cmd == name] *)
Definition is_command (cmd : option string) (name : string) : bool :=
  match cmd with
  | Some c => String.eqb c name
  | None => false
  end.

(** How the handling of one command ends: [break], or the next round. *)
Inductive loop_step :=
| Break
| Next.

(** The [if]/[elif] chain on [cmd] in [start_interactive]. *)
Definition dispatch (cmd : option string) : C loop_step :=
  if is_command cmd "Q" then
    say SaidExiting ;; cret Break
  else if is_command cmd "R" then
    lift (modify (with_current_patient_number 0)) ;;
    send_command "R" ;;
    say SaidCounterReset ;;
    cret Next
  else if is_command cmd "RECONNECT" then
    reconnected <- lift reconnect ;;
    (if reconnected then say SaidManualOk else say SaidManualFailed) ;;
    cret Next
  else if is_command cmd "STATUS" then
    connected <- lift check_connection ;;
    (if connected then say SaidConnected else say SaidDisconnected) ;;
    s <- cget ;;
    say (SaidThingSpeak (thingspeak_enabled (monitor s))) ;;
    cret Next
  else if is_command cmd "THINGSPEAK" then
    lift (modify (fun w =>
      with_thingspeak_enabled (negb (thingspeak_enabled w)) w)) ;;
    s <- cget ;;
    say (SaidUpload (thingspeak_enabled (monitor s))) ;;
    cret Next
  else if is_command cmd "HELP" then
    say SaidCommands ;; cret Next
  else
    say SaidUnknown ;; cret Next.

(** How the interactive loop stands after a given number of rounds. *)
Inductive session_end :=
| Over      (* the loop was left *)
| Waiting.  (* the rounds are used up and the loop goes on *)

(** [while self.running:] with its inner [try]. *)
Fixpoint interactive_loop (rounds : nat) : C session_end :=
  match rounds with
  | O => cret Waiting
  | S k =>
      s <- cget ;;
      if running (monitor s) then
        r <- cask keyboard ;;
        note (Input r) ;;
        match r with
        | InputEOF => cret Over
        | InputInterrupt => say SaidStopped ;; cret Over
        | InputLine line =>
            step <- dispatch (upper (PyStr.strip line)) ;;
            match step with
            | Break => cret Over
            | Next => interactive_loop k
            end
        end
      else cret Over
  end.

(** [try: m  finally: self.disconnect()], for a loop that may still be
    going on when its rounds are used up. *)
Definition finally_disconnect (m : C session_end) : C session_end :=
  fun e o s =>
    match m e o s with
    | (Val Waiting, s') => (Val Waiting, s')
    | (Val Over, s') => (lift disconnect ;; cret Over) e o s'
    | (Raise x, s') => (lift disconnect ;; craise x) e o s'
    end.

Definition start_interactive (rounds : nat) : C session_end :=
  connected <- lift connect ;;
  if negb connected then
    say SaidTroubleshooting ;;
    say SaidCheckUsb ;;
    say SaidCloseSerialMonitor ;;
    say SaidCloseTerminals ;;
    say SaidReplug ;;
    cret Over
  else
    monitor_serial ;;
    say SaidInteractive ;;
    say SaidHelpReset ;;
    say SaidHelpQuit ;;
    say SaidHelpReconnect ;;
    say SaidHelpStatus ;;
    say SaidHelpThingSpeak ;;
    say SaidHelpNote ;;
    finally_disconnect (interactive_loop rounds).

Close Scope console_scope.

(** The serial writes a console records, in order. *)
Fixpoint writes (l : list console_event) : list string :=
  match l with
  | [] => []
  | SerialWrite data _ :: r => data :: writes r
  | _ :: r => writes r
  end.

(** The lines the main thread asked the keyboard for. *)
Fixpoint inputs (l : list console_event) : nat :=
  match l with
  | [] => O
  | Input _ :: r => S (inputs r)
  | _ :: r => inputs r
  end.

(** The monitor has a connection and it is open. *)
Definition connected (w : world) : bool :=
  match ser w with
  | Some p => is_open p
  | None => false
  end.

(** * Proofs *)

(** Methods are unfolded by name, never by simplification. *)
Arguments send_to_thingspeak : simpl never.
Arguments initialize_csv : simpl never.
Arguments save_patient_data : simpl never.
Arguments parse_data : simpl never.
Arguments find_available_arduino_port : simpl never.
Arguments test_port : simpl never.
Arguments connect_attempt : simpl never.
Arguments connect : simpl never.
Arguments check_connection : simpl never.
Arguments disconnect : simpl never.
Arguments reconnect : simpl never.
Arguments worker_iteration : simpl never.

(** ** The laws of the monad that the proofs compute with *)

Lemma bind_ret A B (a : A) (k : A -> M B) : bind (ret a) k = k a.
Proof. reflexivity. Qed.

Lemma bind_raise A B (x : exn) (k : A -> M B) : bind (raise x) k = raise x.
Proof. reflexivity. Qed.

Lemma try_except_ret A (a : A) (h : exn -> M A) : try_except (ret a) h = ret a.
Proof. reflexivity. Qed.

Lemma try_except_raise A (x : exn) (h : exn -> M A) :
  try_except (raise x) h = h x.
Proof. reflexivity. Qed.

Lemma bind_assoc A B C (m : M A) (k : A -> M B) (k' : B -> M C) :
  forall e w, bind (bind m k) k' e w = bind m (fun a => bind (k a) k') e w.
Proof.
  intros e w. unfold bind. destruct (m e w) as [[a | x] w']; reflexivity.
Qed.

(** ** Framing: what a computation leaves alone *)

Section Framing.
Context {X : Type} (f : world -> X).

Lemma preserves_ret A (a : A) : preserves f (ret a).
Proof. intros e w. reflexivity. Qed.

Lemma preserves_raise A (x : exn) : preserves f (@raise A x).
Proof. intros e w. reflexivity. Qed.

Lemma preserves_get : preserves f get.
Proof. intros e w. reflexivity. Qed.

Lemma preserves_bind A B (m : M A) (k : A -> M B) :
  preserves f m -> (forall a, preserves f (k a)) -> preserves f (bind m k).
Proof.
  intros Hm Hk e w. specialize (Hm e w). unfold exec, bind in *.
  destruct (m e w) as [[a | x] w']; simpl in *.
  - rewrite <- Hm. apply (Hk a e w').
  - exact Hm.
Qed.

Lemma preserves_try_except A (m : M A) (h : exn -> M A) :
  preserves f m -> (forall x, preserves f (h x)) ->
  preserves f (try_except m h).
Proof.
  intros Hm Hh e w. specialize (Hm e w). unfold exec, try_except in *.
  destruct (m e w) as [[a | x] w']; simpl in *.
  - exact Hm.
  - rewrite <- Hm. apply (Hh x e w').
Qed.

Lemma preserves_modify (g : world -> world) :
  (forall w, f (g w) = f w) -> preserves f (modify g).
Proof. intros H e w. apply H. Qed.

Lemma preserves_ask A (q : env -> nat -> A) :
  (forall n w, f (with_tick n w) = f w) -> preserves f (ask q).
Proof. intros H e w. apply H. Qed.

Lemma preserves_emit (ev : event) :
  (forall w, f (with_trace (trace w ++ [ev]) w) = f w) ->
  preserves f (emit ev).
Proof. intros H e w. apply H. Qed.
End Framing.

Lemma flushes_app t u : flushes (t ++ u) = (flushes t + flushes u)%nat.
Proof.
  induction t as [ | ev t IH ]; [ reflexivity | ].
  destruct ev; cbn; rewrite IH; reflexivity.
Qed.

Lemma count_events_app p t u :
  count_events p (t ++ u) = (count_events p t + count_events p u)%nat.
Proof.
  induction t as [ | ev t IH ]; [ reflexivity | ].
  cbn. rewrite IH. destruct (p ev); reflexivity.
Qed.

Lemma sleeps_app t u : sleeps (t ++ u) = sleeps t ++ sleeps u.
Proof.
  induction t as [ | ev t IH ]; [ reflexivity | ].
  destruct ev; cbn; rewrite IH; reflexivity.
Qed.

(** The side condition of a framing step: the observation does not look at
    what was changed; for an observation of the trace, the event is not one
    it counts. *)
Ltac frame_side :=
  intros;
  first [ reflexivity
        | cbn; rewrite flushes_app; cbn; apply Nat.add_0_r
        | cbn; unfold scans, connection_attempts;
          rewrite count_events_app; cbn; apply Nat.add_0_r
        | cbn; rewrite sleeps_app; cbn; apply app_nil_r ].

(** One step of a framing proof: through the monad's combinators, by cases
    on every test, into the methods that do not loop, and by the lemmas of
    the [frame] database for those that do. *)
Create HintDb frame.

Ltac frame_step :=
  lazymatch goal with
  | |- preserves _ (bind (ret _) _) => rewrite bind_ret; cbv beta
  | |- preserves _ (bind (raise _) _) => rewrite bind_raise
  | |- preserves _ (bind _ _) => apply preserves_bind; [ | intro ]
  | |- preserves _ (try_except _ _) =>
      apply preserves_try_except; [ | intro ]
  | |- preserves _ (ret _) => apply preserves_ret
  | |- preserves _ (raise _) => apply preserves_raise
  | |- preserves _ get => apply preserves_get
  | |- preserves _ (modify _) => apply preserves_modify; frame_side
  | |- preserves _ (ask _) => apply preserves_ask; frame_side
  | |- preserves _ (emit _) => apply preserves_emit; frame_side
  | |- preserves _ (print _) => apply preserves_emit; frame_side
  | |- preserves _ (sleep _) => apply preserves_emit; frame_side
  | |- preserves _ (when ?b _) => destruct b; cbn [when]
  | |- preserves _ (if ?b then _ else _) => destruct b
  | |- preserves _ (match ?x with _ => _ end) => destruct x
  | |- preserves _ (int_of _) => unfold int_of
  | |- preserves _ (item _ _) => unfold item
  | |- preserves _ (last_item _) => unfold last_item
  | |- preserves _ csv_read_rows => unfold csv_read_rows
  | |- preserves _ csv_create => unfold csv_create
  | |- preserves _ (csv_append _) => unfold csv_append
  | |- preserves _ (open_serial _) => unfold open_serial
  | |- preserves _ close_serial => unfold close_serial
  | |- preserves _ ser_in_waiting => unfold ser_in_waiting
  | |- preserves _ ser_reset_input_buffer => unfold ser_reset_input_buffer
  | |- preserves _ ser_readline_decode => unfold ser_readline_decode
  | |- preserves _ (send_to_thingspeak _ _ _) => unfold send_to_thingspeak
  | |- preserves _ initialize_csv => unfold initialize_csv
  | |- preserves _ (test_port _) => unfold test_port
  | |- preserves _ find_available_arduino_port =>
      unfold find_available_arduino_port
  | |- preserves _ check_connection => unfold check_connection
  | |- preserves _ _ => solve [ auto with frame ]
  end.

Ltac frame := repeat frame_step.

Lemma int_of_preserves X (f : world -> X) s : preserves f (int_of s).
Proof. unfold int_of. frame. Qed.

Lemma item_preserves X (f : world -> X) A (l : list A) i :
  preserves f (item l i).
Proof. unfold item. frame. Qed.

Lemma last_item_preserves X (f : world -> X) A (l : list A) :
  preserves f (last_item l).
Proof. apply item_preserves. Qed.

#[export] Hint Resolve int_of_preserves item_preserves last_item_preserves
  : frame.

(** *** The patient counter *)

Lemma send_to_thingspeak_counter p b h :
  preserves current_patient_number (send_to_thingspeak p b h).
Proof. unfold send_to_thingspeak. frame. Qed.

#[export] Hint Resolve send_to_thingspeak_counter : frame.

Lemma csv_append_counter row :
  preserves current_patient_number (csv_append row).
Proof. unfold csv_append. frame. Qed.

#[export] Hint Resolve csv_append_counter : frame.

Lemma save_patient_data_counter :
  preserves current_patient_number save_patient_data.
Proof. unfold save_patient_data. frame. Qed.

#[export] Hint Resolve save_patient_data_counter : frame.

(** ** Returning: no exception escapes *)

Lemma returns_ret A (a : A) : returns (ret a).
Proof. intros e w. exists a. reflexivity. Qed.

Lemma returns_get : returns get.
Proof. intros e w. exists w. reflexivity. Qed.

Lemma returns_modify g : returns (modify g).
Proof. intros e w. exists tt. reflexivity. Qed.

Lemma returns_emit ev : returns (emit ev).
Proof. apply returns_modify. Qed.

Lemma returns_ask A (q : env -> nat -> A) : returns (ask q).
Proof. intros e w. eexists. reflexivity. Qed.

Lemma returns_bind A B (m : M A) (k : A -> M B) :
  returns m -> (forall a, returns (k a)) -> returns (bind m k).
Proof.
  intros Hm Hk e w. destruct (Hm e w) as [a Ha].
  unfold outcome, bind in *. destruct (m e w) as [r w']. simpl in Ha.
  subst r. apply (Hk a e w').
Qed.

Lemma returns_try_except A (m : M A) (h : exn -> M A) :
  (forall x, returns (h x)) -> returns (try_except m h).
Proof.
  intros Hh e w. unfold outcome, try_except.
  destruct (m e w) as [[a | x] w'].
  - exists a. reflexivity.
  - apply (Hh x e w').
Qed.

Ltac returns_step :=
  lazymatch goal with
  | |- returns (bind _ _) => apply returns_bind; [ | intro ]
  | |- returns (try_except _ _) => apply returns_try_except; intro
  | |- returns (ret _) => apply returns_ret
  | |- returns get => apply returns_get
  | |- returns (modify _) => apply returns_modify
  | |- returns (ask _) => apply returns_ask
  | |- returns (emit _) => apply returns_emit
  | |- returns (print _) => apply returns_emit
  | |- returns (sleep _) => apply returns_emit
  | |- returns (when ?b _) => destruct b; cbn [when]
  | |- returns (if ?b then _ else _) => destruct b
  | |- returns (match ?x with _ => _ end) => destruct x
  | |- returns _ => solve [ auto with frame ]
  end.

Ltac returning := repeat returns_step.

(** A computation that returns is left alone by an enclosing [try]. *)
Lemma try_except_returns A (m : M A) (h : exn -> M A) e w :
  returns m -> try_except m h e w = m e w.
Proof.
  intros Hm. destruct (Hm e w) as [a Ha]. unfold outcome, try_except in *.
  destruct (m e w) as [r w']. simpl in Ha. subst r. reflexivity.
Qed.

(** ** Strings: [in] and [partition] agree *)

Lemma contains_partition sep s :
  PyStr.contains sep s = is_some (PyStr.partition sep s).
Proof.
  induction s as [ | c s IH ]; cbn [PyStr.contains PyStr.partition].
  - destruct (String.prefix sep ""); reflexivity.
  - destruct (String.prefix sep (String c s)); [ reflexivity | ].
    rewrite IH. destruct (PyStr.partition sep s) as [[a b] | ]; reflexivity.
Qed.

Lemma split1_of_contains sep s :
  PyStr.contains sep s = true ->
  exists a b, PyStr.split1 sep s = [a; b].
Proof.
  rewrite contains_partition. unfold PyStr.split1.
  destruct (PyStr.partition sep s) as [[a b] | ]; [ | discriminate ].
  intros _. exists a, b. reflexivity.
Qed.

(** ** The record assembler *)

Lemma parse_data_detect e w line n :
  detected_patient line = Some n ->
  parse_data line e w =
    (Val tt,
     let c := next_patient (current_patient_number w) n in
     with_trace (trace w ++ [Print (MsgPatientDetected c)])
       (with_current_patient_number c w)).
Proof.
  unfold detected_patient, parse_data.
  destruct (PyStr.contains ":" line); cbn [negb]; try discriminate.
  destruct (PyStr.split1 ":" line) as [ | data_type [ | data_value [ | ? ? ]]];
    try discriminate.
  destruct (String.eqb data_type "DETECT"); cbn [andb]; try discriminate.
  destruct (PyStr.contains "Queue=" data_value); try discriminate.
  unfold item, int_of.
  destruct (nth_error (PyStr.split "Queue=" data_value) 1) as [after | ];
    try discriminate.
  rewrite bind_ret.
  destruct (nth_error (PyStr.split "," after) 0) as [queue_part | ];
    try discriminate.
  rewrite bind_ret. intros ->. rewrite bind_ret.
  unfold try_except, bind, get, next_patient. cbv beta iota.
  destruct (n <=? current_patient_number w); reflexivity.
Qed.

Lemma parse_data_counter_other line :
  detected_patient line = None ->
  preserves current_patient_number (parse_data line).
Proof.
  unfold detected_patient, parse_data.
  destruct (PyStr.contains ":" line); cbn [negb]; [ | intros; frame ].
  destruct (PyStr.split1 ":" line) as [ | data_type [ | data_value [ | ? ? ]]];
    try (intros; frame; fail).
  destruct (String.eqb data_type "DETECT"); cbn [andb];
    [ | intros; frame ].
  destruct (PyStr.contains "Queue=" data_value); [ | intros; frame ].
  unfold item, int_of.
  destruct (nth_error (PyStr.split "Queue=" data_value) 1) as [after | ];
    [ rewrite bind_ret; cbv beta | intros; frame ].
  destruct (nth_error (PyStr.split "," after) 0) as [queue_part | ];
    [ rewrite bind_ret; cbv beta | intros; frame ].
  intros ->. cbv iota. frame.
Qed.

(** C10. A [DETECT] line with a well-formed [Queue=n] raises the patient
    counter by at least one; every other line (HEARTBEAT, BPM, malformed,
    unknown) leaves it as it was; so no call of [parse_data] lowers it. *)
Theorem counter_never_decreases e w line :
  (forall n, detected_patient line = Some n ->
     current_patient_number w + 1 <=
     current_patient_number (exec (parse_data line) e w)) /\
  (detected_patient line = None ->
     current_patient_number (exec (parse_data line) e w) =
     current_patient_number w) /\
  current_patient_number w <=
  current_patient_number (exec (parse_data line) e w).
Proof.
  assert (Hsome : forall n, detected_patient line = Some n ->
            current_patient_number w + 1 <=
            current_patient_number (exec (parse_data line) e w)).
  { intros n H. unfold exec. rewrite (parse_data_detect e w line n H). cbn.
    unfold next_patient.
    destruct (n <=? current_patient_number w) eqn:E; [ lia | ].
    apply Z.leb_gt in E. lia. }
  assert (Hnone : detected_patient line = None ->
            current_patient_number (exec (parse_data line) e w) =
            current_patient_number w).
  { intros H. apply (parse_data_counter_other line H). }
  repeat split; auto.
  destruct (detected_patient line) as [n | ] eqn:E.
  - specialize (Hsome n eq_refl). lia.
  - rewrite (Hnone eq_refl). lia.
Qed.

(** ** The sink and the flush *)

Lemma send_to_thingspeak_returns p b h : returns (send_to_thingspeak p b h).
Proof. unfold send_to_thingspeak. returning. Qed.

(** Running a computation on given surroundings and world: unfold the
    monad and compute up to the next unknown answer. *)
Ltac run :=
  unfold try_except, bind, get, ask, print, sleep, emit, modify, ret, raise,
    when;
  cbn.

Ltac same_world :=
  unfold with_trace, with_tick; cbn; rewrite <- ?app_assoc; reflexivity.

Lemma send_to_thingspeak_disabled e w p b h :
  thingspeak_enabled w = false ->
  send_to_thingspeak p b h e w =
    (Val false, with_trace (trace w ++ [Print MsgThingSpeakDisabled]) w).
Proof.
  intros H. unfold send_to_thingspeak. run. rewrite H. reflexivity.
Qed.

Lemma send_to_thingspeak_enabled e w p b h :
  thingspeak_enabled w = true ->
  send_to_thingspeak p b h e w =
    (let ts := now e (tick w) in
     let reply := sink_reply (requests_get e (S (tick w)) p b h ts) in
     (Val (fst reply),
      with_trace
        (trace w ++ [Print (MsgSending p b h); HttpGet p b h ts] ++ snd reply)
        (with_tick (S (S (tick w))) w))).
Proof.
  intros H. unfold send_to_thingspeak, sink_reply. run. rewrite H. cbn.
  destruct (requests_get e (S (tick w)) p b h (now e (tick w)))
    as [status_code entry_id | x]; cbn.
  - destruct (status_code =? 200); cbn;
      [ destruct (String.eqb entry_id "0"); cbn | ]; same_world.
  - destruct (exn_cls x); cbn; same_world.
Qed.

Lemma save_patient_data_returns : returns save_patient_data.
Proof. unfold save_patient_data. returning. Qed.

Lemma save_patient_data_incomplete e w :
  last_bpm w = None \/ last_heartbeat w = None ->
  save_patient_data e w = (Val tt, w).
Proof.
  unfold save_patient_data. run.
  intros [H | H]; rewrite H; [ | destruct (last_bpm w) ]; reflexivity.
Qed.

Lemma save_patient_data_store_fails e w b h x :
  last_bpm w = Some b -> last_heartbeat w = Some h ->
  csv_write e (S (tick w)) = Some x ->
  save_patient_data e w =
    (Val tt,
     with_trace (trace w ++ [Print (MsgSaveError x)])
       (with_tick (S (S (tick w)))
          (after_failed_append (csv_opened e (S (tick w))) w))).
Proof.
  intros Hb Hh Hx.
  unfold save_patient_data, csv_append, after_failed_append, file_rows. run.
  rewrite Hb, Hh. cbn. rewrite Hx.
  destruct (csv_opened e (S (tick w))); reflexivity.
Qed.

(** The world in which the upload is attempted: the row is in the file and
    the save has been reported. *)
Lemma save_patient_data_store_ok e w b h :
  last_bpm w = Some b -> last_heartbeat w = Some h ->
  csv_write e (S (tick w)) = None ->
  let p := current_patient_number w in
  let row := csv_row p (now e (tick w)) b h in
  let w1 :=
    with_trace (trace w ++ [CsvAppend row; Print (MsgSaved p b h)])
      (with_csv_file (Some (file_rows w ++ [row]))
         (with_tick (S (S (tick w))) w)) in
  save_patient_data e w =
    (Val tt,
     with_last_heartbeat None
       (with_last_bpm None
          (if thingspeak_enabled w then
             let w2 := exec (send_to_thingspeak p b h) e w1 in
             match outcome (send_to_thingspeak p b h) e w1 with
             | Val false =>
                 with_trace (trace w2 ++ [Print MsgUploadFailedSavedLocally])
                   w2
             | _ => w2
             end
           else w1))).
Proof.
  destruct w as [pt sr rn pn lb lh cl te cf ra tr tk]. cbn.
  intros -> -> Hx.
  unfold save_patient_data, csv_append. run. rewrite Hx. cbn.
  unfold with_last_heartbeat, with_last_bpm, with_trace, with_csv_file,
    with_tick, file_rows, exec, outcome; cbn.
  rewrite <- !app_assoc. cbn [app].
  replace (match cf with
           | Some rows => rows ++ [csv_row pn (now e tk) b h]
           | None => [csv_row pn (now e tk) b h]
           end)
    with (match cf with Some rows => rows | None => [] end
          ++ [csv_row pn (now e tk) b h])
    by (destruct cf; reflexivity).
  destruct te; [ | reflexivity ].
  change ([CsvAppend (csv_row pn (now e tk) b h)] ++ [Print (MsgSaved pn b h)])
    with [CsvAppend (csv_row pn (now e tk) b h); Print (MsgSaved pn b h)].
  match goal with
  | |- context [send_to_thingspeak pn b h e ?w1] =>
      destruct (send_to_thingspeak_returns pn b h e w1) as [ok Hok];
      unfold outcome in Hok;
      destruct (send_to_thingspeak pn b h e w1) as [r w2]
  end.
  cbn in Hok. subst r. cbn. destruct ok; reflexivity.
Qed.

(** ** [parse_data], line by line *)

Lemma parse_data_returns line : returns (parse_data line).
Proof.
  unfold parse_data.
  destruct (PyStr.contains ":" line) eqn:E; cbn [negb];
    [ | apply returns_ret ].
  destruct (split1_of_contains ":" line E) as [a [b ->]].
  apply returns_try_except. intro x. returning.
Qed.

#[export] Hint Resolve send_to_thingspeak_returns save_patient_data_returns
  parse_data_returns : frame.

Lemma parse_data_no_colon e w line :
  PyStr.contains ":" line = false -> parse_data line e w = (Val tt, w).
Proof. intros H. unfold parse_data. rewrite H. reflexivity. Qed.

Lemma reading_line_inv key marker line t :
  reading_line key marker line = Some t ->
  PyStr.contains ":" line = true /\
  exists data_value,
    PyStr.split1 ":" line = [key; data_value] /\
    t = extracted marker data_value.
Proof.
  unfold reading_line.
  destruct (PyStr.contains ":" line); cbn [negb]; [ | discriminate ].
  destruct (PyStr.split1 ":" line) as [ | data_type [ | data_value [ | ? ? ]]];
    try discriminate.
  destruct (String.eqb data_type key) eqn:E; [ | discriminate ].
  apply String.eqb_eq in E. subst data_type.
  intros [= <-]. split; [ reflexivity | ]. exists data_value. split; reflexivity.
Qed.

Lemma parse_data_heartbeat e w line t :
  heartbeat_text line = Some t ->
  parse_data line e w =
    match PyStr.int t with
    | Some n =>
        (Val tt,
         with_trace (trace w ++ [Print (MsgHeartbeat n)])
           (with_last_heartbeat (Some n) w))
    | None =>
        (Val tt, with_trace (trace w ++ [Print (MsgCouldNotParse line)]) w)
    end.
Proof.
  intros H. apply reading_line_inv in H.
  destruct H as [Hc [data_value [Hs ->]]].
  unfold parse_data, extracted, int_of. rewrite Hc, Hs. cbn [negb String.eqb].
  change (String.eqb "HEARTBEAT" "DETECT") with false.
  change (String.eqb "HEARTBEAT" "HEARTBEAT") with true. cbv iota.
  destruct (PyStr.contains "Reading=" data_value);
    match goal with
    | |- context [PyStr.int ?s] => destruct (PyStr.int s)
    end; reflexivity.
Qed.

Lemma parse_data_bpm e w line t :
  bpm_text line = Some t ->
  parse_data line e w =
    match PyStr.int t with
    | Some n =>
        let w1 :=
          with_trace (trace w ++ [Print (MsgBpm n)])
            (with_last_bpm (Some n) w) in
        if is_some (last_heartbeat w) then save_patient_data e w1
        else (Val tt, w1)
    | None =>
        (Val tt, with_trace (trace w ++ [Print (MsgCouldNotParse line)]) w)
    end.
Proof.
  intros H. apply reading_line_inv in H.
  destruct H as [Hc [data_value [Hs ->]]].
  unfold parse_data, extracted, int_of. rewrite Hc, Hs. cbn [negb].
  change (String.eqb "BPM" "DETECT") with false.
  change (String.eqb "BPM" "HEARTBEAT") with false.
  change (String.eqb "BPM" "BPM") with true. cbv iota.
  destruct (PyStr.contains "Value=" data_value);
    match goal with
    | |- context [PyStr.int ?s] => destruct (PyStr.int s) as [n | ]
    end; try reflexivity.
  all: run; destruct (last_heartbeat w); cbn; try reflexivity.
  all: match goal with
       | |- context [save_patient_data ?e1 ?w1] =>
           destruct (save_patient_data_returns e1 w1) as [u Hu];
           unfold outcome in Hu;
           destruct (save_patient_data e1 w1) as [r w2]
       end; cbn in Hu; subst r; destruct u; reflexivity.
Qed.

(** C5, as the code has it. Every line, malformed or not, is handled
    without an exception leaving [parse_data]. A line with no [':'] changes
    nothing at all: it is dropped silently, without a warning. A HEARTBEAT
    or BPM line whose extracted value [int] refuses prints the parse warning
    and changes nothing else: no flush, both pending fields as they were. *)
Theorem malformed_line_dropped e w line :
  outcome (parse_data line) e w = Val tt /\
  (PyStr.contains ":" line = false -> exec (parse_data line) e w = w) /\
  (forall t,
     heartbeat_text line = Some t \/ bpm_text line = Some t ->
     PyStr.int t = None ->
     exec (parse_data line) e w =
     with_trace (trace w ++ [Print (MsgCouldNotParse line)]) w).
Proof.
  repeat split.
  - destruct (parse_data_returns line e w) as [[] H]. exact H.
  - intros H. unfold exec. rewrite (parse_data_no_colon e w line H).
    reflexivity.
  - intros t [H | H] Hint; unfold exec.
    + rewrite (parse_data_heartbeat e w line t H), Hint. reflexivity.
    + rewrite (parse_data_bpm e w line t H), Hint. reflexivity.
Qed.

Lemma malformed_line_dropped_witness :
  (bpm_text "BPM:Value=7x2" = Some "7x2" /\ PyStr.int "7x2" = None) /\
  exec (parse_data "BPM:Value=7x2") quiet_env (world_at 1) =
  with_trace [Print (MsgCouldNotParse "BPM:Value=7x2")] (world_at 1).
Proof.
  split; [ split; reflexivity | ].
  exact (proj2 (proj2
           (malformed_line_dropped quiet_env (world_at 1) "BPM:Value=7x2"))
           "7x2" (or_intror eq_refl) eq_refl).
Defined.

(** C5 as stated fails: a line with no [':'] is dropped without any
    warning; nothing is printed. *)
Lemma no_colon_line_gets_no_warning :
  PyStr.contains ":" "HEARTBEAT 512" = false /\
  trace (exec (parse_data "HEARTBEAT 512") quiet_env (world_at 1)) = [] /\
  forall m,
    ~ In (Print m)
        (trace (exec (parse_data "HEARTBEAT 512") quiet_env (world_at 1))).
Proof.
  split; [ reflexivity | ]. split; [ reflexivity | ].
  intros m H. exact H.
Qed.

(** C3, as the code has it. When the append to the store raises, the flush
    reports the failure and returns normally; it attempts no upload, and it
    leaves the heart-rate and raw-sensor-reading fields populated as they
    were: the reset is skipped together with the rest of the [try] block.
    The log gains no row, and an existing log is left as it is. *)
Theorem store_failure_keeps_pending e w b h x :
  last_bpm w = Some b -> last_heartbeat w = Some h ->
  csv_write e (S (tick w)) = Some x ->
  outcome save_patient_data e w = Val tt /\
  trace (exec save_patient_data e w) = trace w ++ [Print (MsgSaveError x)] /\
  last_bpm (exec save_patient_data e w) = Some b /\
  last_heartbeat (exec save_patient_data e w) = Some h /\
  file_rows (exec save_patient_data e w) = file_rows w /\
  (csv_file w <> None -> csv_file (exec save_patient_data e w) = csv_file w).
Proof.
  intros Hb Hh Hx. unfold outcome, exec.
  rewrite (save_patient_data_store_fails e w b h x Hb Hh Hx).
  unfold after_failed_append, file_rows.
  destruct (csv_opened e (S (tick w))); cbn;
    (repeat split; try assumption);
    destruct (csv_file w); try reflexivity; intros H; contradiction.
Qed.

Lemma store_failure_keeps_pending_witness :
  let w :=
    with_last_bpm (Some 72) (with_last_heartbeat (Some 512) (world_at 1)) in
  csv_write disk_full_env (S (tick w)) = Some disk_full /\
  last_bpm (exec save_patient_data disk_full_env w) = Some 72 /\
  last_heartbeat (exec save_patient_data disk_full_env w) = Some 512.
Proof.
  split; [ reflexivity | ].
  pose proof
    (store_failure_keeps_pending disk_full_env
       (with_last_bpm (Some 72)
          (with_last_heartbeat (Some 512) (world_at 1)))
       72 512 disk_full eq_refl eq_refl eq_refl) as H.
  exact (conj (proj1 (proj2 (proj2 H))) (proj1 (proj2 (proj2 (proj2 H))))).
Defined.

(** C3 as stated fails: with the store refusing the write, the BPM line
    that completes a pair leaves both fields populated, so the pair is not
    cleared. *)
Lemma store_failure_does_not_clear :
  let w :=
    exec (parse_data "BPM:Value=72") disk_full_env
      (with_last_heartbeat (Some 512) (world_at 1)) in
  last_bpm w = Some 72 /\ last_heartbeat w = Some 512 /\
  trace w = [Print (MsgBpm 72); Print (MsgSaveError disk_full)].
Proof. repeat split; reflexivity. Qed.

(** The sink leaves the store and the count of flushes alone. *)
Lemma send_to_thingspeak_file p b h :
  preserves csv_file (send_to_thingspeak p b h).
Proof. unfold send_to_thingspeak. frame. Qed.

Lemma send_to_thingspeak_flushes p b h :
  preserves (fun w => flushes (trace w)) (send_to_thingspeak p b h).
Proof. unfold send_to_thingspeak. frame. Qed.

#[export] Hint Resolve send_to_thingspeak_file send_to_thingspeak_flushes
  : frame.

(** C4. In a flush whose append succeeds, the row is appended to the store
    first and the upload is attempted after it; whatever the sink answers
    (accepted, rejected with body ["0"], an HTTP error, unreachable), the
    flush returns normally and the store holds the row; when the sink fails
    the failure is reported after the row was saved. *)
Theorem append_precedes_upload e w b h :
  last_bpm w = Some b -> last_heartbeat w = Some h ->
  csv_write e (S (tick w)) = None ->
  thingspeak_enabled w = true ->
  let p := current_patient_number w in
  let row := csv_row p (now e (tick w)) b h in
  let ts := now e (S (S (tick w))) in
  let reply := sink_reply (requests_get e (S (S (S (tick w)))) p b h ts) in
  outcome save_patient_data e w = Val tt /\
  csv_file (exec save_patient_data e w) = Some (file_rows w ++ [row]) /\
  trace (exec save_patient_data e w) =
    trace w
    ++ [CsvAppend row; Print (MsgSaved p b h);
        Print (MsgSending p b h); HttpGet p b h ts]
    ++ snd reply
    ++ (if fst reply then [] else [Print MsgUploadFailedSavedLocally]).
Proof.
  intros Hb Hh Hx Hen p row ts reply. unfold outcome, exec.
  rewrite (save_patient_data_store_ok e w b h Hb Hh Hx). cbv zeta.
  rewrite Hen. fold p. fold row.
  set (w1 := with_trace _ _).
  assert (Hen1 : thingspeak_enabled w1 = true) by exact Hen.
  unfold outcome, exec.
  rewrite (send_to_thingspeak_enabled e w1 p b h Hen1). cbv zeta.
  change (tick w1) with (S (S (tick w))). fold ts. fold reply.
  cbn [fst snd].
  split; [ reflexivity | ].
  destruct (fst reply); cbn; (split; [ reflexivity | ]).
  - rewrite <- !app_assoc. cbn. rewrite app_nil_r. reflexivity.
  - rewrite <- !app_assoc. reflexivity.
Qed.

(** Scenario E: the sink answers ["0"]; the failure is reported and the
    store holds the row written before the upload. *)
Lemma append_precedes_upload_witness :
  let w :=
    with_last_bpm (Some 72) (with_last_heartbeat (Some 512) (world_at 1)) in
  csv_file (exec save_patient_data sink_rejects_env w) =
    Some [csv_header; ["1"; "2025-01-01 12:00:00"; "72"; "512"]] /\
  trace (exec save_patient_data sink_rejects_env w) =
    [CsvAppend ["1"; "2025-01-01 12:00:00"; "72"; "512"];
     Print (MsgSaved 1 72 512); Print (MsgSending 1 72 512);
     HttpGet 1 72 512 "2025-01-01 12:00:00";
     Print MsgUpdateFailed; Print MsgUploadFailedSavedLocally].
Proof.
  exact (proj2
           (append_precedes_upload sink_rejects_env
              (with_last_bpm (Some 72)
                 (with_last_heartbeat (Some 512) (world_at 1)))
              72 512 eq_refl eq_refl eq_refl eq_refl)).
Defined.

(** A line that is not a BPM line with an integer flushes nothing. *)
Lemma parse_data_flushes_other line :
  bpm_value line = None ->
  preserves (fun w => flushes (trace w)) (parse_data line).
Proof.
  unfold bpm_value, bpm_text, reading_line, extracted, parse_data.
  destruct (PyStr.contains ":" line); cbn [negb]; [ | intros; frame ].
  destruct (PyStr.split1 ":" line) as [ | data_type [ | data_value [ | ? ? ]]];
    try (intros; frame; fail).
  destruct (String.eqb data_type "BPM") eqn:E.
  - apply String.eqb_eq in E. subst data_type.
    change (String.eqb "BPM" "DETECT") with false.
    change (String.eqb "BPM" "HEARTBEAT") with false. cbv iota.
    unfold int_of.
    destruct (PyStr.contains "Value=" data_value); intros ->; frame.
  - intros _. frame.
Qed.

Lemma flush_cases e w line :
  let w' := exec (parse_data line) e w in
  (exists b h,
      bpm_value line = Some b /\ last_heartbeat w = Some h /\
      csv_write e (S (tick w)) = None /\
      flushed (trace w) (trace w') /\
      last_bpm w' = None /\ last_heartbeat w' = None) \/
  ((bpm_value line = None \/ last_heartbeat w = None \/
    csv_write e (S (tick w)) <> None) /\
   flushes (trace w') = flushes (trace w)).
Proof.
  cbv zeta. destruct (bpm_value line) as [b | ] eqn:Hv.
  2:{ right. split; [ left; reflexivity | ].
      apply (parse_data_flushes_other line Hv). }
  unfold bpm_value in Hv. destruct (bpm_text line) as [t | ] eqn:Ht;
    [ | discriminate ].
  unfold exec. rewrite (parse_data_bpm e w line t Ht), Hv. cbv zeta.
  destruct (last_heartbeat w) as [h | ] eqn:Hh; cbn [is_some].
  2:{ right. split; [ right; left; reflexivity | ].
      cbn. rewrite flushes_app. apply Nat.add_0_r. }
  set (w1 := with_trace _ _).
  assert (Hb1 : last_bpm w1 = Some b) by reflexivity.
  assert (Hh1 : last_heartbeat w1 = Some h) by exact Hh.
  destruct (csv_write e (S (tick w))) as [x | ] eqn:Hx.
  - right. split; [ right; right; discriminate | ].
    rewrite (save_patient_data_store_fails e w1 b h x Hb1 Hh1 Hx). cbn.
    rewrite !flushes_app. cbn. rewrite !Nat.add_0_r. reflexivity.
  - left. exists b, h. repeat split; try reflexivity.
    + rewrite (save_patient_data_store_ok e w1 b h Hb1 Hh1 Hx). cbv zeta.
      unfold flushed. set (w2 := with_trace _ (with_csv_file _ _)).
      assert (H2 : flushes (trace w2) = S (flushes (trace w))).
      { cbn. rewrite !flushes_app. cbn. rewrite Nat.add_0_r.
        apply Nat.add_1_r. }
      cbn [snd].
      pose proof (send_to_thingspeak_flushes (current_patient_number w) b h
                    e w2) as Hs. cbv beta in Hs.
      destruct (thingspeak_enabled w1); [ | exact H2 ].
      destruct (outcome _ e w2) as [[ | ] | ?]; cbn;
        rewrite ?flushes_app, ?Nat.add_0_r; cbn;
        rewrite ?Nat.add_0_r; congruence.
    + rewrite (save_patient_data_store_ok e w1 b h Hb1 Hh1 Hx). reflexivity.
    + rewrite (save_patient_data_store_ok e w1 b h Hb1 Hh1 Hx). reflexivity.
Qed.

(** C2, as the code has it. In any world, so after any sequence of handled
    lines, handling one more line flushes a record exactly when the line is
    a BPM line carrying an integer, the raw-sensor-reading field is already
    populated, and the store accepts the row. Right after a flush both
    pending fields are empty. Any other line, a HEARTBEAT line that makes
    both fields populated included, flushes nothing. *)
Theorem flush_iff_bpm_completes e w line :
  let w' := exec (parse_data line) e w in
  (flushed (trace w) (trace w') <->
   (exists b, bpm_value line = Some b) /\
   last_heartbeat w <> None /\
   csv_write e (S (tick w)) = None) /\
  (flushed (trace w) (trace w') ->
   last_bpm w' = None /\ last_heartbeat w' = None) /\
  (~ flushed (trace w) (trace w') ->
   flushes (trace w') = flushes (trace w)).
Proof.
  cbv zeta.
  destruct (flush_cases e w line)
    as [[b [h [Hv [Hh [Hx [Hf [Hb' Hh']]]]]]] | [Hno Hsame]].
  - split; [ split | split ].
    + intros _. split; [ exists b; exact Hv | ].
      split; [ rewrite Hh; discriminate | exact Hx ].
    + intros _. exact Hf.
    + intros _. split; assumption.
    + intros Hn. contradiction.
  - assert (Hnf : ~ flushed (trace w)
                      (trace (exec (parse_data line) e w))).
    { unfold flushed. rewrite Hsame. apply Nat.neq_succ_diag_r. }
    split; [ split | split ].
    + intros Hf. contradiction.
    + intros [[b Hv] [Hh Hx]].
      destruct Hno as [H | [H | H]]; congruence.
    + intros Hf. contradiction.
    + intros _. exact Hsame.
Qed.

Lemma flush_iff_bpm_completes_witness :
  let w := with_last_heartbeat (Some 512) (world_at 1) in
  let w' := exec (parse_data "BPM:Value=72") quiet_env w in
  flushed (trace w) (trace w') /\ last_bpm w' = None /\
  last_heartbeat w' = None.
Proof.
  pose proof
    (flush_iff_bpm_completes quiet_env
       (with_last_heartbeat (Some 512) (world_at 1)) "BPM:Value=72") as H.
  cbv zeta in H. destruct H as [_ [H _]].
  exact (conj eq_refl (H eq_refl)).
Defined.

(** C2 as stated fails: after [BPM:72] and then [HEARTBEAT:512] both fields
    are populated, and nothing has been flushed. *)
Lemma heartbeat_completing_pair_does_not_flush :
  let w :=
    exec (handle_lines ["BPM:72"; "HEARTBEAT:512"]) quiet_env (world_at 1) in
  last_bpm w = Some 72 /\ last_heartbeat w = Some 512 /\
  flushes (trace w) = O /\ csv_file w = Some [csv_header].
Proof. repeat split; reflexivity. Qed.

(** ** [int(str(n))] is [n] *)

Lemma int_digits_of_uint_acc d acc :
  PyStr.int_digits (Zpos acc) true (NilEmpty.string_of_uint d) =
  Some (Zpos (Pos.of_uint_acc d acc)).
Proof.
  revert acc.
  induction d; intro acc; cbn -[Z.mul Z.add Pos.mul Pos.add];
    [ reflexivity | .. ];
    match goal with
    | |- context [PyStr.digit_of ?c] =>
        let v := eval vm_compute in (PyStr.digit_of c) in
        change (PyStr.digit_of c) with v
    end;
    cbv iota beta; rewrite <- IHd; f_equal; lia.
Qed.

Lemma int_digits_of_uint d after_digit :
  d <> Nil \/ after_digit = true ->
  PyStr.int_digits 0 after_digit (NilEmpty.string_of_uint d) =
  Some (Z.of_N (Pos.of_uint d)).
Proof.
  revert after_digit. induction d; intros after_digit H; cbn.
  - destruct H as [H | ->]; [ contradiction | reflexivity ].
  - apply IHd. right. reflexivity.
  - apply (int_digits_of_uint_acc d 1).
  - apply (int_digits_of_uint_acc d 2).
  - apply (int_digits_of_uint_acc d 3).
  - apply (int_digits_of_uint_acc d 4).
  - apply (int_digits_of_uint_acc d 5).
  - apply (int_digits_of_uint_acc d 6).
  - apply (int_digits_of_uint_acc d 7).
  - apply (int_digits_of_uint_acc d 8).
  - apply (int_digits_of_uint_acc d 9).
Qed.

Lemma strip_no_space s : no_space s = true -> PyStr.strip s = s.
Proof.
  intros H. unfold PyStr.strip.
  assert (Hl : PyStr.lstrip s = s).
  { destruct s as [ | c s ]; [ reflexivity | ]. cbn in *.
    destruct (PyStr.is_space c); [ discriminate | reflexivity ]. }
  rewrite Hl. induction s as [ | c s IH ]; [ reflexivity | ].
  cbn [no_space] in H. apply andb_prop in H. destruct H as [Hc Hs].
  cbn [PyStr.rstrip]. rewrite IH.
  - destruct s; [ | reflexivity ].
    destruct (PyStr.is_space c); [ discriminate | reflexivity ].
  - exact Hs.
  - destruct s as [ | c' s ]; [ reflexivity | ]. cbn in *.
    destruct (PyStr.is_space c'); [ discriminate | reflexivity ].
Qed.

Lemma no_space_of_uint d : no_space (NilEmpty.string_of_uint d) = true.
Proof. induction d; cbn; try rewrite IHd; reflexivity. Qed.

Lemma int_space_is_space c :
  PyStr.is_int_space c = true -> PyStr.is_space c = true.
Proof.
  unfold PyStr.is_int_space, PyStr.is_space.
  destruct c as [[ | ] [ | ] [ | ] [ | ] [ | ] [ | ] [ | ] [ | ]];
    vm_compute; intros H; try reflexivity; discriminate H.
Qed.

(** A text without blanks is what [int] looks at. *)
Lemma int_strip_no_space s :
  no_space s = true -> PyStr.int_rstrip (PyStr.int_lstrip s) = s.
Proof.
  intros H.
  assert (Hc : forall c, PyStr.is_space c = false ->
                         PyStr.is_int_space c = false).
  { intros c Hsp. destruct (PyStr.is_int_space c) eqn:E; [ | reflexivity ].
    rewrite (int_space_is_space c E) in Hsp. discriminate Hsp. }
  assert (Hl : PyStr.int_lstrip s = s).
  { destruct s as [ | c s ]; [ reflexivity | ]. cbn [no_space] in H.
    apply andb_prop in H. destruct H as [H _].
    apply negb_true_iff in H. cbn [PyStr.int_lstrip]. rewrite (Hc c H).
    reflexivity. }
  rewrite Hl. clear Hl. induction s as [ | c s IH ]; [ reflexivity | ].
  cbn [no_space] in H. apply andb_prop in H. destruct H as [Hsp Hs].
  apply negb_true_iff in Hsp.
  cbn [PyStr.int_rstrip]. rewrite (IH Hs).
  destruct s; [ rewrite (Hc c Hsp) | ]; reflexivity.
Qed.

Lemma int_of_uint_string d :
  d <> Nil ->
  Z.of_nat (PyStr.digits (NilEmpty.string_of_uint d))
    <= PyStr.int_max_str_digits ->
  PyStr.int (NilEmpty.string_of_uint d) = Some (Z.of_N (Pos.of_uint d)).
Proof.
  intros Hd Hfit.
  assert (Hlit : PyStr.int_literal (NilEmpty.string_of_uint d) =
                 Some (Z.of_N (Pos.of_uint d))).
  { unfold PyStr.int_literal. rewrite (proj2 (Z.leb_le _ _) Hfit).
    rewrite <- (int_digits_of_uint d false (or_introl Hd)). reflexivity. }
  unfold PyStr.int.
  rewrite (int_strip_no_space _ (no_space_of_uint d)).
  destruct d; [ contradiction | .. ]; exact Hlit.
Qed.

(** [int(str(n)) == n], for an integer within the limit of digits. *)
Lemma int_str n : PyStr.fits n -> PyStr.int (PyStr.str n) = Some n.
Proof.
  unfold PyStr.fits, PyStr.str.
  destruct n as [ | p | p ]; [ reflexivity | | ].
  - cbn [Z.to_int NilZero.string_of_int].
    pose proof (DecimalPos.Unsigned.to_uint_nonnil p) as Hn.
    assert (Hs : NilZero.string_of_uint (Pos.to_uint p) =
                 NilEmpty.string_of_uint (Pos.to_uint p)).
    { unfold NilZero.string_of_uint.
      destruct (Pos.to_uint p); [ contradiction | .. ]; reflexivity. }
    rewrite Hs. intros Hfit.
    rewrite (int_of_uint_string _ Hn Hfit).
    rewrite DecimalPos.Unsigned.of_to. reflexivity.
  - cbn [Z.to_int NilZero.string_of_int].
    pose proof (DecimalPos.Unsigned.to_uint_nonnil p) as Hn.
    assert (Hs : NilZero.string_of_uint (Pos.to_uint p) =
                 NilEmpty.string_of_uint (Pos.to_uint p)).
    { unfold NilZero.string_of_uint.
      destruct (Pos.to_uint p); [ contradiction | .. ]; reflexivity. }
    rewrite Hs.
    change (PyStr.digits
              (String "-" (NilEmpty.string_of_uint (Pos.to_uint p))))
      with (PyStr.digits (NilEmpty.string_of_uint (Pos.to_uint p))).
    intros Hfit. unfold PyStr.int.
    assert (Hns : no_space
                    (String "-" (NilEmpty.string_of_uint (Pos.to_uint p)))
                  = true).
    { cbn. apply no_space_of_uint. }
    rewrite (int_strip_no_space _ Hns).
    unfold PyStr.int_literal. rewrite (proj2 (Z.leb_le _ _) Hfit).
    rewrite (int_digits_of_uint (Pos.to_uint p) false (or_introl Hn)).
    rewrite DecimalPos.Unsigned.of_to. reflexivity.
Qed.

(** ** The store: appending and resuming *)



Lemma initialize_csv_resumes e w rows row n :
  csv_file w = Some (rows ++ [row]) -> rows <> [] ->
  csv_read e (tick w) = None ->
  (exists field rest, row = field :: rest /\ PyStr.int field = Some n) ->
  outcome initialize_csv e w = Val tt /\
  current_patient_number (exec initialize_csv e w) = n /\
  csv_file (exec initialize_csv e w) = csv_file w.
Proof.
  intros Hf Hne Hr [field [rest [-> Hint]]].
  assert (Hlen : (1 <? List.length (rows ++ [field :: rest]))%nat = true).
  { apply Nat.ltb_lt. rewrite length_app. cbn.
    destruct rows; [ contradiction | cbn; lia ]. }
  assert (Hlast : nth_error (rows ++ [field :: rest])
                    (List.length (rows ++ [field :: rest]) - 1)
                  = Some (field :: rest)).
  { rewrite length_app. cbn. rewrite Nat.add_sub.
    rewrite nth_error_app2 by lia. rewrite Nat.sub_diag. reflexivity. }
  destruct w as [pt sr rn pn lb lh cl te cf ra tr tk]. cbn in *. subst cf.
  unfold initialize_csv, csv_read_rows, last_item, item, int_of,
    outcome, exec.
  run. rewrite Hr. cbn. rewrite Hlen. rewrite Hlast. cbn. rewrite Hint. cbn.
  destruct te; cbn; repeat split; reflexivity.
Qed.



(** An integer of one digit is within the limit. *)
Lemma fits_small n : Z.abs n < 10 -> PyStr.fits n.
Proof.
  intros H. destruct n as [ | p | p ]; cbn [Z.abs] in H;
    [ vm_compute; discriminate | | ];
    do 4 (try destruct p as [p | p | ]); try lia;
    vm_compute; discriminate.
Qed.



(** ** The device locator *)

Lemma collect_arduino_ports_outcome ports acc e w :
  outcome (collect_arduino_ports ports acc) e w = Val (acc ++ matching ports).
Proof.
  revert acc w. induction ports as [ | [device description] ports IH ];
    intros acc w.
  - cbn. rewrite app_nil_r. reflexivity.
  - cbn [collect_arduino_ports]. unfold matching. cbn [filter fst].
    destruct (is_arduino device).
    + unfold outcome, bind, print, emit, modify. cbn [map].
      fold (outcome (collect_arduino_ports ports (acc ++ [device])) e
              (with_trace (trace w ++ [Print (MsgFound device description)])
                 w)).
      rewrite IH. rewrite <- app_assoc. reflexivity.
    + apply IH.
Qed.

Lemma find_available_arduino_port_outcome e w :
  outcome find_available_arduino_port e w =
  Val (candidates (matching (comports e (tick w)))).
Proof.
  unfold find_available_arduino_port, outcome, bind, print, emit, modify, ask.
  cbn.
  match goal with
  | |- context [collect_arduino_ports ?ps ?acc ?e1 ?w1] =>
      pose proof (collect_arduino_ports_outcome ps acc e1 w1) as H;
      unfold outcome in H;
      destruct (collect_arduino_ports ps acc e1 w1) as [r w2]
  end.
  cbn in H. subst r. reflexivity.
Qed.

Lemma extend_ports_with_sibling acc port :
  extend_ports acc port = acc ++ with_sibling port.
Proof.
  unfold extend_ports, with_sibling, sibling.
  destruct (PyStr.contains "cu." port); [ reflexivity | ].
  destruct (PyStr.contains "tty." port); reflexivity.
Qed.

Lemma fold_extend_ports names acc :
  fold_left extend_ports names acc = acc ++ flat_map with_sibling names.
Proof.
  revert acc. induction names as [ | p names IH ]; intro acc; cbn.
  - rewrite app_nil_r. reflexivity.
  - rewrite IH, extend_ports_with_sibling, <- app_assoc. reflexivity.
Qed.

Lemma keep_first_seen seen seen' l :
  (forall x, existsb (String.eqb x) seen = existsb (String.eqb x) seen') ->
  keep_first seen l = keep_first seen' l.
Proof.
  revert seen seen'. induction l as [ | x l IH ]; intros seen seen' H;
    [ reflexivity | ].
  cbn. rewrite <- (H x). destruct (existsb (String.eqb x) seen).
  - apply IH. exact H.
  - f_equal. apply IH. intro y. cbn. rewrite (H y). reflexivity.
Qed.

Lemma fold_dict_set_key l keys :
  fold_left dict_set_key l keys = keys ++ keep_first keys l.
Proof.
  revert keys. induction l as [ | x l IH ]; intro keys; cbn.
  - rewrite app_nil_r. reflexivity.
  - unfold dict_set_key at 2. destruct (existsb (String.eqb x) keys).
    + apply IH.
    + rewrite IH, <- app_assoc. cbn. do 2 f_equal.
      apply keep_first_seen. intro y. rewrite existsb_app. cbn.
      destruct (String.eqb y x); cbn;
        rewrite ?orb_true_r, ?orb_false_r; reflexivity.
Qed.

Lemma dict_fromkeys_keep_first l : dict_fromkeys l = keep_first [] l.
Proof. unfold dict_fromkeys. apply fold_dict_set_key. Qed.

Lemma existsb_eqb_In x l : existsb (String.eqb x) l = true <-> In x l.
Proof.
  rewrite existsb_exists. split.
  - intros [y [Hy E]]. apply String.eqb_eq in E. subst y. exact Hy.
  - intros H. exists x. split; [ exact H | apply String.eqb_refl ].
Qed.

Lemma keep_first_In seen l x :
  In x (keep_first seen l) <-> In x l /\ ~ In x seen.
Proof.
  revert seen. induction l as [ | y l IH ]; intro seen; cbn.
  - tauto.
  - destruct (existsb (String.eqb y) seen) eqn:E.
    + apply existsb_eqb_In in E. rewrite IH. split.
      * tauto.
      * intros [[-> | H] Hn]; [ contradiction | tauto ].
    + assert (Hy : ~ In y seen).
      { intro H. apply existsb_eqb_In in H. congruence. }
      cbn. rewrite IH. cbn. split.
      * intros [-> | [H Hn]]; [ tauto | tauto ].
      * intros [[-> | H] Hn]; [ tauto | ].
        destruct (string_dec y x) as [-> | Hne]; [ tauto | tauto ].
Qed.

Lemma keep_first_NoDup seen l : NoDup (keep_first seen l).
Proof.
  revert seen. induction l as [ | y l IH ]; intro seen; cbn.
  - constructor.
  - destruct (existsb (String.eqb y) seen); [ apply IH | ].
    constructor; [ | apply IH ].
    rewrite keep_first_In. cbn. tauto.
Qed.

(** *** A sibling is never the name itself: [replace] changes the length *)

Lemma prefix_length p s :
  String.prefix p s = true -> (String.length p <= String.length s)%nat.
Proof.
  revert s. induction p as [ | c p IH ]; intros s H; cbn; [ lia | ].
  destruct s as [ | c' s ]; cbn in H; [ discriminate | ].
  destruct (Ascii.ascii_dec c c'); [ | discriminate ].
  apply IH in H. cbn. lia.
Qed.

Lemma drop_length n s :
  String.length (PyStr.drop n s) = (String.length s - n)%nat.
Proof.
  revert s. induction n as [ | n IH ]; intro s; cbn; [ lia | ].
  destruct s as [ | c s ]; cbn; [ reflexivity | apply IH ].
Qed.

Lemma partition_length sep s a b :
  PyStr.partition sep s = Some (a, b) ->
  String.length s =
  (String.length a + String.length sep + String.length b)%nat.
Proof.
  revert a. induction s as [ | c s IH ]; intro a;
    cbn [PyStr.partition]; destruct (String.prefix sep _) eqn:E.
  - intros [= <- <-]. apply prefix_length in E. rewrite drop_length.
    cbn [String.length] in *. lia.
  - discriminate.
  - intros [= <- <-]. apply prefix_length in E. rewrite drop_length.
    cbn [String.length] in *. lia.
  - destruct (PyStr.partition sep s) as [[a' b'] | ]; [ | discriminate ].
    intros [= <- <-]. specialize (IH a' eq_refl). cbn. lia.
Qed.

Lemma append_length (a b : string) :
  String.length (a ++ b)%string = (String.length a + String.length b)%nat.
Proof. induction a as [ | c a IH ]; cbn; [ reflexivity | rewrite IH; lia ]. Qed.

(** The length of [replace_fuel]'s answer, against the length of [s], moves
    the way the length of [new] does against the length of [old]. *)
Lemma replace_fuel_length fuel old new s :
  ((String.length old <= String.length new)%nat ->
   (String.length s <= String.length (PyStr.replace_fuel fuel old new s))%nat)
  /\
  ((String.length new <= String.length old)%nat ->
   (String.length (PyStr.replace_fuel fuel old new s) <= String.length s)%nat).
Proof.
  revert s. induction fuel as [ | fuel IH ]; intro s;
    cbn [PyStr.replace_fuel];
    destruct (PyStr.partition old s) as [[a b] | ] eqn:E;
    try (split; intros; lia).
  apply partition_length in E. rewrite !append_length.
  destruct (IH b) as [Hup Hdown]. split; intro H.
  - specialize (Hup H). lia.
  - specialize (Hdown H). lia.
Qed.

Lemma replace_changes_length old new s :
  String.prefix old "" = false ->
  PyStr.contains old s = true ->
  ((String.length old < String.length new)%nat ->
   (String.length s < String.length (PyStr.replace old new s))%nat)
  /\
  ((String.length new < String.length old)%nat ->
   (String.length (PyStr.replace old new s) < String.length s)%nat).
Proof.
  intros Hne Hc. rewrite contains_partition in Hc. unfold PyStr.replace.
  destruct s as [ | c s ].
  { cbn [PyStr.partition] in Hc. rewrite Hne in Hc. discriminate. }
  cbn [String.length PyStr.replace_fuel].
  destruct (PyStr.partition old (String c s)) as [[a b] | ] eqn:E;
    [ | discriminate ].
  apply partition_length in E. cbn [String.length] in E.
  rewrite !append_length.
  destruct (replace_fuel_length (String.length s) old new b) as [Hup Hdown].
  split; intro H.
  - assert (H' : (String.length old <= String.length new)%nat) by lia.
    specialize (Hup H'). lia.
  - assert (H' : (String.length new <= String.length old)%nat) by lia.
    specialize (Hdown H'). lia.
Qed.

Lemma sibling_differs port other : sibling port = Some other -> other <> port.
Proof.
  unfold sibling. destruct (PyStr.contains "cu." port) eqn:Ecu.
  - intros [= <-] Heq.
    destruct (replace_changes_length "cu." "tty." port eq_refl Ecu)
      as [Hup _].
    specialize (Hup ltac:(cbn; lia)). rewrite Heq in Hup. lia.
  - destruct (PyStr.contains "tty." port) eqn:Etty; [ | discriminate ].
    intros [= <-] Heq.
    destruct (replace_changes_length "tty." "cu." port eq_refl Etty)
      as [_ Hdown].
    specialize (Hdown ltac:(cbn; lia)). rewrite Heq in Hdown. lia.
Qed.

Lemma keep_first_app seen l1 l2 :
  keep_first seen (l1 ++ l2) =
  keep_first seen l1 ++ keep_first (l1 ++ seen) l2.
Proof.
  revert seen. induction l1 as [ | x l1 IH ]; intro seen; [ reflexivity | ].
  simpl.
  destruct (existsb (String.eqb x) seen) eqn:E.
  - rewrite IH. f_equal. apply keep_first_seen. intro y.
    simpl. rewrite !existsb_app.
    destruct (String.eqb y x) eqn:Eyx; [ | reflexivity ].
    apply String.eqb_eq in Eyx. subst y. rewrite E.
    rewrite orb_true_r. reflexivity.
  - rewrite IH. simpl. do 2 f_equal. apply keep_first_seen. intro y.
    simpl. rewrite !existsb_app. simpl.
    destruct (String.eqb y x), (existsb (String.eqb y) l1),
      (existsb (String.eqb y) seen); reflexivity.
Qed.

Lemma candidates_keep_first names :
  candidates names = keep_first [] (flat_map with_sibling names).
Proof.
  unfold candidates. rewrite dict_fromkeys_keep_first, fold_extend_ports.
  reflexivity.
Qed.

(** C9. For the matching names of a scan, in scan order, the locator emits
    each name followed by its sibling when the name carries the ['cu.'] or
    ['tty.'] marker, and answers that list with every name kept where it
    first occurs. The answer has no duplicate, so no name and no alias pair
    occurs twice; it holds exactly the emitted names; and a name whose pair
    was not emitted before stands right before its sibling, after the
    candidates of the names scanned earlier. *)
Theorem discover_pairs_without_duplicates (names : list string) :
  (forall e w,
     matching (comports e (tick w)) = names ->
     outcome find_available_arduino_port e w = Val (candidates names)) /\
  fold_left extend_ports names [] = flat_map with_sibling names /\
  candidates names = keep_first [] (flat_map with_sibling names) /\
  NoDup (candidates names) /\
  (forall p, (count_occ string_dec (candidates names) p <= 1)%nat) /\
  (forall p,
     In p (candidates names) <->
     exists n, In n names /\ In p (with_sibling n)) /\
  (forall before p after other,
     names = before ++ p :: after ->
     sibling p = Some other ->
     ~ In p (flat_map with_sibling before) ->
     ~ In other (flat_map with_sibling before) ->
     exists rest, candidates names = candidates before ++ p :: other :: rest).
Proof.
  assert (Hnd : NoDup (candidates names)).
  { rewrite candidates_keep_first. apply keep_first_NoDup. }
  repeat split.
  - intros e w <-. apply find_available_arduino_port_outcome.
  - apply (fold_extend_ports names []).
  - apply candidates_keep_first.
  - exact Hnd.
  - intro p. apply NoDup_count_occ. exact Hnd.
  - rewrite candidates_keep_first, keep_first_In, in_flat_map.
    intros [H _]. exact H.
  - rewrite candidates_keep_first, keep_first_In, in_flat_map.
    intros H. split; [ exact H | intros [] ].
  - intros before p after other -> Hs Hp Ho.
    rewrite !candidates_keep_first, flat_map_app, keep_first_app.
    cbn [flat_map].
    assert (Hw : with_sibling p = [p; other])
      by (unfold with_sibling; rewrite Hs; reflexivity).
    rewrite Hw, app_nil_r. simpl.
    assert (E1 : existsb (String.eqb p) (flat_map with_sibling before)
                 = false).
    { apply not_true_is_false. intro E.
      apply existsb_eqb_In in E. contradiction. }
    rewrite E1. simpl.
    assert (E2 : String.eqb other p = false).
    { apply String.eqb_neq. apply (sibling_differs p other Hs). }
    rewrite E2. simpl.
    assert (E3 : existsb (String.eqb other) (flat_map with_sibling before)
                 = false).
    { apply not_true_is_false. intro E.
      apply existsb_eqb_In in E. contradiction. }
    rewrite E3. eexists. reflexivity.
Qed.

(** A scan that lists both aliases of one device: each is emitted with its
    sibling, and the answer holds the pair once, in scan order. *)
Lemma discover_pairs_without_duplicates_witness :
  let names := ["/dev/cu.usbmodem1"; "/dev/tty.usbmodem1"] in
  fold_left extend_ports names [] =
    ["/dev/cu.usbmodem1"; "/dev/tty.usbmodem1";
     "/dev/tty.usbmodem1"; "/dev/cu.usbmodem1"] /\
  candidates names = ["/dev/cu.usbmodem1"; "/dev/tty.usbmodem1"] /\
  NoDup (candidates names).
Proof.
  pose proof (discover_pairs_without_duplicates
                ["/dev/cu.usbmodem1"; "/dev/tty.usbmodem1"]) as H.
  destruct H as [_ [H1 [H2 [H3 _]]]].
  exact (conj H1 (conj H2 H3)).
Defined.

(** ** The connection manager *)

Lemma preserves_after X (f : world -> X) A B (m : M A) (k : A -> M B) e w :
  (forall a, preserves f (k a)) ->
  f (exec (bind m k) e w) = f (exec m e w).
Proof.
  intros Hk. unfold exec, bind. destruct (m e w) as [[a | x] w'].
  - apply (Hk a e w').
  - reflexivity.
Qed.

Lemma preserves_after_try X (f : world -> X) A (m : M A) (h : exn -> M A)
    e w :
  (forall x, preserves f (h x)) ->
  f (exec (try_except m h) e w) = f (exec m e w).
Proof.
  intros Hh. unfold exec, try_except. destruct (m e w) as [[a | x] w'].
  - reflexivity.
  - apply (Hh x e w').
Qed.

Lemma filter_m_preserves X (f : world -> X) A (g : A -> M bool) l :
  (forall x, preserves f (g x)) -> preserves f (filter_m g l).
Proof.
  intros Hg. induction l as [ | x l IH ]; cbn [filter_m].
  - apply preserves_ret.
  - apply preserves_bind; [ apply Hg | intro b ].
    apply preserves_bind; [ exact IH | intro r; apply preserves_ret ].
Qed.

Lemma collect_arduino_ports_preserves X (f : world -> X) ports acc :
  (forall device description,
     preserves f (print (MsgFound device description))) ->
  preserves f (collect_arduino_ports ports acc).
Proof.
  intros Hp. revert acc.
  induction ports as [ | [device description] ports IH ]; intro acc;
    cbn [collect_arduino_ports].
  - apply preserves_ret.
  - destruct (is_arduino device); [ | apply IH ].
    apply preserves_bind; [ apply Hp | intros _; apply IH ].
Qed.

Lemma connect_loop_preserves X (f : world -> X) attempts :
  (forall attempt, preserves f (connect_attempt attempt)) ->
  preserves f (connect_loop attempts).
Proof.
  intros Ha. induction attempts as [ | attempt rest IH ]; cbn [connect_loop].
  - apply preserves_ret.
  - apply preserves_bind; [ apply Ha | intros [ | b] ].
    + exact IH.
    + apply preserves_ret.
Qed.

#[export] Hint Extern 1 (preserves _ (filter_m _ _)) =>
  apply filter_m_preserves; intro; frame : frame.
#[export] Hint Extern 1 (preserves _ (collect_arduino_ports _ _)) =>
  apply collect_arduino_ports_preserves; intros; frame : frame.
#[export] Hint Extern 1 (preserves _ (connect_loop _)) =>
  apply connect_loop_preserves; intro; unfold connect_attempt; frame : frame.

(** *** [self.running] *)

Lemma connect_running : preserves running connect.
Proof. unfold connect. frame. Qed.

Lemma disconnect_stops e w : running (exec disconnect e w) = false.
Proof.
  unfold disconnect.
  rewrite (preserves_after _ running _ _ (modify (with_running false))).
  - reflexivity.
  - intros _. frame.
Qed.

Lemma reconnect_stops e w : running (exec reconnect e w) = false.
Proof.
  unfold reconnect.
  change (exec (print MsgConnectionLostReconnecting ;;
                disconnect ;; sleep (seconds 2) ;; connect) e w)
    with (exec (disconnect ;; sleep (seconds 2) ;; connect) e
            (with_trace (trace w ++ [Print MsgConnectionLostReconnecting])
               w)).
  rewrite (preserves_after _ running _ _ disconnect).
  - apply disconnect_stops.
  - intros _. apply preserves_bind; [ frame | intros _; apply connect_running ].
Qed.

(** ** The supervised read loop *)

Lemma worker_iteration_returns : returns worker_iteration.
Proof. unfold worker_iteration. returning. Qed.

Lemma check_connection_attempts :
  preserves reconnect_attempts check_connection.
Proof. frame. Qed.

Lemma check_connection_running : preserves running check_connection.
Proof. frame. Qed.

(** A round that finds the connection down and may still reconnect calls
    [reconnect], and [reconnect] begins with [disconnect], which clears
    [self.running]; nothing later in the round sets it again. *)
Lemma worker_iteration_reconnect_stops e w :
  outcome check_connection e w = Val false ->
  reconnect_attempts w < max_reconnect_attempts ->
  running (exec worker_iteration e w) = false.
Proof.
  intros Hcheck Hra. unfold worker_iteration.
  rewrite preserves_after by (intro; frame).
  rewrite preserves_after_try by (intro; frame).
  pose proof (check_connection_attempts e w) as Hattempts.
  unfold exec, outcome in *. unfold bind at 1.
  destruct (check_connection e w) as [r w1]. cbn in Hcheck, Hattempts.
  subst r. cbn [negb].
  assert (Hlt : (reconnect_attempts w1 <? max_reconnect_attempts) = true)
    by (apply Z.ltb_lt; rewrite Hattempts; exact Hra).
  run. destruct (connection_lost w1); cbn; rewrite Hlt; cbn.
  all: match goal with
       | |- context [reconnect ?e1 ?w2] =>
           pose proof (reconnect_stops e1 w2) as Hstop;
           unfold exec in Hstop;
           destruct (reconnect e1 w2) as [[[ | ] | x] w3]
       end; cbn in *; exact Hstop.
Qed.

(** C8, on the code. In a round of the supervised loop that finds the
    connection down while fewer than five reconnect attempts are counted,
    the monitor reconnects; whether or not the reconnect succeeds, the
    round leaves [self.running] false, so the loop ends at its next test:
    it neither resumes reading nor reaches the longer back-off pause. *)
Theorem reconnect_ends_supervised_loop e w rounds :
  running w = true ->
  outcome check_connection e w = Val false ->
  reconnect_attempts w < max_reconnect_attempts ->
  running (exec worker_iteration e w) = false /\
  outcome (worker_loop (S (S rounds))) e w = Val Exited.
Proof.
  intros Hrun Hcheck Hra.
  pose proof (worker_iteration_reconnect_stops e w Hcheck Hra) as Hstop.
  split; [ exact Hstop | ].
  destruct (worker_iteration_returns e w) as [[] Hret].
  unfold outcome, exec in *. cbn [worker_loop]. unfold bind at 1, get.
  rewrite Hrun. unfold bind at 1.
  destruct (worker_iteration e w) as [r w1]. cbn in Hret, Hstop. subst r.
  unfold bind, get. rewrite Hstop. reflexivity.
Qed.

(** The device is unplugged, then back: the reconnect succeeds on the pinned
    port and is reported, and the worker thread is over all the same. *)
Lemma reconnect_ends_supervised_loop_witness :
  let w := with_running true connected_world in
  outcome (worker_loop 10) unplugged_once_env w = Val Exited /\
  running (exec worker_iteration unplugged_once_env w) = false /\
  In (Print MsgReconnected)
     (trace (exec worker_iteration unplugged_once_env w)).
Proof.
  pose proof
    (reconnect_ends_supervised_loop unplugged_once_env
       (with_running true connected_world) 8%nat
       eq_refl eq_refl eq_refl) as H.
  split; [ exact (proj2 H) | ]. split; [ exact (proj1 H) | ].
  vm_compute. tauto.
Defined.

(** ** [connect]: the bound on the attempts *)

Lemma adds_at_most_preserves A f k (m : M A) :
  preserves f m -> adds_at_most f k m.
Proof. intros H e w. rewrite (H e w). lia. Qed.

Lemma adds_at_most_bind A B f j k (m : M A) (h : A -> M B) :
  adds_at_most f j m -> (forall a, adds_at_most f k (h a)) ->
  adds_at_most f (j + k) (bind m h).
Proof.
  intros Hm Hh e w. specialize (Hm e w). unfold exec, bind in *.
  destruct (m e w) as [[a | x] w']; cbn in *.
  - specialize (Hh a e w'). unfold exec in Hh. lia.
  - lia.
Qed.

Lemma adds_at_most_try_except A f j k (m : M A) (h : exn -> M A) :
  adds_at_most f j m -> (forall x, adds_at_most f k (h x)) ->
  adds_at_most f (j + k) (try_except m h).
Proof.
  intros Hm Hh e w. specialize (Hm e w). unfold exec, try_except in *.
  destruct (m e w) as [[a | x] w']; cbn in *.
  - lia.
  - specialize (Hh x e w'). unfold exec in Hh. lia.
Qed.

Lemma find_available_arduino_port_scans :
  adds_at_most (fun w => scans (trace w)) 1 find_available_arduino_port.
Proof.
  intros e w. unfold find_available_arduino_port.
  change (exec (print MsgScanning ;; emit Comports ;;
                ports <- ask comports ;;
                arduino_ports <- collect_arduino_ports ports [] ;;
                ret (dict_fromkeys (fold_left extend_ports arduino_ports [])))
            e w)
    with (exec (ports <- ask comports ;;
                arduino_ports <- collect_arduino_ports ports [] ;;
                ret (dict_fromkeys (fold_left extend_ports arduino_ports [])))
            e (with_trace ((trace w ++ [Print MsgScanning]) ++ [Comports]) w)).
  assert (H : preserves (fun w => scans (trace w))
                (ports <- ask comports ;;
                 arduino_ports <- collect_arduino_ports ports [] ;;
                 ret (dict_fromkeys
                        (fold_left extend_ports arduino_ports []))))
    by frame.
  rewrite (H e _). cbn. unfold scans. rewrite !count_events_app. cbn. lia.
Qed.

Lemma connect_attempt_scans attempt :
  adds_at_most (fun w => scans (trace w)) 1 (connect_attempt attempt).
Proof.
  unfold connect_attempt.
  apply (adds_at_most_try_except _ _ 1 0);
    [ | intro; apply adds_at_most_preserves; frame ].
  apply (adds_at_most_bind _ _ _ 0 1);
    [ apply adds_at_most_preserves; frame | intro w ].
  apply (adds_at_most_bind _ _ _ 1 0);
    [ | intro; apply adds_at_most_preserves; frame ].
  destruct (negb (truthy (port w)));
    [ | apply adds_at_most_preserves; frame ].
  apply (adds_at_most_bind _ _ _ 1 0);
    [ apply find_available_arduino_port_scans
    | intro; apply adds_at_most_preserves; frame ].
Qed.

Lemma connect_attempt_connections attempt :
  adds_at_most (fun w => connection_attempts (trace w)) 1
    (connect_attempt attempt).
Proof.
  unfold connect_attempt.
  apply (adds_at_most_try_except _ _ 1 0);
    [ | intro; apply adds_at_most_preserves; frame ].
  apply (adds_at_most_bind _ _ _ 0 1);
    [ apply adds_at_most_preserves; frame | intro w ].
  apply (adds_at_most_bind _ _ _ 0 1);
    [ apply adds_at_most_preserves; frame | intros [ctl | ] ];
    [ apply adds_at_most_preserves; frame | ].
  apply (adds_at_most_bind _ _ _ 0 1);
    [ apply adds_at_most_preserves; frame | intro w1 ].
  apply (adds_at_most_bind _ _ _ 1 0);
    [ | intro; apply adds_at_most_preserves; frame ].
  intros e w2. cbn. unfold connection_attempts.
  rewrite count_events_app. cbn. lia.
Qed.

Lemma connect_loop_at_most f attempts :
  (forall attempt, adds_at_most f 1 (connect_attempt attempt)) ->
  adds_at_most f (List.length attempts) (connect_loop attempts).
Proof.
  intros Ha. induction attempts as [ | attempt rest IH ];
    cbn [connect_loop List.length].
  - apply adds_at_most_preserves, preserves_ret.
  - apply (adds_at_most_bind _ _ _ 1 (List.length rest)); [ apply Ha | ].
    intros [ | b ]; [ exact IH | ].
    apply adds_at_most_preserves, preserves_ret.
Qed.

(** ** [connect]: one attempt *)

Lemma connect_attempt_phases attempt :
  connect_attempt attempt =
  try_except
    (w <- get ;;
     early <- (if negb (truthy (port w)) then discover_phase attempt
               else ret None) ;;
     match early with
     | Some ctl => ret ctl
     | None => open_phase
     end)
    (connect_handler attempt).
Proof. reflexivity. Qed.

Lemma answers_bind A B (P : B -> Prop) (m : M A) (k : A -> M B) :
  (forall a, answers P (k a)) -> answers P (bind m k).
Proof.
  intros Hk e w b. unfold outcome, bind.
  destruct (m e w) as [[a | x] w']; [ apply (Hk a e w' b) | discriminate ].
Qed.

Lemma answers_ret A (P : A -> Prop) (a : A) : P a -> answers P (ret a).
Proof. intros H e w b [= <-]. exact H. Qed.

Lemma open_phase_answers : answers (fun ctl => ctl = Return true) open_phase.
Proof.
  unfold open_phase. repeat (apply answers_bind; intro).
  apply answers_ret. reflexivity.
Qed.

Lemma ends_with_retry_delay_snoc t :
  ends_with_retry_delay (t ++ [Sleep (seconds retry_delay)]).
Proof. exists t. reflexivity. Qed.

(** The handler answers [Continue] only for a busy port: it then clears the
    pin, after the pause when another attempt follows. *)
Lemma connect_handler_continue attempt x e w :
  outcome (connect_handler attempt x) e w = Val Continue ->
  port (exec (connect_handler attempt x) e w) = None /\
  (attempt < max_retries - 1 ->
   ends_with_retry_delay (trace (exec (connect_handler attempt x) e w))).
Proof.
  unfold connect_handler, outcome, exec.
  destruct (exn_cls x); try (run; discriminate).
  destruct (resource_busy x); [ | run; discriminate ].
  destruct (attempt <? max_retries - 1) eqn:E; run; intros _.
  - split; [ reflexivity | ]. intros _. apply ends_with_retry_delay_snoc.
  - split; [ reflexivity | ]. intros H. apply Z.ltb_ge in E.
    unfold max_retries in *. lia.
Qed.

(** Running a [bind] backwards: either the first part returned and the rest
    ran from there, or the first part raised. *)
Lemma bind_inv A B (m : M A) (k : A -> M B) e w r w' :
  bind m k e w = (r, w') ->
  (exists a w1, m e w = (Val a, w1) /\ k a e w1 = (r, w')) \/
  (exists x, m e w = (Raise x, w') /\ r = Raise x).
Proof.
  unfold bind. destruct (m e w) as [[a | x] w1]; intros H.
  - left. exists a, w1. split; [ reflexivity | exact H ].
  - right. exists x. injection H as <- <-. split; reflexivity.
Qed.

(** The first part of a [bind] that returned a value returned itself. *)
Ltac bind_returned H a w1 Hm :=
  apply bind_inv in H;
  destruct H as [[a [w1 [Hm H]]] | [? [_ H]]]; [ | discriminate H ].

Lemma exec_of A (m : M A) e w r w' : m e w = (r, w') -> exec m e w = w'.
Proof. intros H. unfold exec. rewrite H. reflexivity. Qed.

(** The discovery answers [Continue] only when no candidate can be opened:
    it leaves the pin as it was, after the pause when another attempt
    follows. *)
Lemma discover_phase_continue attempt e w w' :
  discover_phase attempt e w = (Val (Some Continue), w') ->
  port w' = port w /\
  (attempt < max_retries - 1 -> ends_with_retry_delay (trace w')).
Proof.
  unfold discover_phase. intros H.
  bind_returned H available w1 Hfind.
  assert (Hp1 : port w1 = port w).
  { rewrite <- (exec_of _ _ _ _ _ _ Hfind).
    assert (Hf : preserves port find_available_arduino_port) by frame.
    apply Hf. }
  destruct available as [ | p0 rest ]; [ discriminate H | ].
  bind_returned H u w2 Hprint. injection Hprint as _ <-.
  bind_returned H working w3 Hfilter.
  assert (Hp3 : port w3 = port w1).
  { rewrite <- (exec_of _ _ _ _ _ _ Hfilter).
    assert (Hf : preserves port (filter_m test_port (p0 :: rest))) by frame.
    rewrite (Hf e _). reflexivity. }
  destruct working as [ | first others ]; [ | discriminate H ].
  destruct (attempt <? max_retries - 1) eqn:E;
    injection H as <-; cbn.
  - split; [ congruence | ]. intros _. apply ends_with_retry_delay_snoc.
  - split; [ congruence | ]. intros H. apply Z.ltb_ge in E.
    unfold max_retries in *. lia.
Qed.

(** An attempt after which the loop goes on leaves no pin, and ends with
    the pause unless it was the last one. *)
Lemma connect_attempt_continue attempt e w w' :
  connect_attempt attempt e w = (Val Continue, w') ->
  truthy (port w') = false /\
  (attempt < max_retries - 1 -> ends_with_retry_delay (trace w')).
Proof.
  rewrite connect_attempt_phases. unfold try_except.
  destruct (bind get _ e w) as [[ctl | x] w1] eqn:Hbody.
  - intros [= -> ->].
    bind_returned Hbody w0 w1 Hget. injection Hget as <- <-.
    bind_returned Hbody early w2 Hearly.
    destruct early as [ctl | ].
    + injection Hbody as -> ->.
      destruct (truthy (port w)) eqn:Hpin; cbn [negb] in Hearly;
        [ discriminate Hearly | ].
      destruct (discover_phase_continue attempt e w w' Hearly) as [Hp Hd].
      split; [ rewrite Hp; exact Hpin | exact Hd ].
    + pose proof (open_phase_answers e w2 Continue) as Ho.
      unfold outcome in Ho. rewrite Hbody in Ho.
      specialize (Ho eq_refl). discriminate Ho.
  - intros H.
    pose proof (connect_handler_continue attempt x e w1) as Hh.
    unfold outcome, exec in Hh. rewrite H in Hh.
    destruct (Hh eq_refl) as [Hp Hd]. cbn in Hp, Hd.
    split; [ rewrite Hp; reflexivity | exact Hd ].
Qed.

(** A busy failure on the pinned port: the attempt answers [Continue] and
    the pin is cleared. *)
Lemma connect_attempt_pinned_busy attempt e w x :
  truthy (port w) = true ->
  serial_open e (tick w) (port w) = Some x ->
  exn_cls x = SerialException -> resource_busy x = true ->
  outcome (connect_attempt attempt) e w = Val Continue /\
  port (exec (connect_attempt attempt) e w) = None.
Proof.
  intros Hpin Hopen Hcls Hbusy.
  rewrite connect_attempt_phases.
  unfold open_phase, connect_handler, open_serial, outcome, exec.
  destruct (attempt <? max_retries - 1); run.
  all: rewrite Hpin; cbn; rewrite Hopen; cbn; rewrite Hcls, Hbusy; cbn.
  all: split; reflexivity.
Qed.

Lemma find_available_arduino_port_scans_once e w :
  scans (trace (exec find_available_arduino_port e w)) =
  S (scans (trace w)).
Proof.
  pose proof (find_available_arduino_port_scans e w) as H. cbv beta in H.
  unfold find_available_arduino_port in *.
  change (exec (print MsgScanning ;; emit Comports ;;
                ports <- ask comports ;;
                arduino_ports <- collect_arduino_ports ports [] ;;
                ret (dict_fromkeys (fold_left extend_ports arduino_ports [])))
            e w)
    with (exec (ports <- ask comports ;;
                arduino_ports <- collect_arduino_ports ports [] ;;
                ret (dict_fromkeys (fold_left extend_ports arduino_ports [])))
            e (with_trace ((trace w ++ [Print MsgScanning]) ++ [Comports]) w)).
  assert (Hk : preserves (fun w => scans (trace w))
                 (ports <- ask comports ;;
                  arduino_ports <- collect_arduino_ports ports [] ;;
                  ret (dict_fromkeys
                         (fold_left extend_ports arduino_ports []))))
    by frame.
  rewrite (Hk e _). cbn. unfold scans. rewrite !count_events_app. cbn. lia.
Qed.

(** The [except] clause for a busy port, wherever in the attempt the port
    was found busy: the loop goes on and the pin is cleared. *)
Lemma connect_handler_busy attempt x e w :
  exn_cls x = SerialException -> resource_busy x = true ->
  outcome (connect_handler attempt x) e w = Val Continue /\
  port (exec (connect_handler attempt x) e w) = None.
Proof.
  intros Hcls Hbusy. unfold connect_handler, outcome, exec.
  rewrite Hcls, Hbusy.
  destruct (attempt <? max_retries - 1); run; split; reflexivity.
Qed.

(** An attempt without a pin scans the ports: it discovers again. *)
Lemma connect_attempt_unpinned_scans attempt e w :
  truthy (port w) = false ->
  scans (trace (exec (connect_attempt attempt) e w)) = S (scans (trace w)).
Proof.
  intros Hpin. rewrite connect_attempt_phases.
  rewrite (preserves_after_try _ (fun w => scans (trace w)))
    by (intro; unfold connect_handler; frame).
  change (exec (w0 <- get ;;
                early <- (if negb (truthy (port w0))
                          then discover_phase attempt else ret None) ;;
                match early with
                | Some ctl => ret ctl
                | None => open_phase
                end) e w)
    with (exec (early <- (if negb (truthy (port w))
                          then discover_phase attempt else ret None) ;;
                match early with
                | Some ctl => ret ctl
                | None => open_phase
                end) e w).
  rewrite Hpin. cbn [negb].
  rewrite (preserves_after _ (fun w => scans (trace w)))
    by (intro; unfold open_phase; frame).
  unfold discover_phase.
  rewrite (preserves_after _ (fun w => scans (trace w))) by (intro; frame).
  apply find_available_arduino_port_scans_once.
Qed.

(** ** [connect] when every port is busy *)

Lemma run_eq A (m : M A) e w r :
  outcome m e w = r -> m e w = (r, exec m e w).
Proof.
  unfold outcome, exec. destruct (m e w) as [r' w']. cbn. intros ->.
  reflexivity.
Qed.

Lemma bind_val A B (m : M A) (k : A -> M B) e w a w1 :
  m e w = (Val a, w1) -> bind m k e w = k a e w1.
Proof. intros H. unfold bind. rewrite H. reflexivity. Qed.

Lemma bind_print B m (k : unit -> M B) e w :
  bind (print m) k e w = k tt e (with_trace (trace w ++ [Print m]) w).
Proof. reflexivity. Qed.

Lemma test_port_busy e w p :
  all_busy e -> outcome (test_port p) e w = Val false.
Proof.
  intros Hbusy. unfold test_port, open_serial, outcome. run.
  destruct (Hbusy (tick w) (Some p)) as [x [Hopen [Hcls Hb]]].
  rewrite Hopen. cbn. rewrite Hcls, Hb. reflexivity.
Qed.

Lemma filter_m_test_port_busy e l w :
  all_busy e -> outcome (filter_m test_port l) e w = Val [].
Proof.
  intros Hbusy. revert w. induction l as [ | p l IH ]; intro w;
    [ reflexivity | ].
  cbn [filter_m]. unfold outcome.
  rewrite (bind_val _ _ _ _ _ _ _ _ (run_eq _ _ _ _ _ (test_port_busy e w p Hbusy))).
  rewrite (bind_val _ _ _ _ _ _ _ _ (run_eq _ _ _ _ _ (IH _))).
  reflexivity.
Qed.

Lemma find_available_arduino_port_sleeps :
  preserves (fun w => sleeps (trace w)) find_available_arduino_port.
Proof. frame. Qed.

Lemma filter_m_test_port_sleeps l :
  preserves (fun w => sleeps (trace w)) (filter_m test_port l).
Proof. frame. Qed.

Lemma discover_phase_all_busy e attempt w :
  all_busy e ->
  (forall n, candidates (matching (comports e n)) <> []) ->
  outcome (discover_phase attempt) e w = Val (Some Continue) /\
  port (exec (discover_phase attempt) e w) = port w /\
  sleeps (trace (exec (discover_phase attempt) e w)) =
  sleeps (trace w)
  ++ (if attempt <? max_retries - 1 then [seconds retry_delay] else []).
Proof.
  intros Hbusy Hscan.
  assert (Hport1 : preserves port find_available_arduino_port) by frame.
  unfold discover_phase, outcome, exec.
  rewrite (bind_val _ _ _ _ _ _ _ _
             (run_eq _ _ _ _ _ (find_available_arduino_port_outcome e w))).
  specialize (Hscan (tick w)).
  destruct (candidates (matching (comports e (tick w)))) as [ | p0 rest ];
    [ contradiction | ].
  rewrite bind_print.
  set (w2 := with_trace _ (exec find_available_arduino_port e w)).
  rewrite (bind_val _ _ _ _ _ _ _ _
             (run_eq _ _ _ _ _
                (filter_m_test_port_busy e (p0 :: rest) w2 Hbusy))).
  assert (Hport3 : preserves port (filter_m test_port (p0 :: rest)))
    by frame.
  pose proof (filter_m_test_port_sleeps (p0 :: rest) e w2) as Hs3.
  pose proof (find_available_arduino_port_sleeps e w) as Hs1.
  specialize (Hport3 e w2). specialize (Hport1 e w).
  cbv beta in Hs3, Hs1.
  set (w3 := exec (filter_m test_port (p0 :: rest)) e w2) in *.
  assert (Hs2 : sleeps (trace w2) = sleeps (trace w)).
  { unfold w2. cbn. rewrite sleeps_app, Hs1. cbn. apply app_nil_r. }
  assert (Hport : port w3 = port w)
    by (rewrite Hport3; unfold w2; cbn; exact Hport1).
  destruct (attempt <? max_retries - 1); run.
  - split; [ reflexivity | ]. split; [ exact Hport | ].
    rewrite !sleeps_app, Hs3, Hs2. cbn. rewrite !app_nil_r. reflexivity.
  - split; [ reflexivity | ]. split; [ exact Hport | ].
    rewrite !sleeps_app, Hs3, Hs2. cbn. rewrite !app_nil_r. reflexivity.
Qed.

Lemma connect_attempt_all_busy e attempt w :
  all_busy e ->
  (forall n, candidates (matching (comports e n)) <> []) ->
  outcome (connect_attempt attempt) e w = Val Continue /\
  sleeps (trace (exec (connect_attempt attempt) e w)) =
  sleeps (trace w)
  ++ (if attempt <? max_retries - 1 then [seconds retry_delay] else []).
Proof.
  intros Hbusy Hscan. rewrite connect_attempt_phases.
  destruct (truthy (port w)) eqn:Hpin.
  - destruct (Hbusy (tick w) (port w)) as [x [Hopen [Hcls Hb]]].
    unfold open_phase, connect_handler, open_serial, outcome, exec.
    destruct (attempt <? max_retries - 1); run.
    all: rewrite Hpin; cbn; rewrite Hopen; cbn; rewrite Hcls, Hb; cbn.
    all: split; [ reflexivity | ].
    all: rewrite !sleeps_app; cbn; rewrite ?app_nil_r; reflexivity.
  - destruct (discover_phase_all_busy e attempt w Hbusy Hscan)
      as [Hout [_ Hsl]].
    unfold outcome, exec, try_except in *.
    change (bind get ?k e w) with (k w e w). cbv beta.
    rewrite Hpin. cbn [negb].
    rewrite (bind_val _ _ _ _ _ _ _ _ (run_eq _ _ _ _ _ Hout)).
    cbn. split; [ reflexivity | exact Hsl ].
Qed.

Lemma range_max_retries : range max_retries = [0; 1; 2].
Proof. reflexivity. Qed.

(** C6. [connect] runs its discover-and-connect cycle for the attempts 0, 1
    and 2 and no more: at most three scans and three openings of the
    connection, whatever the surroundings answer. Whenever an attempt ends
    with the loop going on, the pin is clear, and unless it was the last
    attempt the pause of [retry_delay] = 2 seconds is the last thing it did.
    A busy failure on the pinned port, and the handler of a busy failure
    wherever it was raised, make the loop go on with the pin cleared, and an
    attempt without a pin scans the ports again. When every
    port is busy at every attempt, each of the three attempts ends with the
    loop going on and [connect] answers [False] after the third, having
    paused twice, between the attempts. *)
Theorem connect_retries_three_times :
  (max_retries = 3 /\ retry_delay = 2) /\
  (forall e w,
     (scans (trace (exec connect e w)) <= scans (trace w) + 3)%nat /\
     (connection_attempts (trace (exec connect e w)) <=
      connection_attempts (trace w) + 3)%nat) /\
  (forall attempt e w w',
     connect_attempt attempt e w = (Val Continue, w') ->
     truthy (port w') = false /\
     (attempt < max_retries - 1 -> ends_with_retry_delay (trace w'))) /\
  (forall attempt e w x,
     truthy (port w) = true ->
     serial_open e (tick w) (port w) = Some x ->
     exn_cls x = SerialException -> resource_busy x = true ->
     outcome (connect_attempt attempt) e w = Val Continue /\
     port (exec (connect_attempt attempt) e w) = None) /\
  (forall attempt x e w,
     exn_cls x = SerialException -> resource_busy x = true ->
     outcome (connect_handler attempt x) e w = Val Continue /\
     port (exec (connect_handler attempt x) e w) = None) /\
  (forall attempt e w,
     truthy (port w) = false ->
     scans (trace (exec (connect_attempt attempt) e w)) =
     S (scans (trace w))) /\
  (forall e w,
     all_busy e ->
     (forall n, candidates (matching (comports e n)) <> []) ->
     let w1 := exec (connect_attempt 0) e w in
     let w2 := exec (connect_attempt 1) e w1 in
     let w3 := exec (connect_attempt 2) e w2 in
     outcome (connect_attempt 0) e w = Val Continue /\
     outcome (connect_attempt 1) e w1 = Val Continue /\
     outcome (connect_attempt 2) e w2 = Val Continue /\
     connect e w = (Val false, w3) /\
     sleeps (trace w3) =
     sleeps (trace w) ++ [seconds retry_delay; seconds retry_delay]).
Proof.
  split; [ split; reflexivity | ].
  split.
  { intros e w. unfold connect. rewrite range_max_retries. split.
    - apply (connect_loop_at_most (fun w => scans (trace w)) [0; 1; 2]
               connect_attempt_scans e w).
    - apply (connect_loop_at_most
               (fun w => connection_attempts (trace w)) [0; 1; 2]
               connect_attempt_connections e w). }
  split; [ exact connect_attempt_continue | ].
  split; [ exact connect_attempt_pinned_busy | ].
  split; [ exact connect_handler_busy | ].
  split; [ exact connect_attempt_unpinned_scans | ].
  intros e w Hbusy Hscan w1 w2 w3.
  destruct (connect_attempt_all_busy e 0 w Hbusy Hscan) as [H0 S0].
  destruct (connect_attempt_all_busy e 1 w1 Hbusy Hscan) as [H1 S1].
  destruct (connect_attempt_all_busy e 2 w2 Hbusy Hscan) as [H2 S2].
  fold w1 in S0. fold w2 in S1. fold w3 in S2.
  repeat split; try assumption.
  - unfold connect. rewrite range_max_retries. cbn [connect_loop].
    rewrite (bind_val _ _ _ _ _ _ _ _ (run_eq _ _ _ _ _ H0)). fold w1.
    rewrite (bind_val _ _ _ _ _ _ _ _ (run_eq _ _ _ _ _ H1)). fold w2.
    rewrite (bind_val _ _ _ _ _ _ _ _ (run_eq _ _ _ _ _ H2)). fold w3.
    reflexivity.
  - rewrite S2, S1, S0. cbn. rewrite app_nil_r, <- app_assoc. reflexivity.
Qed.

Lemma all_busy_busy_env : all_busy busy_env.
Proof.
  intros n p. exists busy_error. repeat split; reflexivity.
Qed.

(** Scenario D: the only candidate is busy at all three attempts; [connect]
    answers [False] after three attempts, with the two pauses between
    them. *)
Lemma connect_retries_three_times_witness :
  let w := init_world None None in
  outcome connect busy_env w = Val false /\
  scans (trace (exec connect busy_env w)) = 3%nat /\
  sleeps (trace (exec connect busy_env w)) =
  [seconds retry_delay; seconds retry_delay].
Proof.
  pose proof
    (proj2 (proj2 (proj2 (proj2 (proj2 (proj2
       connect_retries_three_times)))))
       busy_env (init_world None None) all_busy_busy_env
       (fun n => ltac:(discriminate))) as H.
  cbv zeta in H. destruct H as [_ [_ [_ [Hc Hs]]]].
  split; [ unfold outcome; rewrite Hc; reflexivity | ].
  split; [ reflexivity | ].
  unfold exec. rewrite Hc. exact Hs.
Defined.

(** ** [split] and [replace] never run out of rounds *)

Lemma nonempty_length sep :
  String.prefix sep "" = false -> (1 <= String.length sep)%nat.
Proof. destruct sep; cbn; [ discriminate | lia ]. Qed.

Lemma split_fuel_enough sep s fuel fuel' :
  String.prefix sep "" = false ->
  (String.length s <= fuel)%nat -> (String.length s <= fuel')%nat ->
  PyStr.split_fuel fuel sep s = PyStr.split_fuel fuel' sep s.
Proof.
  intros Hsep. pose proof (nonempty_length sep Hsep) as Hlen.
  revert s fuel'. induction fuel as [ | fuel IH ]; intros s fuel' H H'.
  - destruct fuel'; cbn [PyStr.split_fuel];
      destruct (PyStr.partition sep s) as [[a b] | ] eqn:E;
      try reflexivity.
    apply partition_length in E. lia.
  - cbn [PyStr.split_fuel].
    destruct (PyStr.partition sep s) as [[a b] | ] eqn:E.
    + pose proof (partition_length sep s a b E) as Hl.
      destruct fuel'; [ lia | ]. cbn [PyStr.split_fuel]. rewrite E.
      f_equal. apply IH; lia.
    + destruct fuel'; cbn [PyStr.split_fuel]; rewrite E; reflexivity.
Qed.

Lemma replace_fuel_enough old new s fuel fuel' :
  String.prefix old "" = false ->
  (String.length s <= fuel)%nat -> (String.length s <= fuel')%nat ->
  PyStr.replace_fuel fuel old new s = PyStr.replace_fuel fuel' old new s.
Proof.
  intros Hold. pose proof (nonempty_length old Hold) as Hlen.
  revert s fuel'. induction fuel as [ | fuel IH ]; intros s fuel' H H'.
  - destruct fuel'; cbn [PyStr.replace_fuel];
      destruct (PyStr.partition old s) as [[a b] | ] eqn:E;
      try reflexivity.
    apply partition_length in E. lia.
  - cbn [PyStr.replace_fuel].
    destruct (PyStr.partition old s) as [[a b] | ] eqn:E.
    + pose proof (partition_length old s a b E) as Hl.
      destruct fuel'; [ lia | ]. cbn [PyStr.replace_fuel]. rewrite E.
      do 2 f_equal. apply IH; lia.
    + destruct fuel'; cbn [PyStr.replace_fuel]; rewrite E; reflexivity.
Qed.

(** The unfolding equations of [split] and [replace]: cut at the leftmost
    occurrence and go on in the rest, to the end of the string. *)
Lemma split_unfold sep s :
  String.prefix sep "" = false ->
  PyStr.split sep s =
  match PyStr.partition sep s with
  | Some (a, b) => a :: PyStr.split sep b
  | None => [s]
  end.
Proof.
  intros Hsep. pose proof (nonempty_length sep Hsep) as Hlen.
  unfold PyStr.split. destruct s as [ | c s ].
  - cbn [String.length PyStr.split_fuel].
    destruct (PyStr.partition sep "") as [[a b] | ] eqn:E; [ | reflexivity ].
    apply partition_length in E. cbn in E. lia.
  - cbn [String.length PyStr.split_fuel].
    destruct (PyStr.partition sep (String c s)) as [[a b] | ] eqn:E;
      [ | reflexivity ].
    apply partition_length in E. cbn [String.length] in E.
    f_equal. apply split_fuel_enough; [ exact Hsep | lia | lia ].
Qed.

Lemma replace_unfold old new s :
  String.prefix old "" = false ->
  PyStr.replace old new s =
  match PyStr.partition old s with
  | Some (a, b) => (a ++ new ++ PyStr.replace old new b)%string
  | None => s
  end.
Proof.
  intros Hold. pose proof (nonempty_length old Hold) as Hlen.
  unfold PyStr.replace. destruct s as [ | c s ].
  - cbn [String.length PyStr.replace_fuel].
    destruct (PyStr.partition old "") as [[a b] | ] eqn:E; [ | reflexivity ].
    apply partition_length in E. cbn in E. lia.
  - cbn [String.length PyStr.replace_fuel].
    destruct (PyStr.partition old (String c s)) as [[a b] | ] eqn:E;
      [ | reflexivity ].
    apply partition_length in E. cbn [String.length] in E.
    do 2 f_equal. apply replace_fuel_enough; [ exact Hold | lia | lia ].
Qed.

(** ** Runs on concrete inputs *)

Example split_examples :
  PyStr.split "Queue=" "Queue=3,x" = [""; "3,x"] /\
  PyStr.split "," "3,x,y" = ["3"; "x"; "y"] /\
  PyStr.split1 ":" "BPM:Value=72:x" = ["BPM"; "Value=72:x"] /\
  PyStr.split1 ":" "BPM" = ["BPM"].
Proof. repeat split; reflexivity. Qed.

Example int_examples :
  PyStr.int " 12 " = Some 12 /\ PyStr.int "-7" = Some (-7) /\
  PyStr.int "+5" = Some 5 /\ PyStr.int "007" = Some 7 /\
  PyStr.int "1_000" = Some 1000 /\ PyStr.int "1__0" = None /\
  PyStr.int "_1" = None /\ PyStr.int "1_" = None /\
  PyStr.int "" = None /\ PyStr.int "7a" = None /\ PyStr.int "+ 5" = None /\
  PyStr.int "7.5" = None.
Proof. repeat split; reflexivity. Qed.

Example replace_examples :
  PyStr.replace "cu." "tty." "/dev/cu.usbmodem1" = "/dev/tty.usbmodem1" /\
  PyStr.replace "Reading=" "" "Reading=512" = "512" /\
  PyStr.replace "aa" "b" "aaaaa" = "bba".
Proof. repeat split; reflexivity. Qed.

Example str_examples :
  PyStr.str 0 = "0" /\ PyStr.str (-15) = "-15" /\ PyStr.str 512 = "512".
Proof. repeat split; reflexivity. Qed.

Example is_arduino_examples :
  is_arduino "/dev/cu.usbmodem14101" = true /\
  is_arduino "/dev/tty.USBSERIAL-A1" = true /\
  is_arduino "/dev/ttyS0" = false.
Proof. repeat split; reflexivity. Qed.

(** Scenario A: a detection, a reading and a heart rate give one record for
    patient 1 in the store, and the pending fields are empty again. *)
Example scenario_A :
  let w :=
    exec (handle_lines
            ["DETECT:Queue=1,x"; "HEARTBEAT:Reading=512"; "BPM:Value=72"])
      quiet_env (world_at 0) in
  csv_file w = Some [csv_header; ["1"; "2025-01-01 12:00:00"; "72"; "512"]] /\
  current_patient_number w = 1 /\
  last_bpm w = None /\ last_heartbeat w = None /\ flushes (trace w) = 1%nat.
Proof. repeat split; reflexivity. Qed.

(** With the pair arriving the other way round, the record is flushed only
    by the next BPM line, with that line's heart rate. *)
Example heartbeat_after_bpm :
  let w :=
    exec (handle_lines ["BPM:72"; "HEARTBEAT:512"; "BPM:75"])
      quiet_env (world_at 1) in
  csv_file w = Some [csv_header; ["1"; "2025-01-01 12:00:00"; "75"; "512"]] /\
  last_bpm w = None /\ last_heartbeat w = None.
Proof. repeat split; reflexivity. Qed.

(** A reconnect that fails leaves the worker thread just as dead. *)
Example failed_reconnect_ends_loop :
  let e :=
    Env (now busy_env) (comports busy_env) (serial_open busy_env)
      (serial_close busy_env) (in_waiting unplugged_once_env)
      (reset_input_buffer busy_env) (readline_decode busy_env)
      (csv_read busy_env) (csv_write busy_env) (csv_opened busy_env)
      (requests_get busy_env) in
  outcome (serial_worker 10) e connected_world = Val Exited /\
  ~ In (Print MsgReconnected)
      (trace (exec (serial_worker 10) e connected_world)) /\
  ~ In (Print MsgMaxReconnect)
      (trace (exec (serial_worker 10) e connected_world)).
Proof.
  split; [ reflexivity | ].
  split; vm_compute; intuition discriminate.
Qed.

(** ** The well-formed [DETECT] lines *)

Lemma partition_here sep t :
  String.prefix sep (sep ++ t)%string = true.
Proof. induction sep as [ | c sep IH ]; cbn.
  - destruct t; reflexivity.
  - destruct (Ascii.ascii_dec c c); [ exact IH | contradiction ].
Qed.

Lemma drop_append sep t :
  PyStr.drop (String.length sep) (sep ++ t)%string = t.
Proof. induction sep as [ | c sep IH ]; cbn; [ reflexivity | exact IH ]. Qed.

Lemma partition_at_start sep t :
  PyStr.partition sep (sep ++ t)%string = Some (EmptyString, t).
Proof.
  destruct (sep ++ t)%string eqn:E; cbn [PyStr.partition];
    rewrite <- E, partition_here, drop_append; reflexivity.
Qed.

(** A separator cannot begin inside a stretch of text that lacks its first
    character. *)
Lemma partition_skip q sep d t :
  forallb (fun c => negb (Ascii.eqb c q)) (list_ascii_of_string d) = true ->
  PyStr.partition (String q sep) (d ++ t)%string =
  match PyStr.partition (String q sep) t with
  | Some (a, b) => Some ((d ++ a)%string, b)
  | None => None
  end.
Proof.
  induction d as [ | c d IH ]; intros H.
  - cbn [append]. destruct (PyStr.partition _ t) as [[a b] | ]; reflexivity.
  - cbn [list_ascii_of_string forallb] in H. apply andb_prop in H.
    destruct H as [Hc Hd]. apply negb_true_iff, Ascii.eqb_neq in Hc.
    cbn [append PyStr.partition String.prefix].
    destruct (Ascii.ascii_dec q c) as [-> | _]; [ contradiction | ].
    rewrite (IH Hd).
    destruct (PyStr.partition _ t) as [[a b] | ]; reflexivity.
Qed.

Lemma append_empty (s : string) : (s ++ "")%string = s.
Proof. induction s as [ | c s IH ]; cbn; [ | rewrite IH ]; reflexivity. Qed.

Lemma plain_of_uint d :
  forallb plain_char (list_ascii_of_string (NilEmpty.string_of_uint d)) = true.
Proof. induction d; cbn; try rewrite IHd; reflexivity. Qed.

Lemma plain_str n :
  forallb plain_char (list_ascii_of_string (PyStr.str n)) = true.
Proof.
  unfold PyStr.str.
  destruct (Z.to_int n) as [d | d]; cbn [NilZero.string_of_int];
    unfold NilZero.string_of_uint.
  - destruct d; try reflexivity; apply plain_of_uint.
  - cbn [list_ascii_of_string forallb].
    destruct d; try reflexivity; apply plain_of_uint.
Qed.

Lemma plain_lacks q s :
  plain_char q = false ->
  forallb plain_char (list_ascii_of_string s) = true ->
  forallb (fun c => negb (Ascii.eqb c q)) (list_ascii_of_string s) = true.
Proof.
  intros Hq. induction s as [ | c s IH ]; cbn; [ reflexivity | ].
  intros H. apply andb_prop in H. destruct H as [Hc Hs].
  rewrite (IH Hs), andb_true_r.
  destruct (Ascii.eqb c q) eqn:E; [ | reflexivity ].
  apply Ascii.eqb_eq in E. subst c. congruence.
Qed.

Lemma plain_no_space s :
  forallb plain_char (list_ascii_of_string s) = true -> no_space s = true.
Proof.
  induction s as [ | c s IH ]; cbn; [ reflexivity | ].
  intros H. apply andb_prop in H. destruct H as [Hc Hs].
  rewrite (IH Hs), andb_true_r.
  destruct (PyStr.is_space c) eqn:E; [ | reflexivity ].
  destruct c as [[] [] [] [] [] [] [] []]; cbn in *; discriminate.
Qed.

(** The first [','] field of [str(n)] followed by nothing or by a comma and
    anything is [str(n)]. *)
Lemma first_field_of_str n tail :
  tail = EmptyString \/ (exists r, tail = String "," r) ->
  nth_error (PyStr.split "," (PyStr.str n ++ tail)%string) 0 =
  Some (PyStr.str n).
Proof.
  intros Htail. rewrite (split_unfold "," _ eq_refl).
  rewrite (partition_skip "," "" (PyStr.str n) tail
             (plain_lacks "," _ eq_refl (plain_str n))).
  destruct Htail as [-> | [r ->]].
  - cbn [PyStr.partition String.prefix]. cbn [nth_error].
    rewrite append_empty. reflexivity.
  - change (String "," r) with ("," ++ r)%string.
    rewrite (partition_at_start "," r). cbn [nth_error].
    rewrite append_empty. reflexivity.
Qed.

(** Every line [DETECT:<before>Queue=<n>] and
    [DETECT:<before>Queue=<n>,<anything>] carries the patient number [n],
    for a number that [int] reads back and a text [before] without a
    ['Q']. *)
Lemma detected_patient_wellformed before n rest :
  lacks "Q" before = true ->
  PyStr.fits n ->
  rest = EmptyString \/ (exists r, rest = String "," r) ->
  detected_patient
    ("DETECT:" ++ before ++ "Queue=" ++ PyStr.str n ++ rest)%string = Some n.
Proof.
  intros Hbefore Hfits Hrest. unfold detected_patient.
  change ("DETECT:" ++ before ++ "Queue=" ++ PyStr.str n ++ rest)%string
    with ("DETECT" ++ ":" ++ before ++ "Queue=" ++ PyStr.str n ++ rest)%string.
  set (value := (before ++ "Queue=" ++ PyStr.str n ++ rest)%string).
  assert (Hpart : PyStr.partition ":" ("DETECT" ++ ":" ++ value)%string
                  = Some ("DETECT", value)).
  { rewrite (partition_skip ":" "" "DETECT" (":" ++ value)%string eq_refl).
    rewrite (partition_at_start ":" value). reflexivity. }
  rewrite contains_partition. unfold PyStr.split1. rewrite Hpart.
  cbn [is_some negb]. change (String.eqb "DETECT" "DETECT") with true.
  assert (Hq : PyStr.partition "Queue=" value
               = Some (before, (PyStr.str n ++ rest)%string)).
  { unfold value.
    rewrite (partition_skip "Q" "ueue=" before _ Hbefore).
    rewrite (partition_at_start "Queue=" (PyStr.str n ++ rest)%string).
    rewrite append_empty. reflexivity. }
  rewrite contains_partition, Hq. cbn [is_some andb].
  rewrite (split_unfold "Queue=" value eq_refl), Hq. cbn [nth_error].
  rewrite (split_unfold "Queue=" _ eq_refl).
  rewrite (partition_skip "Q" "ueue=" (PyStr.str n) rest
             (plain_lacks "Q" _ eq_refl (plain_str n))).
  assert (Hfield : forall tail,
            tail = EmptyString \/ (exists r, tail = String "," r) ->
            match nth_error (PyStr.split "," (PyStr.str n ++ tail)%string) 0
            with
            | Some queue_part => PyStr.int (PyStr.strip queue_part)
            | None => None
            end = Some n).
  { intros tail Ht. rewrite (first_field_of_str n tail Ht).
    rewrite (strip_no_space _ (plain_no_space _ (plain_str n))).
    apply int_str. exact Hfits. }
  destruct Hrest as [-> | [r ->]].
  - cbn [PyStr.partition String.prefix nth_error].
    apply Hfield. left. reflexivity.
  - change (String "," r) with ("," ++ r)%string.
    rewrite (partition_skip "Q" "ueue=" "," r eq_refl).
    destruct (PyStr.partition "Queue=" r) as [[a b] | ]; cbn [nth_error];
      apply Hfield; right; eexists; reflexivity.
Qed.




(** From counter 5, a heart-rate line leaves the counter at 5 and a
    detection of patient 3 moves it to 6. *)
Lemma counter_never_decreases_witness :
  current_patient_number
    (exec (parse_data "BPM:Value=72") quiet_env (world_at 5)) = 5 /\
  5 + 1 <=
  current_patient_number
    (exec (parse_data "DETECT:Queue=3") quiet_env (world_at 5)).
Proof.
  split.
  - exact (proj1 (proj2
             (counter_never_decreases quiet_env (world_at 5) "BPM:Value=72"))
             eq_refl).
  - exact (proj1
             (counter_never_decreases quiet_env (world_at 5)
                "DETECT:Queue=3") 3 eq_refl).
Defined.

(** * Further properties of the code *)

(** ** The telemetry sink *)

(** X1. [send_to_thingspeak] never raises. It answers [True] exactly when
    the upload is enabled and the sink replies with status 200 and a body
    other than ["0"]: any other status, a body ["0"] and every exception of
    the request give [False]. When the upload is disabled it asks neither
    the clock nor the network: it only reports that. *)
Theorem sink_verdict e w p b h :
  outcome (send_to_thingspeak p b h) e w =
    Val (thingspeak_enabled w
         && accepted (requests_get e (S (tick w)) p b h (now e (tick w))))
  /\
  (if thingspeak_enabled w then
     exists reply,
       exec (send_to_thingspeak p b h) e w =
       with_trace
         (trace w
          ++ [Print (MsgSending p b h); HttpGet p b h (now e (tick w))]
          ++ reply)
         (with_tick (S (S (tick w))) w)
       /\ forall f1 f2 f3 f4, ~ In (HttpGet f1 f2 f3 f4) reply
   else
     exec (send_to_thingspeak p b h) e w =
     with_trace (trace w ++ [Print MsgThingSpeakDisabled]) w).
Proof.
  unfold outcome, exec. destruct (thingspeak_enabled w) eqn:Hen.
  - rewrite (send_to_thingspeak_enabled e w p b h Hen). cbv zeta. cbn [fst snd].
    split.
    + unfold sink_reply, accepted.
      destruct (requests_get e (S (tick w)) p b h (now e (tick w)))
        as [status_code entry_id | x]; [ | reflexivity ].
      destruct (status_code =? 200); [ | reflexivity ].
      destruct (String.eqb entry_id "0"); reflexivity.
    + eexists. split; [ reflexivity | ].
      intros f1 f2 f3 f4. unfold sink_reply.
      destruct (requests_get e (S (tick w)) p b h (now e (tick w)))
        as [status_code entry_id | x].
      * destruct (status_code =? 200);
          [ destruct (negb (String.eqb entry_id "0")) | ];
          cbn; intuition discriminate.
      * cbn. intuition discriminate.
  - rewrite (send_to_thingspeak_disabled e w p b h Hen). split; reflexivity.
Qed.

(** ** The flush *)

Lemma save_patient_data_file e w b h :
  last_bpm w = Some b -> last_heartbeat w = Some h ->
  csv_write e (S (tick w)) = None ->
  csv_file (exec save_patient_data e w) =
  Some (file_rows w
        ++ [csv_row (current_patient_number w) (now e (tick w)) b h]) /\
  last_bpm (exec save_patient_data e w) = None /\
  last_heartbeat (exec save_patient_data e w) = None /\
  current_patient_number (exec save_patient_data e w) =
  current_patient_number w.
Proof.
  intros Hb Hh Hx. unfold exec.
  rewrite (save_patient_data_store_ok e w b h Hb Hh Hx). cbv zeta. cbn [snd].
  split; [ | split; [ reflexivity | split; [ reflexivity | ] ] ].
  - cbn. destruct (thingspeak_enabled w); [ | reflexivity ].
    match goal with
    | |- context [exec (send_to_thingspeak ?p1 ?b1 ?h1) ?e1 ?w1] =>
        pose proof (send_to_thingspeak_file p1 b1 h1 e1 w1) as Hf;
        destruct (outcome (send_to_thingspeak p1 b1 h1) e1 w1)
          as [[ | ] | ?]
    end; cbn; rewrite Hf; reflexivity.
  - cbn. destruct (thingspeak_enabled w); [ | reflexivity ].
    match goal with
    | |- context [exec (send_to_thingspeak ?p1 ?b1 ?h1) ?e1 ?w1] =>
        pose proof (send_to_thingspeak_counter p1 b1 h1 e1 w1) as Hf;
        destruct (outcome (send_to_thingspeak p1 b1 h1) e1 w1)
          as [[ | ] | ?]
    end; cbn; rewrite Hf; reflexivity.
Qed.

(** X2. With the upload switched off, a flush only touches the store: the
    row is appended and reported, both pending fields are cleared, and no
    request goes to the sink. *)
Theorem flush_with_upload_disabled e w b h :
  last_bpm w = Some b -> last_heartbeat w = Some h ->
  csv_write e (S (tick w)) = None ->
  thingspeak_enabled w = false ->
  save_patient_data e w =
  (Val tt,
   let row := csv_row (current_patient_number w) (now e (tick w)) b h in
   with_last_heartbeat None
     (with_last_bpm None
        (with_trace
           (trace w
            ++ [CsvAppend row;
                Print (MsgSaved (current_patient_number w) b h)])
           (with_csv_file (Some (file_rows w ++ [row]))
              (with_tick (S (S (tick w))) w))))).
Proof.
  intros Hb Hh Hx Hen.
  rewrite (save_patient_data_store_ok e w b h Hb Hh Hx). cbv zeta.
  rewrite Hen. reflexivity.
Qed.

Lemma flush_with_upload_disabled_witness :
  let w :=
    World None None false 1 (Some 72) (Some 512) false false
      (Some [csv_header]) 0 [] 0 in
  trace (exec save_patient_data quiet_env w) =
  [CsvAppend ["1"; "2025-01-01 12:00:00"; "72"; "512"];
   Print (MsgSaved 1 72 512)].
Proof.
  pose proof
    (flush_with_upload_disabled quiet_env
       (World None None false 1 (Some 72) (Some 512) false false
          (Some [csv_header]) 0 [] 0)
       72 512 eq_refl eq_refl eq_refl eq_refl) as H.
  unfold exec. rewrite H. reflexivity.
Defined.

(** ** The assembler: what a line can and cannot do *)

(** X3. A line with a [':'] whose key is none of [DETECT], [HEARTBEAT] and
    [BPM], compared exactly as written (so [bpm] and a key with a leading
    blank are unknown), and a [DETECT] line without [Queue=], leave the
    monitor exactly as it was: nothing is stored and nothing is printed. *)
Theorem unknown_line_ignored e w line data_type data_value :
  PyStr.contains ":" line = true ->
  PyStr.split1 ":" line = [data_type; data_value] ->
  known_key data_type = false \/
  (data_type = "DETECT" /\ PyStr.contains "Queue=" data_value = false) ->
  parse_data line e w = (Val tt, w).
Proof.
  intros Hc Hs Hk. unfold parse_data. rewrite Hc, Hs. cbn [negb].
  destruct Hk as [Hk | [-> Hq]].
  - unfold known_key in Hk.
    apply orb_false_elim in Hk. destruct Hk as [Hk Hb].
    apply orb_false_elim in Hk. destruct Hk as [Hd Hh].
    rewrite Hd, Hh, Hb. reflexivity.
  - change (String.eqb "DETECT" "DETECT") with true. cbv iota.
    rewrite Hq. reflexivity.
Qed.

Lemma unknown_line_ignored_witness :
  parse_data "bpm:72" quiet_env (world_at 1) = (Val tt, world_at 1) /\
  parse_data " BPM:72" quiet_env (world_at 1) = (Val tt, world_at 1) /\
  parse_data "DETECT:Patient=3" quiet_env (world_at 1) = (Val tt, world_at 1).
Proof.
  split; [ | split ].
  - exact (unknown_line_ignored quiet_env (world_at 1) "bpm:72" "bpm" "72"
             eq_refl eq_refl (or_introl eq_refl)).
  - exact (unknown_line_ignored quiet_env (world_at 1) " BPM:72" " BPM" "72"
             eq_refl eq_refl (or_introl eq_refl)).
  - exact (unknown_line_ignored quiet_env (world_at 1) "DETECT:Patient=3"
             "DETECT" "Patient=3" eq_refl eq_refl
             (or_intror (conj eq_refl eq_refl))).
Defined.

(** *** Well-formed readings are read back *)

Lemma contains_here sep t : PyStr.contains sep (sep ++ t)%string = true.
Proof. rewrite contains_partition, partition_at_start. reflexivity. Qed.

Lemma partition_absent q sep d :
  forallb (fun c => negb (Ascii.eqb c q)) (list_ascii_of_string d) = true ->
  PyStr.partition (String q sep) d = None.
Proof.
  intros H. rewrite <- (append_empty d).
  rewrite (partition_skip q sep d "" H). reflexivity.
Qed.

Lemma strip_str n : PyStr.strip (PyStr.str n) = PyStr.str n.
Proof. apply strip_no_space, plain_no_space, plain_str. Qed.

(** The text [int] is given on [<marker><n>] and on [<n>] alone is the
    decimal [n], for a marker that begins with no digit and no sign. *)
Lemma extracted_str q marker n :
  plain_char q = false ->
  extracted (String q marker) (String q marker ++ PyStr.str n)%string
  = PyStr.str n /\
  extracted (String q marker) (PyStr.str n) = PyStr.str n.
Proof.
  intros Hq.
  pose proof (partition_absent q marker (PyStr.str n)
                (plain_lacks q _ Hq (plain_str n))) as Habsent.
  assert (Hrep : PyStr.replace (String q marker) "" (PyStr.str n)
                 = PyStr.str n).
  { rewrite (replace_unfold (String q marker) "" _ eq_refl), Habsent.
    reflexivity. }
  unfold extracted. split.
  - rewrite contains_here.
    rewrite (replace_unfold (String q marker) "" _ eq_refl).
    rewrite partition_at_start. cbn [append]. rewrite Hrep.
    apply strip_str.
  - rewrite contains_partition, Habsent. cbn [is_some]. apply strip_str.
Qed.

Lemma reading_line_wellformed key value marker :
  forallb (fun c => negb (Ascii.eqb c ":")) (list_ascii_of_string key)
  = true ->
  reading_line key marker (key ++ ":" ++ value)%string =
  Some (extracted marker value).
Proof.
  intros Hkey. unfold reading_line.
  assert (Hp : PyStr.partition ":" (key ++ ":" ++ value)%string
               = Some (key, value)).
  { rewrite (partition_skip ":" "" key (":" ++ value)%string Hkey).
    rewrite (partition_at_start ":" value). rewrite append_empty.
    reflexivity. }
  rewrite contains_partition. unfold PyStr.split1. rewrite Hp.
  cbn [is_some negb]. rewrite String.eqb_refl. reflexivity.
Qed.

(** The text [int] is given on the two forms of a [HEARTBEAT] line and of
    a [BPM] line that carry [str(n)]. *)
Lemma heartbeat_text_of_str n line :
  line = ("HEARTBEAT:Reading=" ++ PyStr.str n)%string \/
  line = ("HEARTBEAT:" ++ PyStr.str n)%string ->
  heartbeat_text line = Some (PyStr.str n).
Proof.
  destruct (extracted_str "R" "eading=" n eq_refl) as [Hr1 Hr2].
  unfold heartbeat_text. intros [-> | ->].
  - change ("HEARTBEAT:Reading=" ++ PyStr.str n)%string
      with ("HEARTBEAT" ++ ":" ++ "Reading=" ++ PyStr.str n)%string.
    rewrite (reading_line_wellformed "HEARTBEAT" _ "Reading=" eq_refl).
    f_equal. exact Hr1.
  - change ("HEARTBEAT:" ++ PyStr.str n)%string
      with ("HEARTBEAT" ++ ":" ++ PyStr.str n)%string.
    rewrite (reading_line_wellformed "HEARTBEAT" _ "Reading=" eq_refl).
    f_equal. exact Hr2.
Qed.

Lemma bpm_text_of_str n line :
  line = ("BPM:Value=" ++ PyStr.str n)%string \/
  line = ("BPM:" ++ PyStr.str n)%string ->
  bpm_text line = Some (PyStr.str n).
Proof.
  destruct (extracted_str "V" "alue=" n eq_refl) as [Hv1 Hv2].
  unfold bpm_text. intros [-> | ->].
  - change ("BPM:Value=" ++ PyStr.str n)%string
      with ("BPM" ++ ":" ++ "Value=" ++ PyStr.str n)%string.
    rewrite (reading_line_wellformed "BPM" _ "Value=" eq_refl).
    f_equal. exact Hv1.
  - change ("BPM:" ++ PyStr.str n)%string
      with ("BPM" ++ ":" ++ PyStr.str n)%string.
    rewrite (reading_line_wellformed "BPM" _ "Value=" eq_refl).
    f_equal. exact Hv2.
Qed.

(** X4. What [str] writes, [parse_data] reads back, for every integer [n]
    of at most 4300 digits, negative ones included. The lines
    [HEARTBEAT:Reading=<n>] and [HEARTBEAT:<n>] store the reading [n],
    report it and change nothing else. The lines [BPM:Value=<n>] and
    [BPM:<n>] store the heart rate [n], report it, and then run the flush
    when a reading is pending and do nothing more when none is. *)
Theorem readings_read_back e w n :
  PyStr.fits n ->
  (forall line,
     line = ("HEARTBEAT:Reading=" ++ PyStr.str n)%string \/
     line = ("HEARTBEAT:" ++ PyStr.str n)%string ->
     parse_data line e w =
     (Val tt,
      with_trace (trace w ++ [Print (MsgHeartbeat n)])
        (with_last_heartbeat (Some n) w))) /\
  (forall line,
     line = ("BPM:Value=" ++ PyStr.str n)%string \/
     line = ("BPM:" ++ PyStr.str n)%string ->
     parse_data line e w =
     (if is_some (last_heartbeat w) then save_patient_data else ret tt) e
       (with_trace (trace w ++ [Print (MsgBpm n)])
          (with_last_bpm (Some n) w))).
Proof.
  intros Hfits. split; intros line Hline.
  - rewrite (parse_data_heartbeat e w line (PyStr.str n)
               (heartbeat_text_of_str n line Hline)).
    rewrite (int_str n Hfits). reflexivity.
  - rewrite (parse_data_bpm e w line (PyStr.str n)
               (bpm_text_of_str n line Hline)).
    rewrite (int_str n Hfits). cbv zeta.
    destruct (is_some (last_heartbeat w)); reflexivity.
Qed.

Lemma readings_read_back_witness :
  last_heartbeat (exec (parse_data "HEARTBEAT:Reading=-4") quiet_env
                    (world_at 1)) = Some (-4) /\
  last_bpm (exec (parse_data "BPM:Value=7") quiet_env (world_at 1)) = Some 7.
Proof.
  assert (H4 : PyStr.fits (-4)) by (apply fits_small; reflexivity).
  assert (H7 : PyStr.fits 7) by (apply fits_small; reflexivity).
  split; unfold exec.
  - rewrite (proj1 (readings_read_back quiet_env (world_at 1) (-4) H4)
               "HEARTBEAT:Reading=-4" (or_introl eq_refl)).
    reflexivity.
  - rewrite (proj2 (readings_read_back quiet_env (world_at 1) 7 H7)
               "BPM:Value=7" (or_introl eq_refl)).
    reflexivity.
Defined.

(** X5. From detection to the store and back. Take a patient number, a
    reading and a heart rate of at most 4300 digits each, and a store that
    accepts the write. The three lines of one measurement put exactly one
    row into the store: the row of the counter as the detection leaves it,
    which is the detected patient when that is above the counter and the
    counter plus one otherwise, with those two numbers. They leave the
    pending fields empty. A monitor started afterwards on the file resumes
    at that counter, if the log had a row, its header, before the
    measurement and the counter is of at most 4300 digits. *)
Theorem measurement_reaches_store e w p h b :
  PyStr.fits p -> PyStr.fits h -> PyStr.fits b ->
  csv_write e (S (tick w)) = None ->
  let c := next_patient (current_patient_number w) p in
  let lines :=
    [("DETECT:Queue=" ++ PyStr.str p)%string;
     ("HEARTBEAT:Reading=" ++ PyStr.str h)%string;
     ("BPM:Value=" ++ PyStr.str b)%string] in
  let w' := exec (handle_lines lines) e w in
  outcome (handle_lines lines) e w = Val tt /\
  csv_file w' = Some (file_rows w ++ [csv_row c (now e (tick w)) b h]) /\
  current_patient_number w' = c /\
  last_bpm w' = None /\ last_heartbeat w' = None /\
  (forall e2 w2,
     file_rows w <> [] -> PyStr.fits c ->
     csv_file w2 = csv_file w' ->
     csv_read e2 (tick w2) = None ->
     current_patient_number (exec initialize_csv e2 w2) = c).
Proof.
  intros Hp Hh Hb Hx c lines w'.
  assert (Hd : detected_patient ("DETECT:Queue=" ++ PyStr.str p)%string
               = Some p).
  { rewrite <- (append_empty (PyStr.str p)) at 1.
    apply (detected_patient_wellformed "" p "" eq_refl Hp).
    left. reflexivity. }
  pose proof (parse_data_detect e w _ p Hd) as H1. cbv zeta in H1.
  fold c in H1.
  set (w1 := with_trace (trace w ++ [Print (MsgPatientDetected c)])
               (with_current_patient_number c w)) in *.
  pose proof (parse_data_heartbeat e w1 _ (PyStr.str h)
                (heartbeat_text_of_str h _ (or_introl eq_refl))) as H2.
  rewrite (int_str h Hh) in H2.
  set (w2 := with_trace (trace w1 ++ [Print (MsgHeartbeat h)])
               (with_last_heartbeat (Some h) w1)) in *.
  pose proof (parse_data_bpm e w2 _ (PyStr.str b)
                (bpm_text_of_str b _ (or_introl eq_refl))) as H3.
  rewrite (int_str b Hb) in H3.
  cbv zeta in H3. change (is_some (last_heartbeat w2)) with true in H3.
  cbv iota in H3.
  set (w3 := with_trace (trace w2 ++ [Print (MsgBpm b)])
               (with_last_bpm (Some b) w2)) in *.
  destruct (save_patient_data_file e w3 b h eq_refl eq_refl Hx)
    as [Hfile [Hlb [Hlh Hcount]]].
  destruct (save_patient_data_returns e w3) as [[] Hret].
  assert (Hrun : handle_lines lines e w
                 = (Val tt, exec save_patient_data e w3)).
  { unfold lines. cbn [handle_lines].
    rewrite (bind_val _ _ _ _ _ _ _ _ H1).
    rewrite (bind_val _ _ _ _ _ _ _ _ H2).
    rewrite (bind_val _ _ _ _ _ _ _ _
               (eq_trans H3 (run_eq _ _ _ _ _ Hret))).
    reflexivity. }
  assert (Hw' : w' = exec save_patient_data e w3)
    by (unfold w', exec at 1; rewrite Hrun; reflexivity).
  rewrite Hw'.
  split; [ unfold outcome; rewrite Hrun; reflexivity | ].
  split; [ exact Hfile | ]. split; [ exact Hcount | ].
  split; [ exact Hlb | ]. split; [ exact Hlh | ].
  intros e2 w0 Hne Hc Hsame Hread. rewrite Hfile in Hsame.
  change (file_rows w3) with (file_rows w) in Hsame.
  apply (initialize_csv_resumes e2 w0 (file_rows w)
           (csv_row c (now e (tick w)) b h) c Hsame Hne Hread).
  exists (PyStr.str c). eexists.
  split; [ reflexivity | apply int_str; exact Hc ].
Qed.

(** Patient 3 is detected after patient 4: the row is for patient 5, and a
    restart resumes at 5. *)
Lemma measurement_reaches_store_witness :
  let lines := ["DETECT:Queue=3"; "HEARTBEAT:Reading=8"; "BPM:Value=7"] in
  let file := [csv_header; ["5"; "2025-01-01 12:00:00"; "7"; "8"]] in
  csv_file (exec (handle_lines lines) quiet_env (world_at 4)) = Some file /\
  current_patient_number (exec (handle_lines lines) quiet_env (world_at 4))
  = 5 /\
  current_patient_number
    (exec initialize_csv quiet_env (init_world None (Some file))) = 5.
Proof.
  assert (H3 : PyStr.fits 3) by (apply fits_small; reflexivity).
  assert (H8 : PyStr.fits 8) by (apply fits_small; reflexivity).
  assert (H7 : PyStr.fits 7) by (apply fits_small; reflexivity).
  assert (H5 : PyStr.fits 5) by (apply fits_small; reflexivity).
  pose proof
    (measurement_reaches_store quiet_env (world_at 4) 3 8 7 H3 H8 H7 eq_refl)
    as H.
  cbv zeta in H. destruct H as [_ [Hf [Hc [_ [_ Hr]]]]].
  intros lines file. split; [ exact Hf | ]. split; [ exact Hc | ].
  apply (Hr quiet_env (init_world None (Some file))).
  - discriminate.
  - exact H5.
  - symmetry. exact Hf.
  - reflexivity.
Defined.

(** ** The store at startup *)

Lemma initialize_csv_returns : returns initialize_csv.
Proof. unfold initialize_csv. returning. Qed.

(** X6. [initialize_csv] never raises, and a log it cannot resume from is
    replaced. When the existing file cannot be read, or has two or more rows
    of which the last is blank or does not begin with an integer that [int]
    reads, the file is written anew with the header row alone, so its rows
    are lost, and the counter is 0. When that write fails as well, the
    counter stays as it was; the log is as it was when it could not even be
    opened for writing, and is left empty when the failure came after the
    opening, which had emptied it. *)
Theorem unreadable_log_is_replaced e w rows :
  outcome initialize_csv e w = Val tt /\
  (csv_file w = Some rows ->
   (exists x, csv_read e (tick w) = Some x) \/
   (csv_read e (tick w) = None /\
    exists before row,
      rows = before ++ [row] /\ before <> [] /\
      (row = [] \/
       exists field rest, row = field :: rest /\ PyStr.int field = None)) ->
   match csv_write e (S (tick w)) with
   | None =>
       csv_file (exec initialize_csv e w) = Some [csv_header] /\
       current_patient_number (exec initialize_csv e w) = 0
   | Some _ =>
       csv_file (exec initialize_csv e w) =
         (if csv_opened e (S (tick w)) then Some [] else Some rows) /\
       current_patient_number (exec initialize_csv e w) =
       current_patient_number w
   end).
Proof.
  split; [ destruct (initialize_csv_returns e w) as [[] H]; exact H | ].
  intros Hf Hbad.
  destruct w as [pt sr rn pn lb lh cl te cf ra tr tk]. cbn in *. subst cf.
  unfold initialize_csv, csv_read_rows, csv_create, last_item, item, int_of,
    exec.
  destruct Hbad as [[x Hx] | [Hr [before [row [-> [Hne Hrow]]]]]].
  - run. rewrite Hx. cbn.
    destruct (csv_write e (S tk)); cbn;
      [ destruct (csv_opened e (S tk)); cbn | ]; split; reflexivity.
  - assert (Hlen : (1 <? List.length (before ++ [row]))%nat = true).
    { apply Nat.ltb_lt. rewrite length_app. cbn.
      destruct before; [ contradiction | cbn; lia ]. }
    assert (Hlast : nth_error (before ++ [row])
                      (List.length (before ++ [row]) - 1) = Some row).
    { rewrite length_app. cbn. rewrite Nat.add_sub.
      rewrite nth_error_app2 by lia. rewrite Nat.sub_diag. reflexivity. }
    unfold try_except, bind, get, ask, print, sleep, emit, modify, ret,
      raise, when.
    cbn -[Nat.ltb nth_error Nat.sub List.length].
    rewrite Hr. cbn -[Nat.ltb nth_error Nat.sub List.length].
    rewrite Hlen, Hlast.
    destruct Hrow as [-> | [field [rest [-> Hint]]]]; cbn.
    + destruct (csv_write e (S tk)); cbn;
        [ destruct (csv_opened e (S tk)); cbn | ]; split; reflexivity.
    + rewrite Hint. cbn.
      destruct (csv_write e (S tk)); cbn;
        [ destruct (csv_opened e (S tk)); cbn | ]; split; reflexivity.
Qed.

(** A log whose last line is blank: after the start-up the two records it
    held are gone. With the disk full, the header is not written either and
    the log is left empty. *)
Lemma unreadable_log_is_replaced_witness :
  let rows :=
    [csv_header; ["4"; "2025-01-01 12:00:00"; "72"; "512"];
     ["7"; "2025-01-01 12:05:00"; "80"; "498"]; []] in
  (csv_file (exec initialize_csv quiet_env (init_world None (Some rows))) =
   Some [csv_header] /\
   current_patient_number
     (exec initialize_csv quiet_env (init_world None (Some rows))) = 0) /\
  csv_file (exec initialize_csv disk_full_env (init_world None (Some rows))) =
  Some [].
Proof.
  intro rows.
  assert (Hbad : forall e,
            csv_read e = csv_read quiet_env ->
            (exists x,
               csv_read e (tick (init_world None (Some rows))) = Some x) \/
            (csv_read e (tick (init_world None (Some rows))) = None /\
             exists before row,
               rows = before ++ [row] /\ before <> [] /\
               (row = [] \/
                exists field rest,
                  row = field :: rest /\ PyStr.int field = None))).
  { intros e He. right. split; [ rewrite He; reflexivity | ].
    exists [csv_header; ["4"; "2025-01-01 12:00:00"; "72"; "512"];
            ["7"; "2025-01-01 12:05:00"; "80"; "498"]], [].
    split; [ reflexivity | ]. split; [ discriminate | left; reflexivity ]. }
  split.
  - exact (proj2
             (unreadable_log_is_replaced quiet_env
                (init_world None (Some rows)) rows)
             eq_refl (Hbad quiet_env eq_refl)).
  - exact (proj1
             (proj2
                (unreadable_log_is_replaced disk_full_env
                   (init_world None (Some rows)) rows)
                eq_refl (Hbad disk_full_env eq_refl))).
Defined.

(** X7. A log of at most one row seeds the counter with 0 and is left as it
    is: the first row is taken for the header without being looked at, so a
    file that holds a single record and no header resumes at 0, not at that
    record's patient. *)
Theorem short_log_seeds_zero e w rows :
  csv_file w = Some rows -> (List.length rows <= 1)%nat ->
  csv_read e (tick w) = None ->
  outcome initialize_csv e w = Val tt /\
  current_patient_number (exec initialize_csv e w) = 0 /\
  csv_file (exec initialize_csv e w) = Some rows.
Proof.
  intros Hf Hlen Hr.
  assert (Hltb : (1 <? List.length rows)%nat = false)
    by (apply Nat.ltb_ge; exact Hlen).
  destruct w as [pt sr rn pn lb lh cl te cf ra tr tk]. cbn in *. subst cf.
  unfold initialize_csv, csv_read_rows, outcome, exec.
  run. rewrite Hr. cbn. rewrite Hltb. cbn.
  destruct te; cbn; repeat split; reflexivity.
Qed.

Lemma short_log_seeds_zero_witness :
  let w :=
    with_current_patient_number 3
      (init_world None (Some [["9"; "2025-01-01 12:00:00"; "72"; "512"]])) in
  current_patient_number (exec initialize_csv quiet_env w) = 0.
Proof.
  exact (proj1 (proj2
    (short_log_seeds_zero quiet_env
       (with_current_patient_number 3
          (init_world None
             (Some [["9"; "2025-01-01 12:00:00"; "72"; "512"]])))
       _ eq_refl ltac:(cbn; lia) eq_refl))).
Defined.

(** ** The probe, the health check and the disconnect *)

(** X8. [test_port] never raises: it answers [True] exactly when the port
    opens and closes without error, and [False] for a busy port and for
    every other failure. Whatever it answers, the monitor is as before: the
    pin, the connection, the counters, the pending fields and the file. *)
Theorem probe_verdict e w p :
  outcome (test_port p) e w =
    Val (match serial_open e (tick w) (Some p),
               serial_close e (S (tick w)) with
         | None, None => true
         | _, _ => false
         end) /\
  monitor_state (exec (test_port p) e w) = monitor_state w.
Proof.
  split.
  - unfold test_port, open_serial, close_serial, outcome. run.
    destruct (serial_open e (tick w) (Some p)) as [x | ]; cbn.
    + destruct (exn_cls x); try reflexivity.
      destruct (resource_busy x); reflexivity.
    + destruct (serial_close e (S (tick w))) as [x | ]; cbn;
        [ | reflexivity ].
      destruct (exn_cls x); try reflexivity.
      destruct (resource_busy x); reflexivity.
  - assert (H : preserves monitor_state (test_port p)) by frame.
    apply H.
Qed.

(** X9. [check_connection] answers [False] without touching the port when
    there is no connection or it is closed. On an open connection it asks
    for the waiting bytes once: it answers [True] when that succeeds and
    changes nothing; on an [OSError] (a [SerialException] included) it
    answers [False] and marks the connection lost; any other exception
    leaves the method. *)
Theorem health_check e w :
  match ser w with
  | Some s =>
      if is_open s then
        match in_waiting e (tick w) with
        | inr _ =>
            check_connection e w = (Val true, with_tick (S (tick w)) w)
        | inl x =>
            if is_os_error (exn_cls x) then
              check_connection e w =
              (Val false,
               with_connection_lost true (with_tick (S (tick w)) w))
            else
              check_connection e w = (Raise x, with_tick (S (tick w)) w)
        end
      else check_connection e w = (Val false, w)
  | None => check_connection e w = (Val false, w)
  end.
Proof.
  unfold check_connection, ser_in_waiting.
  destruct (ser w) as [s | ] eqn:Hs; run; rewrite Hs; [ | reflexivity ].
  destruct (is_open s); [ | reflexivity ]. cbn.
  destruct (in_waiting e (tick w)) as [x | n]; cbn; [ | reflexivity ].
  destruct (is_os_error (exn_cls x)); reflexivity.
Qed.

Lemma disconnect_returns : returns disconnect.
Proof. unfold disconnect. returning. Qed.

(** X10. [disconnect] never raises, an error of [close] included, and
    always leaves [running] false. When the port was not open, or [close]
    succeeded, the connection is closed afterwards and a second
    [disconnect] changes nothing at all: it does not touch the port
    again. *)
Theorem disconnect_idempotent e e' w :
  outcome disconnect e w = Val tt /\
  running (exec disconnect e w) = false /\
  ((forall s, ser w = Some s -> is_open s = true ->
              serial_close e (tick w) = None) ->
   (forall s, ser (exec disconnect e w) = Some s -> is_open s = false) /\
   exec disconnect e' (exec disconnect e w) = exec disconnect e w).
Proof.
  split; [ destruct (disconnect_returns e w) as [[] H]; exact H | ].
  split; [ apply disconnect_stops | ].
  intros Hclose.
  destruct w as [pt sr rn pn lb lh cl te cf ra tr tk]. cbn in Hclose.
  unfold disconnect, exec. run.
  destruct sr as [[sp so] | ]; cbn; [ | split; [ discriminate | reflexivity ] ].
  destruct so; cbn.
  - rewrite (Hclose _ eq_refl eq_refl). cbn.
    split; [ intros s [= <-]; reflexivity | reflexivity ].
  - split; [ intros s [= <-]; reflexivity | reflexivity ].
Qed.

Lemma disconnect_idempotent_witness :
  exec disconnect quiet_env (exec disconnect quiet_env connected_world) =
  exec disconnect quiet_env connected_world.
Proof.
  exact (proj2 (proj2 (proj2
           (disconnect_idempotent quiet_env quiet_env connected_world))
           (fun _ _ _ => eq_refl))).
Defined.

(** ** Framing for the counts of the further properties *)

Ltac frame_side ::=
  intros;
  first [ reflexivity
        | cbn; rewrite flushes_app; cbn; apply Nat.add_0_r
        | cbn;
          unfold scans, connection_attempts, buffer_resets, closes, backoffs,
            reconnects;
          rewrite count_events_app; cbn; apply Nat.add_0_r
        | cbn; rewrite sleeps_app; cbn; apply app_nil_r ].

#[local] Hint Extern 2 (preserves _ save_patient_data) =>
  unfold save_patient_data; frame : frame.
#[local] Hint Extern 2 (preserves _ (csv_append _)) =>
  unfold csv_append; frame : frame.
#[local] Hint Extern 2 (preserves _ (parse_data _)) =>
  unfold parse_data; frame : frame.
#[local] Hint Extern 2 (preserves _ disconnect) =>
  unfold disconnect; frame : frame.
#[local] Hint Extern 2 (preserves _ connect) => unfold connect; frame : frame.
#[local] Hint Extern 2 (preserves _ reconnect) =>
  unfold reconnect; frame : frame.

(** ** The edges of [connect] *)

Lemma collect_arduino_ports_none ports acc e w :
  matching ports = [] ->
  collect_arduino_ports ports acc e w = (Val acc, w).
Proof.
  revert acc w. induction ports as [ | [device description] ports IH ];
    intros acc w H; [ reflexivity | ].
  unfold matching in H. cbn [filter fst] in H. cbn [collect_arduino_ports].
  destruct (is_arduino device); [ discriminate H | ].
  apply IH. exact H.
Qed.

(** X11. Without a pinned port and without a matching device on the
    machine, [connect] gives up at once: one scan, the answer [False], no
    probe, no pause and no second attempt, and the monitor as it was. *)
Theorem connect_without_device e w :
  truthy (port w) = false ->
  matching (comports e (tick w)) = [] ->
  outcome connect e w = Val false /\
  monitor_state (exec connect e w) = monitor_state w /\
  trace (exec connect e w) =
    trace w ++ [Print MsgScanning; Comports; Print MsgNoPortsFound].
Proof.
  intros Hpin Hnone.
  unfold connect. rewrite range_max_retries. cbn [connect_loop].
  rewrite connect_attempt_phases.
  destruct w as [pt sr rn pn lb lh cl te cf ra tr tk]. cbn in Hpin, Hnone.
  unfold discover_phase, find_available_arduino_port, outcome, exec.
  run. rewrite Hpin. cbn.
  rewrite (collect_arduino_ports_none _ _ _ _ Hnone). cbn.
  rewrite <- ?app_assoc. repeat split; reflexivity.
Qed.

Lemma connect_without_device_witness :
  outcome connect quiet_env (init_world None None) = Val false.
Proof.
  exact (proj1 (connect_without_device quiet_env (init_world None None)
                  eq_refl eq_refl)).
Defined.

(** X12. On a pinned port that cannot be opened, for any reason other than
    a busy port, [connect] answers [False] after that one attempt: it does
    not retry, does not pause, and keeps the pin and the rest of the
    monitor as they were. *)
Theorem connect_refused e w x :
  truthy (port w) = true ->
  serial_open e (tick w) (port w) = Some x ->
  (exn_cls x = SerialException -> resource_busy x = false) ->
  outcome connect e w = Val false /\
  monitor_state (exec connect e w) = monitor_state w /\
  trace (exec connect e w) =
    trace w ++
    [Print (MsgConnecting (port w)); SerialOpen (port w) (Some x);
     Print (match exn_cls x with
            | SerialException => MsgConnectionFailed x
            | _ => MsgUnexpected x
            end)].
Proof.
  intros Hpin Hopen Hbusy.
  unfold connect. rewrite range_max_retries. cbn [connect_loop].
  rewrite connect_attempt_phases.
  destruct w as [pt sr rn pn lb lh cl te cf ra tr tk]. cbn in Hpin, Hopen.
  unfold open_phase, connect_handler, open_serial, outcome, exec.
  run. rewrite Hpin. cbn. rewrite Hopen. cbn.
  destruct (exn_cls x); try rewrite (Hbusy eq_refl); cbn;
    rewrite <- ?app_assoc; repeat split; reflexivity.
Qed.

Lemma connect_refused_witness :
  let e :=
    Env (now quiet_env) (comports quiet_env)
      (fun _ _ => Some (Exn SerialException "could not open port"))
      (serial_close quiet_env) (in_waiting quiet_env)
      (reset_input_buffer quiet_env) (readline_decode quiet_env)
      (csv_read quiet_env) (csv_write quiet_env) (csv_opened quiet_env)
      (requests_get quiet_env) in
  outcome connect e (init_world (Some "/dev/cu.usbmodem1") None) = Val false.
Proof.
  intro e.
  refine (proj1 (connect_refused e (init_world (Some "/dev/cu.usbmodem1") None)
                   (Exn SerialException "could not open port")
                   eq_refl eq_refl _)).
  intros _. vm_compute. reflexivity.
Defined.

Lemma open_phase_opened e w k :
  serial_open e (tick w) (port w) = None ->
  in_waiting e (S (tick w)) = inr k ->
  (k <> 0 -> reset_input_buffer e (S (S (tick w))) = None) ->
  open_phase e w =
    (initialize_csv ;;
     modify (with_connection_lost false) ;;
     ret (Return true)) e (opened k w).
Proof.
  intros Hopen Hin Hreset.
  destruct w as [pt sr rn pn lb lh cl te cf ra tr tk].
  cbn in Hopen, Hin, Hreset.
  unfold open_phase, open_serial, ser_in_waiting, ser_reset_input_buffer,
    opened.
  run. rewrite Hopen. cbn. rewrite Hin. cbn.
  destruct (k =? 0) eqn:Hk; cbn.
  - rewrite <- !app_assoc. reflexivity.
  - rewrite Hreset by (intros ->; discriminate Hk). cbn.
    rewrite <- !app_assoc. reflexivity.
Qed.

Lemma connect_pinned e w b w' :
  truthy (port w) = true ->
  open_phase e w = (Val (Return b), w') ->
  connect e w = (Val b, w').
Proof.
  intros Hpin Hopen.
  unfold connect. rewrite range_max_retries. cbn [connect_loop].
  rewrite connect_attempt_phases.
  unfold bind at 1. unfold try_except. unfold bind at 1. unfold get at 1.
  rewrite Hpin. cbn [negb]. rewrite bind_ret. rewrite Hopen. reflexivity.
Qed.

Arguments opened : simpl never.

Lemma opened_fields k w :
  port (opened k w) = port w /\
  ser (opened k w) = Some (Serial (port w) true) /\
  running (opened k w) = running w /\
  last_bpm (opened k w) = last_bpm w /\
  last_heartbeat (opened k w) = last_heartbeat w /\
  csv_file (opened k w) = csv_file w /\
  tick (opened k w) = (if k =? 0 then S (S (tick w)) else S (S (S (tick w)))) /\
  buffer_resets (trace (opened k w)) =
    Nat.add (buffer_resets (trace w)) (if k =? 0 then 0%nat else 1%nat).
Proof.
  unfold opened, buffer_resets.
  destruct (k =? 0); cbn [port ser running last_bpm last_heartbeat csv_file
    current_patient_number tick trace with_ser with_trace with_tick];
    rewrite !count_events_app; cbn [count_events is_reset];
    rewrite ?Nat.add_0_r; repeat split; reflexivity.
Qed.

(** X13. A [connect] that succeeds on the pinned port reads the counter
    back from the log, whatever the counter was before: with a readable log
    of two or more rows whose last row begins with a field that [int] reads
    as [n], the answer is [True], the connection is open on the pinned port,
    [connection_lost] is false and the counter is [n]. The input buffer is discarded exactly when bytes
    were waiting; the pending readings, the file and [running] stay as they
    were. *)
Theorem connect_reseeds_counter e w rows row n k :
  truthy (port w) = true ->
  serial_open e (tick w) (port w) = None ->
  in_waiting e (S (tick w)) = inr k ->
  (k <> 0 -> reset_input_buffer e (S (S (tick w))) = None) ->
  csv_file w = Some (rows ++ [row]) -> rows <> [] ->
  csv_read e (if k =? 0 then S (S (tick w)) else S (S (S (tick w)))) = None ->
  (exists field rest, row = field :: rest /\ PyStr.int field = Some n) ->
  outcome connect e w = Val true /\
  ser (exec connect e w) = Some (Serial (port w) true) /\
  connection_lost (exec connect e w) = false /\
  current_patient_number (exec connect e w) = n /\
  buffer_resets (trace (exec connect e w)) =
    Nat.add (buffer_resets (trace w)) (if k =? 0 then 0%nat else 1%nat) /\
  (port (exec connect e w), running (exec connect e w),
   last_bpm (exec connect e w), last_heartbeat (exec connect e w),
   csv_file (exec connect e w)) =
  (port w, running w, last_bpm w, last_heartbeat w, csv_file w).
Proof.
  intros Hpin Hopen Hin Hreset Hfile Hne Hread Hrow.
  destruct (opened_fields k w)
    as [Hport [Hser [Hrun [Hbpm [Hbeat [Hcsv [Htick Hresets]]]]]]].
  assert (Hfile1 : csv_file (opened k w) = Some (rows ++ [row]))
    by (rewrite Hcsv; exact Hfile).
  rewrite <- Htick in Hread.
  destruct (initialize_csv_resumes e (opened k w) rows row n Hfile1 Hne Hread
              Hrow) as [Hout [Hcount Hkeep]].
  assert (Hp : preserves port initialize_csv)
    by (unfold initialize_csv; frame).
  assert (Hs : preserves ser initialize_csv)
    by (unfold initialize_csv; frame).
  assert (Hr : preserves running initialize_csv)
    by (unfold initialize_csv; frame).
  assert (Hb : preserves last_bpm initialize_csv)
    by (unfold initialize_csv; frame).
  assert (Hh : preserves last_heartbeat initialize_csv)
    by (unfold initialize_csv; frame).
  assert (Hquiet : preserves (fun w => buffer_resets (trace w))
            initialize_csv)
    by (unfold initialize_csv; frame).
  specialize (Hp e (opened k w)). specialize (Hs e (opened k w)).
  specialize (Hr e (opened k w)). specialize (Hb e (opened k w)).
  specialize (Hh e (opened k w)). specialize (Hquiet e (opened k w)).
  cbv beta in Hquiet.
  set (w2 := exec initialize_csv e (opened k w)) in *.
  assert (Hconn : connect e w = (Val true, with_connection_lost false w2)).
  { apply connect_pinned; [ exact Hpin | ].
    rewrite (open_phase_opened e w k Hopen Hin Hreset).
    rewrite (bind_val _ _ initialize_csv _ e (opened k w) tt w2
               (run_eq _ initialize_csv e (opened k w) (Val tt) Hout)).
    reflexivity. }
  unfold outcome, exec. rewrite Hconn.
  cbn [fst snd ser connection_lost current_patient_number trace port running
       last_bpm last_heartbeat csv_file with_connection_lost].
  rewrite Hquiet, Hresets, Hcount, Hkeep, Hp, Hs, Hr, Hb, Hh.
  rewrite Hport, Hser, Hrun, Hbpm, Hbeat, Hcsv.
  repeat split; reflexivity.
Qed.

(** The operator has reset the counter to 0; the log ends with patient 7,
    and the counter is 7 again after [connect]. *)
Lemma connect_reseeds_counter_witness :
  let w :=
    init_world (Some "/dev/cu.usbmodem1")
      (Some [csv_header; ["7"; "2025-01-01 12:00:00"; "72"; "512"]]) in
  current_patient_number w = 0 /\
  outcome connect quiet_env w = Val true /\
  current_patient_number (exec connect quiet_env w) = 7.
Proof.
  intro w. split; [ reflexivity | ].
  assert (Hrow : exists field rest,
             ["7"; "2025-01-01 12:00:00"; "72"; "512"] = field :: rest /\
             PyStr.int field = Some 7).
  { exists "7", ["2025-01-01 12:00:00"; "72"; "512"].
    split; reflexivity. }
  assert (Hne : [csv_header] <> []) by discriminate.
  assert (Hreset : 0 <> 0 ->
                   reset_input_buffer quiet_env (S (S (tick w))) = None)
    by (intros _; reflexivity).
  pose proof (connect_reseeds_counter quiet_env w [csv_header]
                ["7"; "2025-01-01 12:00:00"; "72"; "512"] 7 0
                eq_refl eq_refl eq_refl Hreset eq_refl Hne eq_refl Hrow)
    as H.
  split; [ exact (proj1 H) | exact (proj1 (proj2 (proj2 (proj2 H)))) ].
Defined.

(** X14. A port that opens and then fails the first query of its waiting
    bytes is left open: [connect] answers [False] without closing what it
    opened, so [self.ser] is an open connection on the pinned port. The
    counter, the file and [connection_lost] are as before. *)
Theorem failed_connect_leaves_port_open e w x :
  truthy (port w) = true ->
  serial_open e (tick w) (port w) = None ->
  in_waiting e (S (tick w)) = inl x ->
  (exn_cls x = SerialException -> resource_busy x = false) ->
  outcome connect e w = Val false /\
  ser (exec connect e w) = Some (Serial (port w) true) /\
  closes (trace (exec connect e w)) = closes (trace w) /\
  (port (exec connect e w), current_patient_number (exec connect e w),
   csv_file (exec connect e w), connection_lost (exec connect e w)) =
  (port w, current_patient_number w, csv_file w, connection_lost w).
Proof.
  intros Hpin Hopen Hin Hbusy.
  unfold connect. rewrite range_max_retries. cbn [connect_loop].
  rewrite connect_attempt_phases.
  destruct w as [pt sr rn pn lb lh cl te cf ra tr tk].
  cbn in Hpin, Hopen, Hin.
  unfold open_phase, connect_handler, open_serial, ser_in_waiting, outcome,
    exec, closes.
  run. rewrite Hpin. cbn. rewrite Hopen. cbn. rewrite Hin. cbn.
  destruct (exn_cls x); try rewrite (Hbusy eq_refl); cbn;
    rewrite !count_events_app; cbn; rewrite ?Nat.add_0_r;
    repeat split; reflexivity.
Qed.

Lemma failed_connect_leaves_port_open_witness :
  let gone := Exn OSError "[Errno 6] Device not configured" in
  let e :=
    Env (now quiet_env) (comports quiet_env) (serial_open quiet_env)
      (serial_close quiet_env) (fun _ => inl gone)
      (reset_input_buffer quiet_env) (readline_decode quiet_env)
      (csv_read quiet_env) (csv_write quiet_env) (csv_opened quiet_env)
      (requests_get quiet_env) in
  let w := init_world (Some "/dev/cu.usbmodem1") None in
  outcome connect e w = Val false /\
  ser (exec connect e w) = Some (Serial (Some "/dev/cu.usbmodem1") true).
Proof.
  intros gone e w.
  assert (Hbusy : exn_cls gone = SerialException ->
                  resource_busy gone = false) by (intros _; reflexivity).
  pose proof (failed_connect_leaves_port_open e w gone
                eq_refl eq_refl eq_refl Hbusy) as H.
  split; [ exact (proj1 H) | exact (proj1 (proj2 H)) ].
Defined.

(** ** The rounds of the supervised loop *)

Lemma exec_bind_val A B (m : M A) (k : A -> M B) e w a w1 :
  m e w = (Val a, w1) -> exec (bind m k) e w = exec (k a) e w1.
Proof. intros H. unfold exec, bind. rewrite H. reflexivity. Qed.

Lemma exec_try_raise A (m : M A) (h : exn -> M A) e w x w1 :
  m e w = (Raise x, w1) -> exec (try_except m h) e w = exec (h x) e w1.
Proof. intros H. unfold exec, try_except. rewrite H. reflexivity. Qed.

Lemma bind_raised A B (m : M A) (k : A -> M B) e w x w1 :
  m e w = (Raise x, w1) -> bind m k e w = (Raise x, w1).
Proof. intros H. unfold bind. rewrite H. reflexivity. Qed.

Lemma reconnect_announced e w :
  reconnects (trace (exec reconnect e w)) = S (reconnects (trace w)).
Proof.
  unfold reconnect.
  change (exec (print MsgConnectionLostReconnecting ;;
                disconnect ;; sleep (seconds 2) ;; connect) e w)
    with (exec (disconnect ;; sleep (seconds 2) ;; connect) e
            (with_trace (trace w ++ [Print MsgConnectionLostReconnecting])
               w)).
  assert (H : preserves (fun w => reconnects (trace w))
                (disconnect ;; sleep (seconds 2) ;; connect)) by frame.
  rewrite (H e _). cbn [trace with_trace]. unfold reconnects.
  rewrite count_events_app. cbn. lia.
Qed.

(** A round that starts with no failed reconnect counted never announces
    the longer back-off. Either it reconnects, once, and leaves [running]
    false; or it does not reconnect and still counts no failed reconnect. *)
Lemma worker_round e w :
  reconnect_attempts w = 0 ->
  backoffs (trace (exec worker_iteration e w)) = backoffs (trace w) /\
  ((running (exec worker_iteration e w) = false /\
    reconnects (trace (exec worker_iteration e w)) =
      S (reconnects (trace w))) \/
   (reconnect_attempts (exec worker_iteration e w) = 0 /\
    reconnects (trace (exec worker_iteration e w)) = reconnects (trace w))).
Proof.
  intros Hra.
  assert (Hcb : preserves (fun w => backoffs (trace w)) check_connection)
    by frame.
  assert (Hcr : preserves (fun w => reconnects (trace w)) check_connection)
    by frame.
  pose proof (check_connection_attempts e w) as Hca.
  specialize (Hcb e w). specialize (Hcr e w). cbv beta in Hcb, Hcr.
  destruct (check_connection e w) as [[[ | ] | x] w1] eqn:Hc;
    rewrite (exec_of _ _ _ _ _ _ Hc) in Hcb, Hcr, Hca; rewrite Hra in Hca.
  - (* the connection is up *)
    split; [ | right; split ]; unfold worker_iteration.
    + rewrite (preserves_after _ (fun w => backoffs (trace w)))
        by (intro; frame).
      rewrite (preserves_after_try _ (fun w => backoffs (trace w)))
        by (intro; frame).
      rewrite (exec_bind_val _ _ check_connection _ e w true w1 Hc).
      cbn [negb]. rewrite <- Hcb.
      match goal with
      | |- _ (trace (exec ?m e w1)) = _ =>
          assert (H : preserves (fun w => backoffs (trace w)) m) by frame
      end.
      apply H.
    + rewrite (preserves_after _ reconnect_attempts) by (intro; frame).
      rewrite (preserves_after_try _ reconnect_attempts) by (intro; frame).
      rewrite (exec_bind_val _ _ check_connection _ e w true w1 Hc).
      cbn [negb].
      rewrite (preserves_after _ reconnect_attempts) by (intro; frame).
      reflexivity.
    + rewrite (preserves_after _ (fun w => reconnects (trace w)))
        by (intro; frame).
      rewrite (preserves_after_try _ (fun w => reconnects (trace w)))
        by (intro; frame).
      rewrite (exec_bind_val _ _ check_connection _ e w true w1 Hc).
      cbn [negb]. rewrite <- Hcr.
      match goal with
      | |- _ (trace (exec ?m e w1)) = _ =>
          assert (H : preserves (fun w => reconnects (trace w)) m) by frame
      end.
      apply H.
  - (* the connection is down *)
    assert (Hstop : running (exec worker_iteration e w) = false).
    { apply worker_iteration_reconnect_stops.
      - unfold outcome. rewrite Hc. reflexivity.
      - rewrite Hra. reflexivity. }
    assert (Hrb : preserves (fun w => backoffs (trace w)) reconnect)
      by frame.
    split; [ | left; split; [ exact Hstop | ] ]; clear Hstop;
      unfold worker_iteration.
    + rewrite (preserves_after _ (fun w => backoffs (trace w)))
        by (intro; frame).
      rewrite (preserves_after_try _ (fun w => backoffs (trace w)))
        by (intro; frame).
      rewrite (exec_bind_val _ _ check_connection _ e w false w1 Hc).
      cbn [negb]. rewrite <- Hcb.
      destruct w1 as [pt sr rn pn lb lh cl te cf ra tr tk].
      cbn in Hca. subst ra. unfold exec.
      destruct cl; run;
        match goal with
        | |- context [reconnect ?e1 ?w2] =>
            pose proof (Hrb e1 w2) as Hquiet;
            unfold exec in Hquiet;
            destruct (reconnect e1 w2) as [[[ | ] | x] w3]
        end; cbn in Hquiet |- *; unfold backoffs in *;
        rewrite ?count_events_app in *; cbn in Hquiet |- *; lia.
    + rewrite (preserves_after _ (fun w => reconnects (trace w)))
        by (intro; frame).
      rewrite (preserves_after_try _ (fun w => reconnects (trace w)))
        by (intro; frame).
      rewrite (exec_bind_val _ _ check_connection _ e w false w1 Hc).
      cbn [negb]. rewrite <- Hcr.
      destruct w1 as [pt sr rn pn lb lh cl te cf ra tr tk].
      cbn in Hca. subst ra. unfold exec.
      destruct cl; run;
        match goal with
        | |- context [reconnect ?e1 ?w2] =>
            pose proof (reconnect_announced e1 w2) as Hann;
            unfold exec in Hann;
            destruct (reconnect e1 w2) as [[[ | ] | x] w3]
        end; cbn in Hann |- *; unfold reconnects in *;
        rewrite ?count_events_app in *; cbn in Hann |- *; lia.
  - (* the check raised *)
    split; [ | right; split ]; unfold worker_iteration.
    + rewrite (preserves_after _ (fun w => backoffs (trace w)))
        by (intro; frame).
      erewrite exec_try_raise
        by (apply bind_raised; exact Hc).
      rewrite <- Hcb.
      match goal with
      | |- _ (trace (exec ?m e w1)) = _ =>
          assert (H : preserves (fun w => backoffs (trace w)) m) by frame
      end.
      apply H.
    + rewrite (preserves_after _ reconnect_attempts) by (intro; frame).
      erewrite exec_try_raise
        by (apply bind_raised; exact Hc).
      rewrite <- Hca.
      match goal with
      | |- _ (exec ?m e w1) = _ =>
          assert (H : preserves reconnect_attempts m) by frame
      end.
      apply H.
    + rewrite (preserves_after _ (fun w => reconnects (trace w)))
        by (intro; frame).
      erewrite exec_try_raise
        by (apply bind_raised; exact Hc).
      rewrite <- Hcr.
      match goal with
      | |- _ (trace (exec ?m e w1)) = _ =>
          assert (H : preserves (fun w => reconnects (trace w)) m) by frame
      end.
      apply H.
Qed.

Lemma worker_loop_unfold rounds e w :
  exec (worker_loop (S rounds)) e w =
  if running w
  then exec (worker_loop rounds) e (exec worker_iteration e w)
  else w.
Proof.
  cbn [worker_loop].
  rewrite (exec_bind_val _ _ get _ e w w w eq_refl).
  destruct (running w); [ | reflexivity ].
  destruct (worker_iteration_returns e w) as [[] Hret].
  apply (exec_bind_val _ _ worker_iteration (fun _ => worker_loop rounds)
           e w tt).
  apply run_eq. exact Hret.
Qed.

Lemma worker_loop_stopped rounds e w :
  running w = false -> exec (worker_loop rounds) e w = w.
Proof.
  intros Hrun. destruct rounds as [ | rounds ]; [ reflexivity | ].
  rewrite worker_loop_unfold, Hrun. reflexivity.
Qed.

Lemma worker_loop_bounded rounds e w :
  reconnect_attempts w = 0 ->
  backoffs (trace (exec (worker_loop rounds) e w)) = backoffs (trace w) /\
  (reconnects (trace (exec (worker_loop rounds) e w)) <=
   S (reconnects (trace w)))%nat.
Proof.
  revert w. induction rounds as [ | rounds IH ]; intros w Hra.
  - cbn. split; [ reflexivity | lia ].
  - rewrite worker_loop_unfold.
    destruct (running w); [ | split; [ reflexivity | lia ] ].
    destruct (worker_round e w Hra) as [Hb [[Hstop Hr] | [Hra1 Hr]]].
    + rewrite (worker_loop_stopped rounds e _ Hstop).
      split; [ exact Hb | rewrite Hr; lia ].
    + destruct (IH _ Hra1) as [Hb1 Hr1].
      split; [ rewrite Hb1; exact Hb | rewrite Hr in Hr1; exact Hr1 ].
Qed.

(** X15. However long the worker thread runs and whatever the surroundings
    answer, it never reaches the branch that announces the maximum of
    reconnection attempts and waits five seconds, because it reconnects at
    most once: the first reconnect clears [self.running] and the loop ends
    at its next test. *)
Theorem worker_reconnects_at_most_once e w rounds :
  backoffs (trace (exec (serial_worker rounds) e w)) = backoffs (trace w) /\
  (reconnects (trace (exec (serial_worker rounds) e w)) <=
   S (reconnects (trace w)))%nat.
Proof.
  unfold serial_worker.
  change (exec (modify (with_running true) ;;
                modify (with_reconnect_attempts 0) ;;
                worker_loop rounds) e w)
    with (exec (worker_loop rounds) e
            (with_reconnect_attempts 0 (with_running true w))).
  apply (worker_loop_bounded rounds e
           (with_reconnect_attempts 0 (with_running true w))).
  reflexivity.
Qed.

(** X16. A round on a healthy connection with bytes waiting reads one
    line, echoes the stripped line and hands it to [parse_data], once, then
    pauses a tenth of a second: the round is the parser's run on that line
    and nothing more, and the count of failed reconnects is 0. *)
Theorem round_hands_line_to_parser e w s k0 k raw :
  ser w = Some s -> is_open s = true ->
  in_waiting e (tick w) = inr k0 ->
  in_waiting e (S (tick w)) = inr k -> k <> 0 ->
  readline_decode e (S (S (tick w))) = ReadText raw ->
  PyStr.strip raw <> "" ->
  worker_iteration e w =
    (parse_data (PyStr.strip raw) ;; sleep 1) e
      (with_trace (trace w ++ [Print (MsgLine (PyStr.strip raw))])
         (with_tick (S (S (S (tick w)))) (with_reconnect_attempts 0 w))).
Proof.
  intros Hser Hopen Hcheck Hin Hk Hread Hline.
  destruct w as [pt sr rn pn lb lh cl te cf ra tr tk].
  cbn in Hser, Hcheck, Hin, Hread. subst sr.
  apply Z.eqb_neq in Hk.
  unfold worker_iteration, check_connection, ser_in_waiting,
    ser_readline_decode.
  run. rewrite Hopen. cbn. rewrite Hcheck. cbn. rewrite Hin. cbn.
  rewrite Hk. cbn. rewrite Hread. cbn.
  destruct (PyStr.strip raw) as [ | c line ] eqn:Hstrip;
    [ contradiction | ].
  unfold with_trace, with_tick, with_reconnect_attempts. cbn.
  match goal with
  | |- context [parse_data ?l ?e1 ?w1] =>
      destruct (parse_data_returns l e1 w1) as [[] Hret];
      unfold outcome in Hret;
      destruct (parse_data l e1 w1) as [r w2]
  end.
  cbn in Hret. subst r. reflexivity.
Qed.

Lemma round_hands_line_to_parser_witness :
  let e :=
    Env (now quiet_env) (comports quiet_env) (serial_open quiet_env)
      (serial_close quiet_env) (fun _ => inr 10)
      (reset_input_buffer quiet_env) (fun _ => ReadText "DETECT:Queue=3  ")
      (csv_read quiet_env) (csv_write quiet_env) (csv_opened quiet_env)
      (requests_get quiet_env) in
  current_patient_number (exec worker_iteration e connected_world) = 3.
Proof.
  intro e.
  assert (Hk : 10 <> 0) by discriminate.
  assert (Hline : PyStr.strip "DETECT:Queue=3  " <> "")
    by (vm_compute; discriminate).
  unfold exec.
  rewrite (round_hands_line_to_parser e connected_world
             (Serial (Some "/dev/cu.usbmodem1") true) 10 10
             "DETECT:Queue=3  " eq_refl eq_refl eq_refl eq_refl Hk eq_refl
             Hline).
  vm_compute. reflexivity.
Defined.

(** X17. A round on a healthy connection whose line is blank after
    stripping, or is not valid UTF-8, drops the input: the parser is not
    run, nothing of the monitor changes but the count of failed reconnects,
    which is 0, and the round ends with its pause, after the decoding
    warning in the second case. *)
Theorem blank_or_undecodable_input_skipped e w s k0 k :
  ser w = Some s -> is_open s = true ->
  in_waiting e (tick w) = inr k0 ->
  in_waiting e (S (tick w)) = inr k -> k <> 0 ->
  match readline_decode e (S (S (tick w))) with
  | ReadText raw => PyStr.strip raw = ""
  | ReadRaises x => exn_cls x = UnicodeDecodeError
  end ->
  outcome worker_iteration e w = Val tt /\
  monitor_state (exec worker_iteration e w) =
    monitor_state (with_reconnect_attempts 0 w) /\
  trace (exec worker_iteration e w) =
    trace w ++
    match readline_decode e (S (S (tick w))) with
    | ReadText _ => [Sleep 1]
    | ReadRaises _ => [Print MsgCouldNotDecode; Sleep 1]
    end.
Proof.
  intros Hser Hopen Hcheck Hin Hk Hread.
  destruct w as [pt sr rn pn lb lh cl te cf ra tr tk].
  cbn in Hser, Hcheck, Hin, Hread |- *. subst sr.
  apply Z.eqb_neq in Hk.
  unfold worker_iteration, check_connection, ser_in_waiting,
    ser_readline_decode, outcome, exec.
  run. rewrite Hopen. cbn. rewrite Hcheck. cbn. rewrite Hin. cbn.
  rewrite Hk. cbn.
  destruct (readline_decode e (S (S tk))); cbn; rewrite Hread; cbn;
    rewrite <- ?app_assoc; repeat split; reflexivity.
Qed.

Lemma blank_or_undecodable_input_skipped_witness :
  let e :=
    Env (now quiet_env) (comports quiet_env) (serial_open quiet_env)
      (serial_close quiet_env) (fun _ => inr 1)
      (reset_input_buffer quiet_env) (readline_decode quiet_env)
      (csv_read quiet_env) (csv_write quiet_env) (csv_opened quiet_env)
      (requests_get quiet_env) in
  trace (exec worker_iteration e connected_world) = [Sleep 1].
Proof.
  intro e.
  assert (Hk : 1 <> 0) by discriminate.
  exact (proj2 (proj2
    (blank_or_undecodable_input_skipped e connected_world
       (Serial (Some "/dev/cu.usbmodem1") true) 1 1
       eq_refl eq_refl eq_refl eq_refl Hk eq_refl))).
Defined.

(** ** The operator's console *)

Arguments lift : simpl never.
Arguments send_command : simpl never.
Arguments dispatch : simpl never.

Ltac crun :=
  unfold cbind, cret, craise, ctry_except, cget, say, note, cask;
  cbn.

Lemma lift_run A (m : M A) e o s :
  lift m e o s =
    (outcome m e (monitor s),
     Session (exec m e (monitor s))
       (console s ++
        map Monitor
          (skipn (List.length (trace (monitor s)))
             (trace (exec m e (monitor s)))))
       (asked s)).
Proof.
  unfold lift, outcome, exec. destruct (m e (monitor s)) as [r w'].
  reflexivity.
Qed.

Lemma cbind_val A B (m : C A) (k : A -> C B) e o s a s1 :
  m e o s = (Val a, s1) -> cbind m k e o s = k a e o s1.
Proof. intros H. unfold cbind. rewrite H. reflexivity. Qed.

Lemma lift_modify g e o s :
  trace (g (monitor s)) = trace (monitor s) ->
  lift (modify g) e o s =
    (Val tt, Session (g (monitor s)) (console s) (asked s)).
Proof.
  intros H. rewrite lift_run. unfold outcome, exec, modify. cbn [fst snd].
  rewrite H, skipn_all. cbn [map]. rewrite app_nil_r. reflexivity.
Qed.

(** X18. [send_command] never raises. Without an open connection the
    command is dropped: nothing is written, nothing is printed and nothing
    changes. On an open connection it is written once; a write that fails
    is reported and marks the connection lost, a write that succeeds is
    reported and leaves the monitor as it was. *)
Theorem send_command_verdict e o s command :
  send_command command e o s =
    (Val tt,
     if connected (monitor s) then
       match serial_write o (asked s) command with
       | None =>
           Session (monitor s)
             (console s ++
              [SerialWrite command None; Say (SaidSent command)])
             (S (asked s))
       | Some x =>
           Session (with_connection_lost true (monitor s))
             (console s ++
              [SerialWrite command (Some x); Say (SaidSendFailed x)])
             (S (asked s))
       end
     else s).
Proof.
  unfold send_command, connected.
  rewrite (cbind_val _ _ cget _ e o s s s eq_refl).
  destruct (ser (monitor s)) as [p | ]; [ | reflexivity ].
  destruct (is_open p); [ | reflexivity ].
  crun.
  destruct (serial_write o (asked s) command) as [x | ]; cbn.
  - rewrite lift_modify by reflexivity. cbn.
    rewrite <- app_assoc. reflexivity.
  - rewrite <- app_assoc. reflexivity.
Qed.

Lemma connect_attempt_returns attempt : returns (connect_attempt attempt).
Proof. unfold connect_attempt. returning. Qed.

Lemma connect_loop_returns attempts : returns (connect_loop attempts).
Proof.
  induction attempts as [ | attempt rest IH ]; cbn [connect_loop].
  - apply returns_ret.
  - apply returns_bind; [ apply connect_attempt_returns | ].
    intros [ | b ]; [ exact IH | apply returns_ret ].
Qed.

Lemma reconnect_returns : returns reconnect.
Proof.
  unfold reconnect, connect.
  apply returns_bind; [ apply returns_emit | intros _ ].
  apply returns_bind; [ apply disconnect_returns | intros _ ].
  apply returns_bind; [ apply returns_emit | intros _ ].
  apply connect_loop_returns.
Qed.

Lemma writes_app l1 l2 : writes (l1 ++ l2) = writes l1 ++ writes l2.
Proof.
  induction l1 as [ | ev l1 IH ]; [ reflexivity | ].
  destruct ev; cbn; rewrite IH; reflexivity.
Qed.

Lemma inputs_app l1 l2 : inputs (l1 ++ l2) = (inputs l1 + inputs l2)%nat.
Proof.
  induction l1 as [ | ev l1 IH ]; [ reflexivity | ].
  destruct ev; cbn; rewrite IH; reflexivity.
Qed.

Lemma inputs_monitor l : inputs (map Monitor l) = O.
Proof. induction l as [ | ev l IH ]; [ reflexivity | exact IH ]. Qed.

Lemma writes_monitor l : writes (map Monitor l) = [].
Proof. induction l as [ | ev l IH ]; [ reflexivity | exact IH ]. Qed.

(** What [send_command] leaves alone: it returns, asks the keyboard
    nothing, and changes no field of the monitor but [connection_lost]. *)
Lemma send_command_keeps X (f : world -> X) command e o s :
  (forall w, f (with_connection_lost true w) = f w) ->
  fst (send_command command e o s) = Val tt /\
  f (monitor (snd (send_command command e o s))) = f (monitor s) /\
  inputs (console (snd (send_command command e o s))) = inputs (console s).
Proof.
  intros Hf. unfold send_command.
  rewrite (cbind_val _ _ cget _ e o s s s eq_refl).
  destruct (ser (monitor s)) as [p | ];
    [ | repeat split; reflexivity ].
  destruct (is_open p); [ | repeat split; reflexivity ].
  crun.
  destruct (serial_write o (asked s) command) as [x | ]; cbn.
  - rewrite lift_modify by reflexivity. cbn.
    rewrite Hf, !inputs_app. cbn. repeat split; try reflexivity; lia.
  - rewrite !inputs_app. cbn. repeat split; try reflexivity; lia.
Qed.

Lemma send_command_unconnected command e o s :
  connected (monitor s) = false ->
  send_command command e o s = (Val tt, s).
Proof.
  unfold connected, send_command.
  rewrite (cbind_val _ _ cget _ e o s s s eq_refl).
  destruct (ser (monitor s)) as [p | ]; [ | reflexivity ].
  intros ->. reflexivity.
Qed.

Lemma dispatch_reset :
  dispatch (Some "R") =
  (lift (modify (with_current_patient_number 0)) ;;
   send_command "R" ;;
   say SaidCounterReset ;;
   cret Next)%console.
Proof. reflexivity. Qed.

(** X19. The command [R] sets the host's counter to 0 and says so,
    whatever becomes of the write to the device: the pending readings and
    the log are kept, and without an open connection the device is told
    nothing while the operator is still told that the counter was reset. *)
Theorem reset_command_resets_host_counter e o s :
  fst (dispatch (Some "R") e o s) = Val Next /\
  current_patient_number (monitor (snd (dispatch (Some "R") e o s))) = 0 /\
  (let w' := monitor (snd (dispatch (Some "R") e o s)) in
   (last_bpm w', last_heartbeat w', csv_file w', running w') =
   (last_bpm (monitor s), last_heartbeat (monitor s), csv_file (monitor s),
    running (monitor s))) /\
  (connected (monitor s) = false ->
   snd (dispatch (Some "R") e o s) =
     Session (with_current_patient_number 0 (monitor s))
       (console s ++ [Say SaidCounterReset]) (asked s)).
Proof.
  rewrite dispatch_reset.
  rewrite (cbind_val _ _ _ _ e o s tt _
             (lift_modify (with_current_patient_number 0) e o s eq_refl)).
  set (s1 := Session (with_current_patient_number 0 (monitor s)) (console s)
               (asked s)).
  destruct (send_command_keeps _
              (fun w => (current_patient_number w, last_bpm w,
                         last_heartbeat w, csv_file w, running w))
              "R" e o s1 (fun _ => eq_refl)) as [Hret [Hkeep _]].
  pose proof (send_command_unconnected "R" e o s1) as Hdrop.
  destruct (send_command "R" e o s1) as [r s2] eqn:Hsend.
  cbn [fst snd] in Hret, Hkeep. subst r.
  rewrite (cbind_val _ _ _ _ e o s1 tt s2 Hsend).
  crun. injection Hkeep as -> -> -> -> ->.
  repeat split.
  intros Hconn. specialize (Hdrop Hconn). injection Hdrop as Hsame.
  rewrite Hsame. reflexivity.
Qed.

Lemma reset_command_resets_host_counter_witness :
  let o := Operator (fun _ => InputEOF) (fun _ _ => None) in
  let s := Session (world_at 7) [] 0 in
  snd (dispatch (Some "R") quiet_env o s) =
    Session (world_at 0) [Say SaidCounterReset] 0.
Proof.
  intros o s.
  exact (proj2 (proj2 (proj2
           (reset_command_resets_host_counter quiet_env o s))) eq_refl).
Defined.

Arguments interactive_loop : simpl never.

Lemma dispatch_reconnect :
  dispatch (Some "RECONNECT") =
  (reconnected <- lift reconnect ;;
   (if reconnected then say SaidManualOk else say SaidManualFailed) ;;
   cret Next)%console.
Proof. reflexivity. Qed.

Lemma interactive_loop_stopped rounds e o s :
  running (monitor s) = false ->
  interactive_loop (S rounds) e o s = (Val Over, s).
Proof.
  intros Hrun. unfold interactive_loop.
  rewrite (cbind_val _ _ cget _ e o s s s eq_refl). rewrite Hrun.
  reflexivity.
Qed.

(** One round of the loop on a line the keyboard gives. *)
Lemma interactive_loop_line rounds e o s line :
  running (monitor s) = true ->
  keyboard o (asked s) = InputLine line ->
  interactive_loop (S rounds) e o s =
  (step <- dispatch (upper (PyStr.strip line)) ;;
   match step with
   | Break => cret Over
   | Next => interactive_loop rounds
   end)%console e o
    (Session (monitor s) (console s ++ [Input (InputLine line)])
       (S (asked s))).
Proof.
  intros Hrun Hkey.
  change (interactive_loop (S rounds))
    with (s <- cget ;;
          if running (monitor s) then
            r <- cask keyboard ;;
            note (Input r) ;;
            match r with
            | InputEOF => cret Over
            | InputInterrupt => say SaidStopped ;; cret Over
            | InputLine line =>
                step <- dispatch (upper (PyStr.strip line)) ;;
                match step with
                | Break => cret Over
                | Next => interactive_loop rounds
                end
            end
          else cret Over)%console.
  rewrite (cbind_val _ _ cget _ e o s s s eq_refl). rewrite Hrun.
  unfold cbind at 1. unfold cask at 1. rewrite Hkey.
  unfold cbind at 1. unfold note at 1. reflexivity.
Qed.

(** X20. The command [RECONNECT] ends the session. Whether or not the
    reconnection succeeds, it leaves [running] false, so the interactive
    loop is left at its next test without reading another line. *)
Theorem reconnect_command_ends_session e o s line rounds :
  running (monitor s) = true ->
  keyboard o (asked s) = InputLine line ->
  upper (PyStr.strip line) = Some "RECONNECT" ->
  fst (interactive_loop (S (S rounds)) e o s) = Val Over /\
  running (monitor (snd (interactive_loop (S (S rounds)) e o s))) = false /\
  inputs (console (snd (interactive_loop (S (S rounds)) e o s))) =
    S (inputs (console s)) /\
  monitor (snd (interactive_loop (S (S rounds)) e o s)) =
    exec reconnect e (monitor s).
Proof.
  intros Hrun Hkey Hcmd.
  destruct (reconnect_returns e (monitor s)) as [b Hb].
  pose proof (reconnect_stops e (monitor s)) as Hstop.
  assert (Heq : exists m,
    interactive_loop (S (S rounds)) e o s =
    (Val Over,
     Session (exec reconnect e (monitor s))
       (((console s ++ [Input (InputLine line)]) ++
         map Monitor
           (skipn (List.length (trace (monitor s)))
              (trace (exec reconnect e (monitor s))))) ++ [Say m])
       (S (asked s)))).
  { rewrite (interactive_loop_line _ e o s line Hrun Hkey), Hcmd.
    rewrite dispatch_reconnect.
    unfold cbind at 1. unfold cbind at 1. rewrite lift_run.
    cbn [monitor console asked]. rewrite Hb.
    exists (if b then SaidManualOk else SaidManualFailed).
    destruct b; unfold cbind at 1; unfold say, note, cret;
      cbn [monitor console asked];
      rewrite interactive_loop_stopped by exact Hstop; reflexivity. }
  destruct Heq as [m ->]. cbn [fst snd monitor console].
  rewrite !inputs_app, inputs_monitor. cbn.
  repeat split; try assumption; lia.
Qed.

Lemma reconnect_command_ends_session_witness :
  let o := Operator (fun _ => InputLine " reconnect ") (fun _ _ => None) in
  let s := Session (with_running true connected_world) [] 0 in
  fst (interactive_loop 5 quiet_env o s) = Val Over /\
  inputs (console (snd (interactive_loop 5 quiet_env o s))) = 1%nat.
Proof.
  intros o s.
  assert (Hcmd : upper (PyStr.strip " reconnect ") = Some "RECONNECT")
    by reflexivity.
  pose proof (reconnect_command_ends_session quiet_env o s " reconnect "
                3%nat eq_refl eq_refl Hcmd) as H.
  split; [ exact (proj1 H) | exact (proj1 (proj2 (proj2 H))) ].
Defined.

Lemma dispatch_toggle :
  dispatch (Some "THINGSPEAK") =
  (lift (modify (fun w =>
     with_thingspeak_enabled (negb (thingspeak_enabled w)) w)) ;;
   s <- cget ;;
   say (SaidUpload (thingspeak_enabled (monitor s))) ;;
   cret Next)%console.
Proof. reflexivity. Qed.

Lemma dispatch_toggle_run e o s :
  dispatch (Some "THINGSPEAK") e o s =
    (Val Next,
     Session
       (with_thingspeak_enabled (negb (thingspeak_enabled (monitor s)))
          (monitor s))
       (console s ++ [Say (SaidUpload (negb (thingspeak_enabled (monitor s))))])
       (asked s)).
Proof.
  rewrite dispatch_toggle.
  rewrite (cbind_val _ _ _ _ e o s tt _
             (lift_modify
                (fun w =>
                   with_thingspeak_enabled (negb (thingspeak_enabled w)) w)
                e o s eq_refl)).
  reflexivity.
Qed.

(** X21. The command [THINGSPEAK] flips the upload switch and nothing
    else, reports the new setting, and given twice leaves the monitor
    exactly as it was. *)
Theorem upload_toggle_involutive e o s :
  let s1 := snd (dispatch (Some "THINGSPEAK") e o s) in
  let s2 := snd (dispatch (Some "THINGSPEAK") e o s1) in
  thingspeak_enabled (monitor s1) = negb (thingspeak_enabled (monitor s)) /\
  monitor_state (with_thingspeak_enabled true (monitor s1)) =
    monitor_state (with_thingspeak_enabled true (monitor s)) /\
  console s1 =
    console s ++ [Say (SaidUpload (thingspeak_enabled (monitor s1)))] /\
  monitor s2 = monitor s.
Proof.
  intros s1 s2. subst s2 s1. rewrite !dispatch_toggle_run.
  cbn [snd monitor console].
  destruct (monitor s) as [pt sr rn pn lb lh cl te cf ra tr tk].
  cbn. rewrite negb_involutive. repeat split; reflexivity.
Qed.

Lemma monitor_serial_run e o s :
  monitor_serial e o s =
    (Val tt,
     Session (with_running true (monitor s))
       (console s ++
        [ThreadStart; Say SaidStarted; Say SaidRecording; Say SaidCsvFile] ++
        (if thingspeak_enabled (monitor s)
         then [Say SaidThingSpeakOn; Say SaidViewLive] else []) ++
        [Say SaidAutoReconnect])
       (asked s)).
Proof.
  unfold monitor_serial.
  rewrite (cbind_val _ _ _ _ e o s tt _
             (lift_modify (with_running true) e o s eq_refl)).
  crun. destruct (thingspeak_enabled (monitor s)); cbn;
    rewrite <- !app_assoc; reflexivity.
Qed.

(** After a successful [connect], [start_interactive] is the interactive
    loop under its [finally], with [running] set and nothing read yet. *)
Lemma start_interactive_connected e o s rounds :
  outcome connect e (monitor s) = Val true ->
  exists l,
    inputs l = O /\
    start_interactive rounds e o s =
    finally_disconnect (interactive_loop rounds) e o
      (Session (with_running true (exec connect e (monitor s)))
         (console s ++ l) (asked s)).
Proof.
  intros Hconn. unfold start_interactive.
  unfold cbind at 1. rewrite lift_run, Hconn. cbn [negb].
  unfold cbind at 1. rewrite monitor_serial_run.
  cbn [monitor console asked].
  exists (map Monitor
            (skipn (List.length (trace (monitor s)))
               (trace (exec connect e (monitor s)))) ++
          [ThreadStart; Say SaidStarted; Say SaidRecording; Say SaidCsvFile] ++
          (if thingspeak_enabled (exec connect e (monitor s))
           then [Say SaidThingSpeakOn; Say SaidViewLive] else []) ++
          [Say SaidAutoReconnect; Say SaidInteractive; Say SaidHelpReset;
           Say SaidHelpQuit; Say SaidHelpReconnect; Say SaidHelpStatus;
           Say SaidHelpThingSpeak; Say SaidHelpNote]).
  split.
  - rewrite inputs_app, inputs_monitor.
    destruct (thingspeak_enabled (exec connect e (monitor s))); reflexivity.
  - crun.
    destruct (thingspeak_enabled (exec connect e (monitor s)));
      rewrite <- ?app_assoc; cbn [app]; reflexivity.
Qed.

(** X22. When [connect] fails, [start_interactive] prints its advice and
    returns: the worker is not started, no line is read, and [disconnect]
    is not called, so the monitor is as [connect] left it. *)
Theorem failed_start_makes_no_disconnect e o s rounds :
  outcome connect e (monitor s) = Val false ->
  fst (start_interactive rounds e o s) = Val Over /\
  monitor (snd (start_interactive rounds e o s)) =
    exec connect e (monitor s) /\
  asked (snd (start_interactive rounds e o s)) = asked s /\
  inputs (console (snd (start_interactive rounds e o s))) =
    inputs (console s) /\
  (In ThreadStart (console (snd (start_interactive rounds e o s))) ->
   In ThreadStart (console s)).
Proof.
  intros Hconn.
  assert (Heq : start_interactive rounds e o s =
    (Val Over,
     Session (exec connect e (monitor s))
       (console s ++
        map Monitor
          (skipn (List.length (trace (monitor s)))
             (trace (exec connect e (monitor s)))) ++
        [Say SaidTroubleshooting; Say SaidCheckUsb;
         Say SaidCloseSerialMonitor; Say SaidCloseTerminals; Say SaidReplug])
       (asked s))).
  { unfold start_interactive.
    unfold cbind at 1. rewrite lift_run, Hconn. cbn [negb]. crun.
    rewrite <- !app_assoc. reflexivity. }
  rewrite Heq. cbn [fst snd monitor console asked].
  rewrite !inputs_app, inputs_monitor. cbn.
  repeat split; try lia.
  intros Hin. rewrite !in_app_iff in Hin.
  destruct Hin as [Hin | [Hin | Hin]]; [ exact Hin | | ].
  - apply in_map_iff in Hin. destruct Hin as [ev [Hev _]]. discriminate Hev.
  - cbn in Hin. repeat destruct Hin as [Hin | Hin]; try discriminate Hin.
    contradiction.
Qed.

Lemma failed_start_makes_no_disconnect_witness :
  let o := Operator (fun _ => InputLine "Q") (fun _ _ => None) in
  let s := Session (init_world None None) [] 0 in
  fst (start_interactive 3 quiet_env o s) = Val Over /\
  asked (snd (start_interactive 3 quiet_env o s)) = O.
Proof.
  intros o s.
  assert (Hconn : outcome connect quiet_env (monitor s) = Val false)
    by reflexivity.
  pose proof (failed_start_makes_no_disconnect quiet_env o s 3 Hconn) as H.
  split; [ exact (proj1 H) | exact (proj1 (proj2 (proj2 H))) ].
Defined.

(** X23. However a session that was started leaves its loop, it ends
    disconnected: when [connect] succeeded and the interactive loop is
    over, by [Q], end of input, an interrupt, a cleared [running] or an
    exception out of a command, [disconnect] has run last and [running] is
    false. *)
Theorem session_ends_disconnected e o s rounds :
  outcome connect e (monitor s) = Val true ->
  fst (start_interactive rounds e o s) <> Val Waiting ->
  running (monitor (snd (start_interactive rounds e o s))) = false /\
  exists w, monitor (snd (start_interactive rounds e o s)) =
            exec disconnect e w.
Proof.
  intros Hconn Hover.
  destruct (start_interactive_connected e o s rounds Hconn) as [l [_ Heq]].
  rewrite Heq in *. unfold finally_disconnect in *.
  destruct (interactive_loop rounds e o _) as [[[ | ] | x] s1].
  - unfold cbind. rewrite lift_run.
    destruct (disconnect_returns e (monitor s1)) as [[] Hret].
    rewrite Hret. cbn [fst snd monitor cret].
    split; [ apply disconnect_stops | exists (monitor s1); reflexivity ].
  - contradiction Hover. reflexivity.
  - unfold cbind. rewrite lift_run.
    destruct (disconnect_returns e (monitor s1)) as [[] Hret].
    rewrite Hret. cbn [fst snd monitor craise].
    split; [ apply disconnect_stops | exists (monitor s1); reflexivity ].
Qed.

Lemma session_ends_disconnected_witness :
  let o := Operator (fun _ => InputEOF) (fun _ _ => None) in
  let s := Session (init_world (Some "/dev/cu.usbmodem1") None) [] 0 in
  running (monitor (snd (start_interactive 2 quiet_env o s))) = false.
Proof.
  intros o s.
  assert (Hconn : outcome connect quiet_env (monitor s) = Val true)
    by reflexivity.
  assert (Hover : fst (start_interactive 2 quiet_env o s) <> Val Waiting)
    by (vm_compute; discriminate).
  exact (proj1 (session_ends_disconnected quiet_env o s 2 Hconn Hover)).
Defined.

Lemma dispatch_quit :
  dispatch (Some "Q") = (say SaidExiting ;; cret Break)%console.
Proof. reflexivity. Qed.

(** X24. The command [Q], in any case and with blanks around it, ends the
    session at once: the loop reads that one line, changes nothing of the
    monitor, and [start_interactive] then disconnects. *)
Theorem quit_ends_session e o s line rounds :
  outcome connect e (monitor s) = Val true ->
  keyboard o (asked s) = InputLine line ->
  upper (PyStr.strip line) = Some "Q" ->
  fst (start_interactive (S rounds) e o s) = Val Over /\
  monitor (snd (start_interactive (S rounds) e o s)) =
    exec disconnect e (with_running true (exec connect e (monitor s))) /\
  inputs (console (snd (start_interactive (S rounds) e o s))) =
    S (inputs (console s)).
Proof.
  intros Hconn Hkey Hcmd.
  destruct (start_interactive_connected e o s (S rounds) Hconn)
    as [l [Hl Heq]].
  rewrite Heq. unfold finally_disconnect.
  rewrite (interactive_loop_line rounds e o
             (Session (with_running true (exec connect e (monitor s)))
                (console s ++ l) (asked s))
             line eq_refl Hkey), Hcmd.
  rewrite dispatch_quit.
  unfold cbind at 2. unfold cbind at 2. unfold say, note, cret.
  cbn [monitor console asked].
  unfold cbind. rewrite lift_run. cbn [monitor console asked].
  destruct (disconnect_returns e
              (with_running true (exec connect e (monitor s)))) as [[] Hret].
  rewrite Hret. cbn [fst snd monitor console].
  rewrite !inputs_app, inputs_monitor, Hl. cbn.
  repeat split; lia.
Qed.

Lemma quit_ends_session_witness :
  let o := Operator (fun _ => InputLine "q") (fun _ _ => None) in
  let s := Session (init_world (Some "/dev/cu.usbmodem1") None) [] 0 in
  fst (start_interactive 1 quiet_env o s) = Val Over /\
  running (monitor (snd (start_interactive 1 quiet_env o s))) = false.
Proof.
  intros o s.
  assert (Hconn : outcome connect quiet_env (monitor s) = Val true)
    by reflexivity.
  assert (Hcmd : upper (PyStr.strip "q") = Some "Q") by reflexivity.
  pose proof (quit_ends_session quiet_env o s "q" O Hconn eq_refl Hcmd)
    as H.
  split; [ exact (proj1 H) | ].
  rewrite (proj1 (proj2 H)). apply disconnect_stops.
Defined.
